(** * The section and style debug inspectors of the theme, embedded in Rocq

    The theme ships three small browser scripts that walk the rendered
    document and report on it:

    - the section copy tool (first script of [section-debug.js]) which
      injects a copy button per section and writes a JSON report to the
      clipboard;
    - the section component inspector (second script of
      [section-debug.js]) which injects an inspect button per section and
      lists the notable elements of the section with their colours;
    - the style debug modal ([style-debug.js]) which scans the whole page
      for fonts, sizes, weights, colours, spacing and conflicts.

    The theme toggle ([theme-toggle.js], in its version with one switch
    and in its version with a light and a dark button) is embedded as
    well, as functions on the few pieces of page state it reads and
    writes.

    Each script is embedded as a module of executable definitions that
    follow the JavaScript source function by function.  JavaScript strings
    are [string]s whose characters are read as the code units U+0000 to
    U+00FF; numbers that the scripts obtain with [parseFloat] are exact
    rationals ([Qc]), integers are [Z] or [N]; [null] is [None].  The
    document is a tree of element views that carry the attributes and
    computed-style properties the scripts read. *)

From Stdlib Require Import String Ascii List ZArith NArith QArith Qround Qcanon.
From Stdlib Require Import Lia Lqa Bool DecimalString HexadecimalString Sorted.
From stdpp Require Import base gmap sets strings list.

Open Scope string_scope.

(* ===================================================================== *)
(** ** JavaScript string primitives used by the scripts *)
(* ===================================================================== *)

Module Js.

(** [!s] is true exactly for the empty string; a non-empty string is
    truthy. *)
Definition truthy (s : string) : bool :=
  match s with EmptyString => false | String _ _ => true end.

(** [s.startsWith(pre)], which is also what a regular expression
    [/^pre/] made of literal characters tests. *)
Definition startsWith (s pre : string) : bool := String.prefix pre s.

(** [s.includes(sub)]. *)
Fixpoint includes (s sub : string) : bool :=
  String.prefix sub s ||
  match s with
  | EmptyString => false
  | String _ t => includes t sub
  end.

Definition code (c : ascii) : N := N_of_ascii c.

(** [\d] of a regular expression: the ten ASCII digits. *)
Definition isDigit (c : ascii) : bool :=
  ((48 <=? code c) && (code c <=? 57))%N.

(** White space as [\s] and [trim] see it, within U+0000..U+00FF:
    TAB, LF, VT, FF, CR, SPACE and NO-BREAK SPACE. *)
Definition isWhiteSpace (c : ascii) : bool :=
  let n := code c in
  ((9 <=? n) && (n <=? 13) || (n =? 32) || (n =? 160))%N.

(** White space as the DOM splits a [class] attribute into tokens:
    TAB, LF, FF, CR and SPACE. *)
Definition isAsciiWhiteSpace (c : ascii) : bool :=
  let n := code c in
  ((n =? 9) || (n =? 10) || (n =? 12) || (n =? 13) || (n =? 32))%N.

Fixpoint trimStart (s : string) : string :=
  match s with
  | EmptyString => EmptyString
  | String c t => if isWhiteSpace c then trimStart t else s
  end.

(** [trimEnd] drops the white space at the end: a character is kept when
    it is not white space or when something is kept after it. *)
Fixpoint trimEnd (s : string) : string :=
  match s with
  | EmptyString => EmptyString
  | String c t =>
      match trimEnd t with
      | EmptyString => if isWhiteSpace c then EmptyString else String c EmptyString
      | t' => String c t'
      end
  end.

Definition trim (s : string) : string := trimEnd (trimStart s).

(** [s.split(sep)] for a separator of one character: the pieces between
    the separators, empty pieces included; the empty string gives one
    empty piece. *)
Fixpoint split (sep : ascii) (s : string) : list string :=
  match s with
  | EmptyString => [EmptyString]
  | String c t =>
      if Ascii.eqb c sep then EmptyString :: split sep t
      else match split sep t with
           | h :: r => String c h :: r
           | [] => [String c EmptyString]
           end
  end.

(** The tokens of a [class] attribute, as [classList] and a class
    selector see them. *)
Fixpoint tokensAux (cur : string) (s : string) : list string :=
  match s with
  | EmptyString => if truthy cur then [cur] else []
  | String c t =>
      if isAsciiWhiteSpace c
      then (if truthy cur then [cur] else []) ++ tokensAux EmptyString t
      else tokensAux (cur ++ String c EmptyString) t
  end.

Definition classTokens (cls : string) : list string := tokensAux EmptyString cls.

(** [arr.join(sep)]. *)
Fixpoint join (sep : string) (l : list string) : string :=
  match l with
  | [] => EmptyString
  | [x] => x
  | x :: r => x ++ sep ++ join sep r
  end.

(** [toLowerCase] and [toUpperCase] on the letters of U+0000..U+00FF.
    Lower-casing maps A-Z and the accented capitals U+00C0..U+00DE
    (without the multiplication sign U+00D7) 32 places up.  Upper-casing
    maps a-z and U+00E0..U+00FE (without the division sign U+00F7) 32
    places down and writes the sharp s U+00DF as SS; the two letters whose
    capitals lie beyond U+00FF (U+00B5 and U+00FF) are left as they are,
    which keeps them different from every ASCII character. *)
Definition lowerChar (c : ascii) : ascii :=
  let n := code c in
  if ((65 <=? n) && (n <=? 90) || (192 <=? n) && (n <=? 222) && negb (n =? 215))%N
  then ascii_of_N (n + 32) else c.

Definition upperChar (c : ascii) : ascii :=
  let n := code c in
  if ((97 <=? n) && (n <=? 122) || (224 <=? n) && (n <=? 254) && negb (n =? 247))%N
  then ascii_of_N (n - 32) else c.

Fixpoint toLowerCase (s : string) : string :=
  match s with
  | EmptyString => EmptyString
  | String c t => String (lowerChar c) (toLowerCase t)
  end.

Fixpoint toUpperCase (s : string) : string :=
  match s with
  | EmptyString => EmptyString
  | String c t =>
      if (code c =? 223)%N then String "S" (String "S" (toUpperCase t))
      else String (upperChar c) (toUpperCase t)
  end.

(** [s.substring(0, n)]. *)
Fixpoint substring0 (n : nat) (s : string) : string :=
  match n, s with
  | S n', String c t => String c (substring0 n' t)
  | _, _ => EmptyString
  end.

(** [s.replace(pat, by)] for a string pattern: the first occurrence. *)
Fixpoint replaceFirst (pat by_ s : string) : string :=
  if String.prefix pat s
  then by_ ++ String.substring (String.length pat) (String.length s - String.length pat) s
  else match s with
       | EmptyString => EmptyString
       | String c t => String c (replaceFirst pat by_ t)
       end.

(** [s.replace] with the global pattern of the two quote characters
    (apostrophe, code 39, and double quote, code 34) and an empty
    replacement: every quote character removed. *)
Fixpoint removeQuotes (s : string) : string :=
  match s with
  | EmptyString => EmptyString
  | String c t =>
      if ((code c =? 39) || (code c =? 34))%N then removeQuotes t
      else String c (removeQuotes t)
  end.

(** [parseInt] of a string of decimal digits (the text captured by
    [(\d+)]); exact as long as the value stays below 2^53, which the
    channels of a computed colour do.  From 2^53 on the script's number
    is the nearest double, and how [toString(16)] writes it is left to
    the engine; the embedding keeps the exact integer there, and what is
    proved about the digits of a channel is stated for values below
    256. *)
Definition parseIntDigits (s : string) : N :=
  fold_left (fun acc c => (acc * 10 + (code c - 48))%N) (list_ascii_of_string s) 0%N.

(** [n.toString()] and [n.toString(16)] of a non-negative integer. *)
Definition decimal (n : N) : string :=
  DecimalString.NilEmpty.string_of_uint (N.to_uint n).

Definition toString16 (n : N) : string :=
  HexadecimalString.NilEmpty.string_of_uint (N.to_hex_uint n).

(** [s.padStart(2, '0')]. *)
Definition padStart2 (s : string) : string :=
  match s with
  | EmptyString => "00"
  | String c EmptyString => String "0" s
  | _ => s
  end.

(** [Math.round]: the nearest integer, halves towards plus infinity. *)
Definition round (v : Qc) : Z := Qfloor (this v + (1 # 2)).

End Js.

(* ===================================================================== *)
(** ** JavaScript [Map] and [Set]: insertion-ordered *)
(* ===================================================================== *)

Module JsMap.

(** A [Map] keeps its entries in the order of first insertion. *)
Definition t (K V : Type) : Type := list (K * V).

Section Ordered.
Context {K V : Type} `{EqDecision K}.

Fixpoint has (k : K) (m : list (K * V)) : bool :=
  match m with
  | [] => false
  | (k', _) :: r => if decide (k' = k) then true else has k r
  end.

Fixpoint get (k : K) (m : list (K * V)) : option V :=
  match m with
  | [] => None
  | (k', v) :: r => if decide (k' = k) then Some v else get k r
  end.

(** [m.set(k, v)]: an existing key keeps its place. *)
Fixpoint set (k : K) (v : V) (m : list (K * V)) : list (K * V) :=
  match m with
  | [] => [(k, v)]
  | (k', v') :: r => if decide (k' = k) then (k', v) :: r else (k', v') :: set k v r
  end.

(** A mutation of the object stored under [k], as in
    [m.get(k).push(x)]. *)
Fixpoint update (k : K) (f : V -> V) (m : list (K * V)) : list (K * V) :=
  match m with
  | [] => []
  | (k', v) :: r => if decide (k' = k) then (k', f v) :: r else (k', v) :: update k f r
  end.

End Ordered.

(** [set.add(x)] on an insertion-ordered [Set]. *)
Definition add {A} `{EqDecision A} (x : A) (l : list A) : list A :=
  if decide (x ∈ l) then l else (l ++ [x])%list.

(** [arr.sort(cmp)]: stable.  The elements are inserted from the right,
    each one before the first element it does not exceed, so that equal
    elements keep their order. *)
Fixpoint insertBy {A} (cmp : A -> A -> Z) (x : A) (l : list A) : list A :=
  match l with
  | [] => [x]
  | y :: r => if (cmp x y <=? 0)%Z then x :: y :: r else y :: insertBy cmp x r
  end.

Definition sortBy {A} (cmp : A -> A -> Z) (l : list A) : list A :=
  foldr (insertBy cmp) [] l.

End JsMap.

(* ===================================================================== *)
(** ** The colour pattern shared by both inspectors *)
(* ===================================================================== *)

Module RgbRegex.

(** [rgb.match(/rgba?\((\d+),\s*(\d+),\s*(\d+)/)].

    The pattern is tried at every start position from the left.  Each of
    its quantified pieces ([a?], [\d+], [\s*]) is followed by a character
    the piece itself cannot match, so the greedy choice is the only one
    that can succeed and the matcher never has to back up. *)

(** A literal piece of the pattern: the rest of [s] after [pre]. *)
Fixpoint lit (pre s : string) : option string :=
  match pre, s with
  | EmptyString, _ => Some s
  | String a pre', String b s' => if Ascii.eqb a b then lit pre' s' else None
  | String _ _, EmptyString => None
  end.

(** The longest run of digits at the start of [s], and what follows. *)
Fixpoint digits (s : string) : string * string :=
  match s with
  | EmptyString => (EmptyString, EmptyString)
  | String c t =>
      if Js.isDigit c then let (d, r) := digits t in (String c d, r)
      else (EmptyString, s)
  end.

(** [(\d+)]: at least one digit. *)
Definition digits1 (s : string) : option (string * string) :=
  let (d, r) := digits s in if Js.truthy d then Some (d, r) else None.

(** [\s*]. *)
Fixpoint spaces (s : string) : string :=
  match s with
  | EmptyString => EmptyString
  | String c t => if Js.isWhiteSpace c then spaces t else s
  end.

(** [a?]. *)
Definition optA (s : string) : string :=
  match s with
  | String "a" t => t
  | _ => s
  end.

(** The pattern anchored at the start of [s]; the three captures. *)
Definition matchAt (s : string) : option (string * string * string) :=
  s1 ← lit "rgb" s;
  s2 ← lit "(" (optA s1);
  '(r, s3) ← digits1 s2;
  s4 ← lit "," s3;
  '(g, s5) ← digits1 (spaces s4);
  s6 ← lit "," s5;
  '(b, _) ← digits1 (spaces s6);
  Some (r, g, b).

(** The leftmost match. *)
Fixpoint exec (s : string) : option (string * string * string) :=
  match matchAt s with
  | Some m => Some m
  | None =>
      match s with
      | EmptyString => None
      | String _ t => exec t
      end
  end.

End RgbRegex.

(* ===================================================================== *)
(** ** The patterns the inspector runs over an inline style *)
(* ===================================================================== *)

Module StyleRegex.

(** A pattern without [^] is tried at every start position from the
    left. *)
Fixpoint search {A} (matchAt : string -> option A) (s : string) : option A :=
  match matchAt s with
  | Some a => Some a
  | None =>
      match s with
      | EmptyString => None
      | String _ t => search matchAt t
      end
  end.

(** The longest run of characters other than [stop], and what follows. *)
Fixpoint runUntil (stop : ascii) (s : string) : string * string :=
  match s with
  | EmptyString => (EmptyString, EmptyString)
  | String c t =>
      if Ascii.eqb c stop then (EmptyString, s)
      else let (r, rest) := runUntil stop t in (String c r, rest)
  end.

(** The last white-space character of the white space that starts [s]. *)
Fixpoint lastLeadingSpace (s : string) : option ascii :=
  match s with
  | String c t =>
      if Js.isWhiteSpace c
      then match lastLeadingSpace t with
           | Some d => Some d
           | None => Some c
           end
      else None
  | EmptyString => None
  end.

(** [new RegExp(property + ':\\s*var\\(([^)]+)\\)')] anchored at the start
    of [s]: the name inside [var(...)].  After the greedy white space
    only [v] can follow and after the greedy name only the closing
    parenthesis, so nothing is gained by backing up. *)
Definition varAt (property s : string) : option string :=
  s1 ← RgbRegex.lit (property ++ ":") s;
  s2 ← RgbRegex.lit "var(" (RgbRegex.spaces s1);
  let (name, rest) := runUntil ")" s2 in
  if Js.truthy name then _ ← RgbRegex.lit ")" rest; Some name else None.

(** [/--ratio-percent:\s*([^;]+)/] anchored at the start of [s].  When
    nothing but a semicolon or the end follows the white space, the
    matcher backs up and the capture is the last white-space
    character. *)
Definition ratioAt (s : string) : option string :=
  s1 ← RgbRegex.lit "--ratio-percent:" s;
  let (value, _) := runUntil ";" (RgbRegex.spaces s1) in
  if Js.truthy value then Some value
  else c ← lastLeadingSpace s1; Some (String c EmptyString).

End StyleRegex.

(* ===================================================================== *)
(** ** Browser effects of the copy operations *)
(* ===================================================================== *)

Module Browser.

(** What a copy operation does to the page and the clipboard, in order.
    Creating, appending, focusing, selecting and removing the text area
    are DOM calls that do not throw on a document with a body; only the
    clipboard call and [execCommand] can fail. *)
Inductive Event :=
| ClipboardWriteText (text : string)   (* navigator.clipboard.writeText(text) *)
| CreateTextarea (value : string)      (* createElement('textarea'), value, style *)
| AppendToBody                         (* document.body.appendChild(textarea) *)
| FocusTextarea                        (* textarea.focus() *)
| SelectTextarea                       (* textarea.select() *)
| ExecCommandCopy                      (* document.execCommand('copy') *)
| RemoveFromBody                       (* document.body.removeChild(textarea) *)
| ConsoleWarn
| ConsoleError.

(** How the platform answers.  [navigator.clipboard] is missing in old
    browsers and insecure contexts; when present, [writeText] returns a
    promise that resolves or rejects.  [execCommand] returns a boolean or
    throws. *)
Inductive ClipboardApi := ApiMissing | ApiRejects | ApiResolves.
Inductive ExecCommand := ExecThrows | ExecReturns (ok : bool).

Record Platform := { clipboard : ClipboardApi; execCommand : ExecCommand }.

(** A call either returns a value or throws; for an [async] function a
    throw is a rejected promise. *)
Inductive Outcome (A : Type) := Returned (a : A) | Thrown.
Arguments Returned {A} a.
Arguments Thrown {A}.

(** Computations read the platform and extend the trace of events. *)
Definition M (A : Type) : Type := Platform -> list Event -> list Event * Outcome A.

Definition ret {A} (a : A) : M A := fun _ tr => (tr, Returned a).

Definition bind {A B} (m : M A) (k : A -> M B) : M B :=
  fun pf tr =>
    match m pf tr with
    | (tr', Returned a) => k a pf tr'
    | (tr', Thrown) => (tr', Thrown)
    end.

Definition throw {A} : M A := fun _ tr => (tr, Thrown).

Definition emit (e : Event) : M unit := fun _ tr => ((tr ++ [e])%list, Returned tt).

(** [try { body } catch (e) { handler }]. *)
Definition tryCatch {A} (body handler : M A) : M A :=
  fun pf tr =>
    match body pf tr with
    | (tr', Returned a) => (tr', Returned a)
    | (tr', Thrown) => handler pf tr'
    end.

Notation "x <- m ;; k" := (bind m (fun x => k))
  (at level 100, m at next level, right associativity).
Notation "m ;; k" := (bind m (fun _ => k))
  (at level 100, right associativity).

(** [await navigator.clipboard.writeText(text)]: reading [writeText] of a
    missing [navigator.clipboard] throws before any call is made; a
    rejected promise throws at the [await]. *)
Definition clipboardWriteText (text : string) : M unit :=
  fun pf tr =>
    match clipboard pf with
    | ApiMissing => (tr, Thrown)
    | ApiRejects => ((tr ++ [ClipboardWriteText text])%list, Thrown)
    | ApiResolves => ((tr ++ [ClipboardWriteText text])%list, Returned tt)
    end.

(** [navigator.clipboard && navigator.clipboard.writeText]. *)
Definition clipboardAvailable : M bool :=
  fun pf tr =>
    (tr, Returned match clipboard pf with ApiMissing => false | _ => true end).

(** [document.execCommand('copy')]. *)
Definition execCopy : M bool :=
  fun pf tr =>
    match execCommand pf with
    | ExecThrows => ((tr ++ [ExecCommandCopy])%list, Thrown)
    | ExecReturns ok => ((tr ++ [ExecCommandCopy])%list, Returned ok)
    end.

Definition run {A} (m : M A) (pf : Platform) : list Event * Outcome A := m pf [].

End Browser.

(* ===================================================================== *)
(** ** The section copy tool (first script of section-debug.js) *)
(* ===================================================================== *)

Module SectionCopy.
Import Browser.

Definition copyToClipboard (text : string) : M bool :=
  tryCatch
    (clipboardWriteText text ;;
     ret true)
    (emit (CreateTextarea text) ;;
     emit AppendToBody ;;
     emit SelectTextarea ;;
     tryCatch
       (_ <- execCopy ;;
        emit RemoveFromBody ;;
        ret true)
       (emit RemoveFromBody ;;
        emit ConsoleError ;;
        ret false)).

End SectionCopy.

(* ===================================================================== *)
(** ** The section component inspector (second script of section-debug.js) *)
(* ===================================================================== *)

Module SectionInspect.

(** *** Colour normalisation *)

Definition rgbToHex (rgb : string) : string :=
  if negb (Js.truthy rgb) || (rgb =? "transparent") || (rgb =? "rgba(0, 0, 0, 0)")
  then "transparent"
  else
    match RgbRegex.exec rgb with
    | None => rgb
    | Some (m1, m2, m3) =>
        let r := Js.padStart2 (Js.toString16 (Js.parseIntDigits m1)) in
        let g := Js.padStart2 (Js.toString16 (Js.parseIntDigits m2)) in
        let b := Js.padStart2 (Js.toString16 (Js.parseIntDigits m3)) in
        Js.toUpperCase ("#" ++ r ++ g ++ b)
    end.

(** *** File hints *)

Record Pattern := { regex : string; file : string }.

(** The table of [guessFileLocation]; [regex] holds the literal prefix
    of each [/^prefix/]. *)
Definition patterns : list Pattern :=
  [ {| regex := "testimonial"; file := "sections/testimonials.liquid" |};
    {| regex := "header2"; file := "sections/header2.liquid" |};
    {| regex := "footer"; file := "sections/footer.liquid" |};
    {| regex := "features-bar"; file := "sections/features-bar.liquid" |};
    {| regex := "features-icons"; file := "sections/features-icons.liquid" |};
    {| regex := "product-card"; file := "snippets/product-card.liquid" |};
    {| regex := "product-grid"; file := "sections/product-grid.liquid" |};
    {| regex := "banner"; file := "sections/banner-image-hero.liquid" |};
    {| regex := "video-hero"; file := "sections/hero-video.liquid" |};
    {| regex := "wholesale"; file := "sections/wholesale-*.liquid" |};
    {| regex := "contact"; file := "sections/contact-form.liquid" |};
    {| regex := "cta-banner"; file := "sections/cta-banner.liquid" |};
    {| regex := "brand"; file := "sections/brands-grid.liquid" |};
    {| regex := "card"; file := "snippets/card-*.liquid" |};
    {| regex := "button"; file := "assets/base.css" |};
    {| regex := "rte"; file := "snippets/article-*.liquid" |} ].

Definition test (p : Pattern) (className : string) : bool :=
  Js.startsWith className (regex p).

Definition defaultFile : string := "assets/theme-toggle.css (dark mode overrides)".

(** The [for (const pattern of patterns)] loop: the file of the first
    pattern that matches, if any. *)
Fixpoint firstMatch (ps : list Pattern) (className : string) : option string :=
  match ps with
  | [] => None
  | p :: ps' => if test p className then Some (file p) else firstMatch ps' className
  end.

Definition guessFileLocation (className sectionType : option string) : option string :=
  match className with
  | None => None
  | Some c =>
      if negb (Js.truthy c) then None
      else match firstMatch patterns c with
           | Some f => Some f
           | None =>
               match sectionType with
               | Some t => if Js.truthy t then Some ("sections/" ++ t ++ ".liquid")
                           else Some defaultFile
               | None => Some defaultFile
               end
           end
  end.

(** *** The document as the inspector sees it *)

(** One element with what the inspector reads from it.  [classAttr] is
    the [class] attribute (empty when absent); [isSvg] tells that
    [el.className] is not a string.  [computed p] is the computed value
    of the CSS property [p].  [src], [naturalWidth], [naturalHeight] and
    [complete] are the properties of an [img]. *)
Record Element := {
  tagName : string;
  elId : string;
  classAttr : string;
  isSvg : bool;
  styleAttr : option string;
  offsetParentNull : bool;
  computed : string -> string;
  src : string;
  naturalWidth : N;
  naturalHeight : N;
  complete : bool
}.

(** The induction principle of a tree with a list of children is
    stated by hand further down. *)
#[local] Unset Elimination Schemes.
Inductive Node := El (e : Element) (kids : list Node).
#[local] Set Elimination Schemes.

Definition element (n : Node) : Element := match n with El e _ => e end.
Definition children (n : Node) : list Node := match n with El _ kids => kids end.

(** An element below the section that is scanned: its place in
    document order, which stands for the identity of the DOM object, and
    its ancestors, parent first. *)
Record Target := { uid : nat; el : Element; ancestors : list Element }.

Fixpoint walk (anc : list Element) (n : Node) : list (Element * list Element) :=
  match n with
  | El e kids => (e, anc) :: flat_map (walk (e :: anc)) kids
  end.

Definition number (l : list (Element * list Element)) : list Target :=
  map (fun p => {| uid := fst p; el := fst (snd p); ancestors := snd (snd p) |})
      (combine (seq 0 (length l)) l).

(** The descendants of [section] in document order; [outer] are the
    ancestors of the section itself. *)
Definition descendants (outer : list Element) (section : Node) : list Target :=
  number (flat_map (walk (element section :: outer)) (children section)).

Definition hasClass (e : Element) (c : string) : bool :=
  existsb (String.eqb c) (Js.classTokens (classAttr e)).

(** [el.closest('.' + c)] and [el.closest('#' + i)] find something. *)
Definition closestClass (c : string) (t : Target) : bool :=
  hasClass (el t) c || existsb (fun a => hasClass a c) (ancestors t).

Definition closestId (i : string) (t : Target) : bool :=
  (elId (el t) =? i) || existsb (fun a => elId a =? i) (ancestors t).

(** The three kinds of selector in the list of the scan: a tag name,
    a class, and [[class*="part"]]. *)
Inductive Selector :=
| TagSel (name : string)
| ClassSel (name : string)
| ClassContains (part : string).

Definition selectors : list Selector :=
  [ TagSel "h1"; TagSel "h2"; TagSel "h3"; TagSel "h4"; TagSel "h5"; TagSel "h6";
    TagSel "p"; TagSel "blockquote"; ClassSel "rte";
    ClassContains "card"; ClassContains "item"; ClassContains "block";
    ClassSel "media"; ClassContains "media"; TagSel "img"; TagSel "picture"; TagSel "video";
    ClassContains "badge"; ClassContains "tag"; ClassContains "pill";
    ClassContains "button"; ClassContains "btn";
    ClassContains "icon"; ClassContains "star";
    ClassContains "nav"; ClassContains "dot";
    ClassContains "customer"; ClassContains "service";
    ClassContains "quote"; ClassContains "text";
    ClassContains "heading"; ClassContains "title"; ClassContains "description";
    TagSel "input"; TagSel "textarea"; TagSel "select"; TagSel "label" ].

(** A tag selector matches the lower-cased tag name; the tag name of an
    HTML element is in upper case. *)
Definition matchesSelector (sel : Selector) (e : Element) : bool :=
  match sel with
  | TagSel name => Js.toLowerCase (tagName e) =? name
  | ClassSel name => hasClass e name
  | ClassContains part => Js.includes (classAttr e) part
  end.

(** [section.querySelectorAll(selector)]. *)
Definition querySelectorAll (targets : list Target) (sel : Selector) : list Target :=
  List.filter (fun t => matchesSelector sel (el t)) targets.

Definition DEBUG_MODAL_ID : string := "section-debug-modal".

(** *** Selectors and class names for display *)

Definition getElementSelector (e : Element) : string :=
  let selector := Js.toLowerCase (tagName e) in
  let selector := if Js.truthy (elId e) then selector ++ "#" ++ elId e else selector in
  if Js.truthy (classAttr e) && negb (isSvg e) then
    let classes :=
      firstn 3 (List.filter (fun c => Js.truthy (Js.trim c) && negb (Js.startsWith c "shopify"))
                            (Js.split " " (classAttr e))) in
    match classes with
    | [] => selector
    | _ => selector ++ "." ++ Js.join "." classes
    end
  else selector.

Definition getPrimaryClass (e : Element) : option string :=
  if negb (Js.truthy (classAttr e)) || isSvg e then None
  else
    head (List.filter (fun c => Js.truthy (Js.trim c)
                                && negb (Js.startsWith c "shopify")
                                && negb (Js.startsWith c "color-"))
                      (Js.split " " (classAttr e))).

Definition getCSSVariable (e : Element) (property : string) : option string :=
  let inlineStyle := default "" (styleAttr e) in
  StyleRegex.search (StyleRegex.varAt property) inlineStyle.

(** *** The per-section scan *)

(** The first entry of a report. *)
Record SectionFact := {
  s_element : string;
  s_selector : string;
  s_className : option string;
  s_textColor : string;
  s_bgColor : string;
  s_fileHint : option string;
  s_isSection : bool
}.

(** An entry for an element of the section. *)
Record ElementFact := {
  f_element : string;
  f_selector : string;
  f_className : string;
  f_textColor : string;
  f_textVar : option string;
  f_bgColor : string;
  f_bgVar : option string;
  f_borderColor : option string;
  f_fileHint : option string;
  f_fontSize : string;
  f_fontWeight : string;
  f_display : string;
  f_position : option string;
  f_width : string;
  f_height : string;
  f_aspectRatio : option string;
  f_objectFit : option string;
  f_paddingBottom : option string;
  f_ratioVar : option string;
  f_visibility : option string;
  f_opacity : option string;
  f_isHidden : bool;
  f_imgSrc : option string;
  f_imgNaturalSize : option string;
  f_imgLoaded : option bool
}.

Inductive Component := SectionContainer (s : SectionFact) | Descendant (f : ElementFact).

(** [v !== skip ? v : null]. *)
Definition unless (skip v : string) : option string :=
  if v =? skip then None else Some v.

Definition isImage (e : Element) : bool := tagName e =? "IMG".

(** [isMediaElement] of the scan. *)
Definition isMediaElement (t : Target) : bool :=
  isImage (el t) || hasClass (el t) "media" || closestClass "media" t.

(** [isHidden] of the scan. *)
Definition isHidden (e : Element) : bool :=
  offsetParentNull e && negb (tagName e =? "BODY").

(** The class name under which an element is reported, if any. *)
Definition reportClass (e : Element) : option string :=
  match getPrimaryClass e with
  | Some c => Some c
  | None => if isImage e then Some "img" else None
  end.

(** The multiplication sign U+00D7 between the natural width and
    height. *)
Definition times : string := String (ascii_of_N 215) EmptyString.

(** The object pushed for an element that is reported. *)
Definition elementFact (sectionType : option string) (t : Target) (className : string) : ElementFact :=
  let e := el t in
  let styles := computed e in
  let inlineStyle := default "" (styleAttr e) in
  let ratioVar := StyleRegex.search StyleRegex.ratioAt inlineStyle in
  {| f_element := Js.toLowerCase (tagName e);
     f_selector := getElementSelector e;
     f_className := className;
     f_textColor := rgbToHex (styles "color");
     f_textVar := getCSSVariable e "color";
     f_bgColor := rgbToHex (styles "background-color");
     f_bgVar := getCSSVariable e "background-color";
     f_borderColor := unless "transparent" (rgbToHex (styles "border-color"));
     f_fileHint := guessFileLocation (Some className) sectionType;
     f_fontSize := styles "font-size";
     f_fontWeight := styles "font-weight";
     f_display := styles "display";
     f_position := unless "static" (styles "position");
     f_width := styles "width";
     f_height := styles "height";
     f_aspectRatio := unless "auto" (styles "aspect-ratio");
     f_objectFit := if isImage e then unless "fill" (styles "object-fit") else None;
     f_paddingBottom := unless "0px" (styles "padding-bottom");
     f_ratioVar := option_map Js.trim ratioVar;
     f_visibility := unless "visible" (styles "visibility");
     f_opacity := unless "1" (styles "opacity");
     f_isHidden := isHidden e;
     f_imgSrc :=
       if isImage e then
         Some (if Js.truthy (src e)
               then (if (80 <? String.length (src e))%nat
                     then Js.substring0 80 (src e) ++ "..." else src e)
               else "NO SRC")
       else None;
     f_imgNaturalSize :=
       if isImage e then
         Some (if (negb (naturalWidth e =? 0) && negb (naturalHeight e =? 0))%N
               then Js.decimal (naturalWidth e) ++ times ++ Js.decimal (naturalHeight e)
               else "not loaded")
       else None;
     f_imgLoaded :=
       if isImage e then Some (complete e && (0 <? naturalHeight e)%N) else None |}.

(** The state of the scan: the [seen] set, which holds elements (by
    identity) and class names, and the entries pushed so far for the
    elements of the section, each with the element it was made for. *)
Record ScanState := {
  seenElements : gset nat;
  seenClasses : gset string;
  pushed : list (Target * ElementFact)
}.

(** The body of [elements.forEach]. *)
Definition visit (sectionType : option string) (st : ScanState) (t : Target) : ScanState :=
  if decide (uid t ∈ seenElements st) then st
  else if closestId DEBUG_MODAL_ID t then st
  else if isHidden (el t) && negb (isMediaElement t) then st
  else
    match reportClass (el t) with
    | None => st
    | Some className =>
        if bool_decide (className ∈ seenClasses st) && negb (isImage (el t)) then st
        else
          let seenC := {[className]} ∪ seenClasses st in
          let seenE := {[uid t]} ∪ seenElements st in
          let fact := elementFact sectionType t className in
          if negb (f_textColor fact =? "transparent")
             || negb (f_bgColor fact =? "transparent")
             || isImage (el t) || isMediaElement t
          then {| seenElements := seenE; seenClasses := seenC;
                  pushed := (pushed st ++ [(t, fact)])%list |}
          else {| seenElements := seenE; seenClasses := seenC; pushed := pushed st |}
    end.

(** The body of [selectors.forEach].  Every selector of the list is
    well formed, so the [catch] around it is never entered. *)
Definition scanSelector (sectionType : option string) (targets : list Target)
  (st : ScanState) (sel : Selector) : ScanState :=
  fold_left (visit sectionType) (querySelectorAll targets sel) st.

Definition emptyScan : ScanState :=
  {| seenElements := ∅; seenClasses := ∅; pushed := [] |}.

(** The entries for the elements of the section, in the order they
    are pushed. *)
Definition scanTrace (sectionType : option string) (outer : list Element) (section : Node)
  : list (Target * ElementFact) :=
  pushed (fold_left (scanSelector sectionType (descendants outer section)) selectors emptyScan).

Definition sectionFact (sectionType : option string) (section : Node) : SectionFact :=
  let e := element section in
  {| s_element := "Section Container";
     s_selector := getElementSelector e;
     s_className := getPrimaryClass e;
     s_textColor := rgbToHex (computed e "color");
     s_bgColor := rgbToHex (computed e "background-color");
     s_fileHint := guessFileLocation (getPrimaryClass e) sectionType;
     s_isSection := true |}.

(** [scanSectionComponents(section)]; [sectionType] is what
    [getSectionType(section)] returns. *)
Definition scanSectionComponents (sectionType : option string) (outer : list Element)
  (section : Node) : list Component :=
  SectionContainer (sectionFact sectionType section)
  :: map (fun p => Descendant (snd p)) (scanTrace sectionType outer section).

(** *** Instrumenting the sections *)

(** A place in the document: the child indices from the root. *)
Definition Path : Type := list nat.

(** [n.querySelector(sel)] finds something: a proper descendant of [n]
    satisfies [P]. *)
Fixpoint hasDescendant (P : Element -> bool) (n : Node) : bool :=
  match n with
  | El _ kids => existsb (fun k => P (element k) || hasDescendant P k) kids
  end.

(** [document.querySelectorAll(sel)]: the places of the elements that
    satisfy [P], in document order. *)
Fixpoint select (P : Element -> bool) (n : Node) : list Path :=
  match n with
  | El e kids =>
      ((if P e then [[]] else [])
       ++ (fix below (i : nat) (ks : list Node) : list Path :=
             match ks with
             | [] => []
             | k :: ks' => (map (cons i) (select P k) ++ below (S i) ks')%list
             end) 0%nat kids)%list
  end.

Fixpoint alterAt {A} (i : nat) (g : A -> A) (l : list A) : list A :=
  match l, i with
  | [], _ => []
  | x :: r, O => g x :: r
  | x :: r, S j => x :: alterAt j g r
  end.

(** The document after the element at place [p] has been changed by
    [f]. *)
Fixpoint updateAt (f : Node -> Node) (p : Path) (n : Node) : Node :=
  match p with
  | [] => f n
  | i :: p' =>
      match n with
      | El e kids => El e (alterAt i (updateAt f p') kids)
      end
  end.

Definition isSection (e : Element) : bool := hasClass e "shopify-section".
Definition isDebugButton (e : Element) : bool := hasClass e "section-debug-btn".

Section Init.

(** What the browser makes of an element when the script sets
    [section.style.position = 'relative'], and the button subtree that
    [createDebugButton(section)] builds.  Both scripts of
    section-debug.js have this [init]; they differ in the button they
    build. *)
Variable positionRelative : Element -> Element.
Variable createDebugButton : Node -> Node.

(** The body of [sections.forEach], as a change of the section. *)
Definition instrument (section : Node) : Node :=
  if hasDescendant isDebugButton section then section
  else
    let e := element section in
    let e' := if computed e "position" =? "static" then positionRelative e else e in
    El e' (children section ++ [createDebugButton (El e' (children section))])%list.

(** The list of sections is taken once; the sections are then
    instrumented one after the other in the current document.  Buttons
    are appended after the existing children, so the places of the
    sections stay valid. *)
Definition init (document : Node) : Node :=
  fold_left (fun doc p => updateAt instrument p doc) (select isSection document) document.

End Init.

(** The controls a section container holds: its children that are
    debug buttons. *)
Definition controls (n : Node) : nat :=
  length (List.filter (fun k => isDebugButton (element k)) (children n)).

(** Every section container of the document holds exactly one
    control. *)
Fixpoint oneControlPerSection (n : Node) : bool :=
  match n with
  | El e kids =>
      (if isSection e then (controls (El e kids) =? 1)%nat else true)
      && forallb oneControlPerSection kids
  end.

(** No element of the document is a debug button. *)
Fixpoint noDebugButton (n : Node) : bool :=
  match n with
  | El e kids => negb (isDebugButton e) && forallb noDebugButton kids
  end.

(** *** Copying the report *)

Section Copy.
Import Browser.

Definition fallbackCopyText (text : string) : M bool :=
  emit (CreateTextarea text) ;;
  emit AppendToBody ;;
  emit FocusTextarea ;;
  emit SelectTextarea ;;
  success <- tryCatch execCopy (emit ConsoleError ;; ret false) ;;
  emit RemoveFromBody ;;
  ret success.

(** The part of the modal's [copyToClipboard] that computes [success]
    for the report [text]; the function then shows the copied or the
    failed state of the button and returns nothing. *)
Definition copyReport (text : string) : M bool :=
  available <- clipboardAvailable ;;
  if available then
    tryCatch
      (clipboardWriteText text ;;
       ret true)
      (emit ConsoleWarn ;;
       fallbackCopyText text)
  else fallbackCopyText text.

End Copy.

End SectionInspect.

(* ===================================================================== *)
(** ** The style debug modal (style-debug.js) *)
(* ===================================================================== *)

Module StyleDebug.

(** *** Colour normalisation; [null] for the transparent inputs *)

Definition hex2 (x : N) : string :=
  let hex := Js.toString16 x in
  if (String.length hex =? 1)%nat then "0" ++ hex else hex.

Definition rgbToHex (rgb : string) : option string :=
  if negb (Js.truthy rgb) || (rgb =? "transparent") || (rgb =? "rgba(0, 0, 0, 0)")
  then None
  else
    match RgbRegex.exec rgb with
    | None => Some rgb
    | Some (m1, m2, m3) =>
        let r := Js.parseIntDigits m1 in
        let g := Js.parseIntDigits m2 in
        let b := Js.parseIntDigits m3 in
        Some ("#" ++ Js.toUpperCase (Js.join "" (map hex2 [r; g; b])))
    end.

(** [EXPECTED.spacingValues]. *)
Definition spacingValues : list Z :=
  [0; 4; 8; 12; 16; 20; 24; 28; 32; 40; 48; 56; 64; 80; 96; 112; 128]%Z.

Definition isConsistentSpacing (value : Qc) : bool :=
  let rounded := Js.round value in
  existsb (fun expected => (Z.abs (rounded - expected) <=? 2)%Z) spacingValues.

(** *** The page as the style scans see it *)

(** One element below [body], with what the scans read from it.
    [className] is [None] when [el.className] is not a string (SVG
    elements).  [ancestorIds] are the [id]s of the ancestors, parent
    first.  [computed p] is the computed value of the CSS property [p];
    [fontSizePx], [fontWeightInt] and [spacingPx p] are what [parseFloat]
    and [parseInt] read from the computed font size, font weight and
    spacing property [p] ([None] for NaN).  [inlineProp p] is
    [el.style[p]], [matches sel] is [el.matches(sel)], [None] when the
    call throws. *)
Record El := {
  tagName : string;
  elId : string;
  className : option string;
  ancestorIds : list string;
  offsetParentNull : bool;
  computed : string -> string;
  fontSizePx : option Qc;
  fontWeightInt : option Z;
  spacingPx : string -> option Qc;
  styleAttr : option string;
  inlineProp : string -> string;
  innerText : string;
  matches : string -> option bool
}.

Definition DEBUG_MODAL_ID : string := "style-debug-modal".

(** [el.closest('#' + DEBUG_MODAL_ID)] finds something. *)
Definition closestModal (el : El) : bool :=
  (elId el =? DEBUG_MODAL_ID) || existsb (String.eqb DEBUG_MODAL_ID) (ancestorIds el).

(** [el.offsetParent === null && el.tagName !== 'BODY']. *)
Definition hidden (el : El) : bool :=
  offsetParentNull el && negb (tagName el =? "BODY").

Definition getElementSelector (el : El) : string :=
  let selector := Js.toLowerCase (tagName el) in
  let selector := if Js.truthy (elId el) then selector ++ "#" ++ elId el else selector in
  match className el with
  | Some cls =>
      if Js.truthy cls then
        let classes :=
          firstn 2 (filter (fun c => Js.truthy (Js.trim c) = true) (Js.split " " cls)) in
        match classes with
        | [] => selector
        | _ => selector ++ "." ++ Js.join "." classes
        end
      else selector
  | None => selector
  end.

(** [document.querySelectorAll('body *:not(tag)...')]: the elements of
    the page whose tag is none of [excluded], in document order. *)
Definition selectAllBut (excluded : list string) (page : list El) : list El :=
  filter (fun el => existsb (String.eqb (Js.toLowerCase (tagName el))) excluded = false) page.

(** *** Fonts and theme colours *)

Definition normalizeFontFamily (fontFamily : string) : string :=
  Js.trim (Js.removeQuotes (Js.toLowerCase fontFamily)).

Definition systemFonts : list string :=
  [ "system-ui"; "-apple-system"; "blinkmacsystemfont"; "segoe ui";
    "roboto"; "helvetica neue"; "arial"; "sans-serif"; "noto sans";
    "liberation sans"; "helvetica" ].

Definition isExpectedFontFamily (fontFamily : string) : bool :=
  let normalized := normalizeFontFamily fontFamily in
  existsb (fun sf => Js.includes normalized sf) systemFonts.

(** [Object.values] of [EXPECTED.lightColors] and [EXPECTED.darkColors]. *)
Definition lightColors : list string :=
  [ "#F5F7FA"; "#FFFFFF"; "#2B2C2D"; "#005496"; "#DD6727"; "#28A745"; "#E1E5EA" ].

Definition darkColors : list string :=
  [ "#0F172A"; "#1E293B"; "#F1F5F9"; "#60A5FA"; "#F28C38"; "#39B47E"; "#2D3A50" ].

Definition themeColors (isDark : bool) : list string :=
  if isDark then darkColors else lightColors.

Definition isThemeColor (isDark : bool) (hexColor : option string) : bool :=
  match hexColor with
  | None => true
  | Some h =>
      if negb (Js.truthy h) then true
      else
        let allowedColors :=
          (map Js.toUpperCase (themeColors isDark)
           ++ [ "#FFFFFF"; "#000000"; "#FFF"; "#000";
                "TRANSPARENT"; "INHERIT"; "CURRENTCOLOR" ])%list in
        existsb (String.eqb (Js.toUpperCase h)) allowedColors
  end.

(** *** The full-page style scan *)

Record ColorData := { cd_isTheme : bool; cd_elements : list string; cd_isBg : bool }.

Record SpacingData := {
  sd_elements : list string;
  sd_properties : list string;
  sd_isConsistent : bool
}.

(** The five [Map]s of [scanStyles].  Numeric keys stand for the key
    strings the script builds from them ([fontSize + 'px'],
    [fontWeight.toString()], [rounded + 'px']); different numbers give
    different strings. *)
Record Tables := {
  seenFontFamilies : JsMap.t string (list string);
  seenFontSizes : JsMap.t Qc (list string);
  seenFontWeights : JsMap.t Z (list string);
  seenColors : JsMap.t string ColorData;
  seenSpacing : JsMap.t Z SpacingData
}.

Definition emptyTables : Tables :=
  {| seenFontFamilies := []; seenFontSizes := []; seenFontWeights := [];
     seenColors := []; seenSpacing := [] |}.

(** [if (!m.has(key)) m.set(key, init)]. *)
Definition ensure {K V} `{EqDecision K} (key : K) (init : V) (m : JsMap.t K V) : JsMap.t K V :=
  if JsMap.has key m then m else JsMap.set key init m.

(** [if (els.length < 3) els.push(selector)]. *)
Definition pushExample (selector : string) (els : list string) : list string :=
  if (length els <? 3)%nat then (els ++ [selector])%list else els.

(** [parseSpacingValue(styles[prop])]. *)
Definition parseSpacingValue (value : string) (num : option Qc) : option Qc :=
  if negb (Js.truthy value) || (value =? "auto") || (value =? "normal") then None
  else match num with
       | None => None
       | Some n => if decide (n = 0%Qc) then None else Some n
       end.

(** The labels of [spacingProps]; [styles[prop]] is the computed value
    of the property the label names. *)
Definition spacingProps : list string :=
  [ "margin-top"; "margin-bottom"; "margin-left"; "margin-right";
    "padding-top"; "padding-bottom"; "padding-left"; "padding-right";
    "gap"; "row-gap"; "column-gap" ].

Definition scanFontFamily (selector : string) (el : El) (m : JsMap.t string (list string)) :=
  let fontFamily := computed el "font-family" in
  if Js.truthy fontFamily && negb (isExpectedFontFamily fontFamily) then
    let key := fontFamily in
    JsMap.update key (fun els => (els ++ [selector])%list) (ensure key [] m)
  else m.

Definition scanFontSize (selector : string) (el : El) (m : JsMap.t Qc (list string)) :=
  match fontSizePx el with
  | Some fontSize =>
      if decide (fontSize = 0%Qc) then m
      else JsMap.update fontSize (pushExample selector) (ensure fontSize [] m)
  | None => m
  end.

Definition scanFontWeight (selector : string) (el : El) (m : JsMap.t Z (list string)) :=
  match fontWeightInt el with
  | Some fontWeight =>
      if decide (fontWeight = 0%Z) then m
      else JsMap.update fontWeight (pushExample selector) (ensure fontWeight [] m)
  | None => m
  end.

Definition pushColorExample (selector : string) (d : ColorData) : ColorData :=
  {| cd_isTheme := cd_isTheme d;
     cd_elements := pushExample selector (cd_elements d);
     cd_isBg := cd_isBg d |}.

Definition scanTextColor (isDark : bool) (selector : string) (el : El)
  (m : JsMap.t string ColorData) :=
  match rgbToHex (computed el "color") with
  | Some color =>
      if Js.truthy color && negb (color =? "#000000") && negb (color =? "#FFFFFF") then
        let key := color in
        JsMap.update key (pushColorExample selector)
          (ensure key {| cd_isTheme := isThemeColor isDark (Some color);
                         cd_elements := []; cd_isBg := false |} m)
      else m
  | None => m
  end.

Definition scanBackground (isDark : bool) (selector : string) (el : El)
  (m : JsMap.t string ColorData) :=
  match rgbToHex (computed el "background-color") with
  | Some bgColor =>
      if Js.truthy bgColor then
        let key := "bg:" ++ bgColor in
        JsMap.update key (pushColorExample selector)
          (ensure key {| cd_isTheme := isThemeColor isDark (Some bgColor);
                         cd_elements := []; cd_isBg := true |} m)
      else m
  | None => m
  end.

Definition pushSpacing (label selector : string) (d : SpacingData) : SpacingData :=
  {| sd_elements := pushExample selector (sd_elements d);
     sd_properties := JsMap.add label (sd_properties d);
     sd_isConsistent := sd_isConsistent d |}.

Definition scanSpacingProp (selector : string) (el : El)
  (m : JsMap.t Z SpacingData) (label : string) :=
  match parseSpacingValue (computed el label) (spacingPx el label) with
  | Some value =>
      if decide (0 < value)%Qc then
        let rounded := Js.round value in
        let key := rounded in
        let isConsistent := isConsistentSpacing value in
        JsMap.update key (pushSpacing label selector)
          (ensure key {| sd_elements := []; sd_properties := [];
                         sd_isConsistent := isConsistent |} m)
      else m
  | None => m
  end.

(** The body of [elements.forEach] in [scanStyles]. *)
Definition scanElement (isDark : bool) (tb : Tables) (el : El) : Tables :=
  if closestModal el then tb
  else if hidden el then tb
  else
    let selector := getElementSelector el in
    {| seenFontFamilies := scanFontFamily selector el (seenFontFamilies tb);
       seenFontSizes := scanFontSize selector el (seenFontSizes tb);
       seenFontWeights := scanFontWeight selector el (seenFontWeights tb);
       seenColors :=
         scanBackground isDark selector el
           (scanTextColor isDark selector el (seenColors tb));
       seenSpacing := fold_left (scanSpacingProp selector el) spacingProps (seenSpacing tb) |}.

Record FontFamilyEntry := { ff_value : string; ff_elements : list string; ff_isInconsistent : bool }.
Record FontSizeEntry := { fs_value : Qc; fs_elements : list string }.
Record FontWeightEntry := { fw_value : Z; fw_elements : list string }.
Record ColorEntry := { c_value : string; c_elements : list string; c_isTheme : bool; c_isBg : bool }.
Record SpacingEntry := {
  sp_value : Z;
  sp_elements : list string;
  sp_properties : list string;
  sp_isConsistent : bool
}.

Record Inconsistencies := {
  fontFamily : list FontFamilyEntry;
  fontSize : list FontSizeEntry;
  fontWeight : list FontWeightEntry;
  color : list ColorEntry;
  spacing : list SpacingEntry
}.

(** The sign of [a - b]. *)
Definition cmpQc (a b : Qc) : Z :=
  match (a ?= b)%Qc with Lt => -1 | Eq => 0 | Gt => 1 end%Z.

Definition scanStyles (isDark : bool) (page : list El) : Inconsistencies :=
  let elements :=
    selectAllBut ["script"; "style"; "svg"; "path"; "circle"; "line"; "rect"; "polygon"] page in
  let tb := fold_left (scanElement isDark) elements emptyTables in
  {| fontFamily :=
       map (fun '(font, els) =>
              {| ff_value := font; ff_elements := els; ff_isInconsistent := true |})
           (seenFontFamilies tb);
     fontSize :=
       map (fun '(size, els) => {| fs_value := size; fs_elements := els |})
           (JsMap.sortBy (fun a b => cmpQc (fst a) (fst b)) (seenFontSizes tb));
     fontWeight :=
       map (fun '(weight, els) => {| fw_value := weight; fw_elements := els |})
           (JsMap.sortBy (fun a b => (fst a - fst b)%Z) (seenFontWeights tb));
     color :=
       JsMap.sortBy
         (fun a b => if Bool.eqb (c_isTheme a) (c_isTheme b) then 0%Z
                     else if c_isTheme a then 1%Z else (-1)%Z)
         (map (fun '(color, data) =>
                 {| c_value := if cd_isBg data
                               then Js.replaceFirst "bg:" "" color ++ " (bg)"
                               else color;
                    c_elements := cd_elements data;
                    c_isTheme := cd_isTheme data;
                    c_isBg := cd_isBg data |})
              (seenColors tb));
     spacing :=
       map (fun '(size, data) =>
              {| sp_value := size; sp_elements := sd_elements data;
                 sp_properties := sd_properties data;
                 sp_isConsistent := sd_isConsistent data |})
           (JsMap.sortBy (fun a b => (fst a - fst b)%Z) (seenSpacing tb)) |}.

(** *** The conflict scan *)

Record Conflict := {
  element : string;
  type : string;
  detail : string;
  style : option string;
  expected : option string;
  actual : option string
}.

(** A rule of a style sheet: [selectorText] is [None] for rules that
    have none (at-rules); [ruleValue p] is
    [rule.style.getPropertyValue(p)]. *)
Record Rule := { selectorText : option string; ruleValue : string -> string }.

(** A style sheet: reading [cssRules] of a cross-origin sheet throws. *)
Inductive Sheet := CrossOrigin | Rules (rules : list Rule).

(** The loop over the rules of one sheet: [Some true] when a matching
    rule sets [prop] through [var(], [Some false] when the loop ends
    without one, [None] when [el.matches] throws. *)
Fixpoint rulesUseVariable (el : El) (prop : string) (rules : list Rule) : option bool :=
  match rules with
  | [] => Some false
  | rule :: rest =>
      match selectorText rule with
      | Some sel =>
          if Js.truthy sel then
            match matches el sel with
            | None => None
            | Some true =>
                let ruleValue := ruleValue rule prop in
                if Js.truthy ruleValue && Js.includes ruleValue "var(" then Some true
                else rulesUseVariable el prop rest
            | Some false => rulesUseVariable el prop rest
            end
          else rulesUseVariable el prop rest
      | None => rulesUseVariable el prop rest
      end
  end.

(** The loop over the style sheets; a sheet whose rules cannot be read,
    or in which [el.matches] throws, is left and the next one is
    tried. *)
Fixpoint usesVariable (el : El) (prop : string) (sheets : list Sheet) : bool :=
  match sheets with
  | [] => false
  | CrossOrigin :: rest => usesVariable el prop rest
  | Rules rules :: rest =>
      match rulesUseVariable el prop rules with
      | Some true => true
      | _ => usesVariable el prop rest
      end
  end.

Definition allowedConflictColors (isDark : bool) : list string :=
  (map Js.toUpperCase (themeColors isDark)
   ++ [ "#FFFFFF"; "#000000"; "#FFF"; "#000"; "TRANSPARENT" ])%list.

Definition colorProps : list string := ["color"; "background-color"; "border-color"].

(** The name under which [el.style] is read for [prop]. *)
Definition styleKey (prop : string) : string :=
  if prop =? "background-color" then "backgroundColor" else prop.

(** The body of [colorProps.forEach]: the conflicts pushed for [prop]. *)
Definition colorConflicts (isDark : bool) (sheets : list Sheet) (el : El)
  (selector prop : string) : list Conflict :=
  let computedValue := computed el prop in
  let hexColor := rgbToHex computedValue in
  let inlineVal := inlineProp el (styleKey prop) in
  let inlineOverride :=
    if Js.truthy inlineVal && negb (Js.includes inlineVal "var(") then
      [ {| element := selector; type := "inline-override";
           detail := "Inline " ++ prop ++ " override";
           style := None; expected := Some "theme variable";
           actual := Some inlineVal |} ]
    else [] in
  let hardcoded :=
    match hexColor with
    | Some hex =>
        if Js.truthy hex
           && negb (existsb (String.eqb (Js.toUpperCase hex)) (allowedConflictColors isDark))
        then
          let isTextElement :=
            Js.truthy (innerText el)
            && (0 <? String.length (Js.trim (innerText el)))%nat in
          let isColorProp := prop =? "color" in
          let isBgProp := prop =? "background-color" in
          if (isColorProp && isTextElement) || isBgProp then
            if usesVariable el prop sheets then []
            else
              [ {| element := selector; type := "hardcoded-color";
                   detail := "Hardcoded " ++ prop ++ " (not theme variable)";
                   style := None; expected := Some "var(--color-*)";
                   actual := Some hex |} ]
          else []
        else []
    | None => []
    end in
  (inlineOverride ++ hardcoded)%list.

(** The body of [elements.forEach] in [scanConflicts]: the conflicts
    pushed for one element. *)
Definition elementConflicts (isDark : bool) (sheets : list Sheet) (el : El) : list Conflict :=
  if closestModal el then []
  else if hidden el then []
  else
    let selector := getElementSelector el in
    let important :=
      match styleAttr el with
      | Some inlineStyle =>
          if Js.truthy inlineStyle && Js.includes inlineStyle "!important" then
            [ {| element := selector; type := "inline-important";
                 detail := "Inline !important override detected";
                 style := Some (Js.substring0 100 inlineStyle
                                ++ (if (100 <? String.length inlineStyle)%nat
                                    then "..." else ""));
                 expected := None; actual := None |} ]
          else []
      | None => []
      end in
    (important ++ flat_map (colorConflicts isDark sheets el selector) colorProps)%list.

(** [conflicts.filter(c => ...)] with the [seen] set of keys. *)
Fixpoint dedupe (seen : gset string) (conflicts : list Conflict) : list Conflict :=
  match conflicts with
  | [] => []
  | c :: rest =>
      let key := element c ++ type c ++ detail c in
      if decide (key ∈ seen) then dedupe seen rest
      else c :: dedupe ({[key]} ∪ seen) rest
  end.

Definition scanConflicts (isDark : bool) (sheets : list Sheet) (page : list El) : list Conflict :=
  let elements := selectAllBut ["script"; "style"; "svg"; "path"] page in
  let conflicts := flat_map (elementConflicts isDark sheets) elements in
  firstn 100 (dedupe ∅ conflicts).

End StyleDebug.

(* ===================================================================== *)
(** ** Section identity (both scripts of section-debug.js) *)
(* ===================================================================== *)

Module SectionInfo.

(** [getSectionId(section)]; [id] is [section.id], which is empty when
    the element has none. *)
Definition getSectionId (id : string) : string :=
  let cleaned := Js.replaceFirst "shopify-section-" "" id in
  if Js.truthy cleaned then cleaned else "unknown".

(** A literal piece of a pattern with the [i] flag.  The pieces used
    here hold ASCII letters, digits and dashes only, and no character of
    U+0080..U+00FF is folded onto an ASCII one. *)
Fixpoint litNoCase (pre s : string) : option string :=
  match pre, s with
  | EmptyString, _ => Some s
  | String a pre', String b s' =>
      if Ascii.eqb (Js.upperChar a) (Js.upperChar b) then litNoCase pre' s' else None
  | String _ _, EmptyString => None
  end.

(** [[a-z0-9-]] with the [i] flag. *)
Definition isNameChar (c : ascii) : bool :=
  let n := Js.code c in
  ((97 <=? n) && (n <=? 122) || (65 <=? n) && (n <=? 90)
   || (48 <=? n) && (n <=? 57) || (n =? 45))%N.

(** The longest run of name characters at the start of [s], and what
    follows. *)
Fixpoint nameRun (s : string) : string * string :=
  match s with
  | EmptyString => (EmptyString, EmptyString)
  | String c t =>
      if isNameChar c then let (r, rest) := nameRun t in (String c r, rest)
      else (EmptyString, s)
  end.

(** [([a-z0-9-]+)] at the start of [s]. *)
Definition name1 (s : string) : option string :=
  let (name, _) := nameRun s in if Js.truthy name then Some name else None.

(** [/template-([a-z0-9-]+)/i] anchored at the start of [s]. *)
Definition templateAt (s : string) : option string :=
  rest ← litNoCase "template-" s; name1 rest.

(** [getTemplateName()]; [bodyClasses] is [document.body.className] and
    [path] is [window.location.pathname]. *)
Definition getTemplateName (bodyClasses path : string) : string :=
  match StyleRegex.search templateAt bodyClasses with
  | Some name => name
  | None =>
      if (path =? "/") || (path =? "") then "index"
      else if Js.includes path "/products/" then "product"
      else if Js.includes path "/collections/" then "collection"
      else if Js.includes path "/pages/" then "page"
      else if Js.includes path "/blogs/" then "article"
      else if Js.includes path "/cart" then "cart"
      else "unknown"
  end.

(** [(?:template--\d+--)] at the start of [s]: what follows it.  After
    the greedy digits only a dash can follow, so giving digits back never
    helps. *)
Definition groupAt (s : string) : option string :=
  s1 ← litNoCase "template--" s;
  '(_, s2) ← RgbRegex.digits1 s1;
  RgbRegex.lit "--" s2.

(** [/shopify-section-(?:template--\d+--)?([a-z0-9-]+)/i] anchored at
    the start of [s]: the capture.  The optional group is taken when it
    matches and a name follows it; otherwise the name is read right after
    the literal. *)
Definition typeAt (s : string) : option string :=
  rest ← litNoCase "shopify-section-" s;
  match groupAt rest with
  | Some after =>
      match name1 after with
      | Some name => Some name
      | None => name1 rest
      end
  | None => name1 rest
  end.

Definition isAlnum (c : ascii) : bool :=
  let n := Js.code c in
  ((97 <=? n) && (n <=? 122) || (65 <=? n) && (n <=? 90) || (48 <=? n) && (n <=? 57))%N.

(** [s.replace(/_[a-zA-Z0-9]+$/, '')]: the leftmost underscore that is
    followed by letters and digits only, up to the end, is cut off with
    them. *)
Fixpoint dropUniqueId (s : string) : string :=
  match s with
  | EmptyString => EmptyString
  | String c t =>
      if Ascii.eqb c "_" && Js.truthy t && forallb isAlnum (list_ascii_of_string t)
      then EmptyString
      else String c (dropUniqueId t)
  end.

(** [s.replace(/-\d+$/, '')]. *)
Fixpoint dropNumericSuffix (s : string) : string :=
  match s with
  | EmptyString => EmptyString
  | String c t =>
      if Ascii.eqb c "-" && Js.truthy t && forallb Js.isDigit (list_ascii_of_string t)
      then EmptyString
      else String c (dropNumericSuffix t)
  end.

(** The loop over [section.classList].  The list holds every class once;
    the first class that passes the test is the same with and without
    the repetitions. *)
Fixpoint sectionClass (classes : list string) : option string :=
  match classes with
  | [] => None
  | cls :: rest =>
      if Js.startsWith cls "section-" && negb (cls =? "section-padding")
      then Some (Js.replaceFirst "section-" "" cls)
      else sectionClass rest
  end.

(** [getSectionType(section)].  [ownType] is
    [section.dataset.sectionType] ([None] when the attribute is absent),
    [innerType] the same property of the first descendant that has the
    attribute [data-section-type] ([None] when there is no such
    descendant), [id] is [section.id] and [classAttr] its [class]
    attribute. *)
Definition getSectionType (ownType innerType : option string) (id classAttr : string)
  : option string :=
  if Js.truthy (default "" ownType) then ownType
  else if Js.truthy (default "" innerType) then innerType
  else
    match StyleRegex.search typeAt id with
    | Some name => Some (dropNumericSuffix (dropUniqueId name))
    | None => sectionClass (Js.classTokens classAttr)
    end.

End SectionInfo.

(* ===================================================================== *)
(** ** Sections loaded by the theme editor (both scripts of section-debug.js) *)
(* ===================================================================== *)

Module SectionEvents.
Import SectionInspect.

(** The listener for [shopify:section:load]; [target] is [e.target] and
    [createDebugButton] builds the button of the script. *)
Definition onSectionLoad (createDebugButton : Node -> Node) (target : Node) : Node :=
  if isSection (element target)
  then El (element target) (children target ++ [createDebugButton target])%list
  else target.

End SectionEvents.

(* ===================================================================== *)
(** ** The debug report of the section copy tool (first script of section-debug.js) *)
(* ===================================================================== *)

Module SectionReport.
Import SectionInspect.

(** What [buildDebugInfo] reads of a section besides its subtree:
    [ownType] and [innerType] as for [getSectionType], the number of
    descendants that carry [data-block-id] or
    [data-shopify-editor-block], and the width and the height of the
    bounding rectangle.  The section is an HTML element, so that its
    [className] is its [class] attribute. *)
Record SectionView := {
  section : Node;
  ownType : option string;
  innerType : option string;
  blocks : nat;
  rectWidth : Qc;
  rectHeight : Qc
}.

(** What it reads of the page: the attribute [data-theme] of the root
    element, [window.location.pathname], [window.Shopify?.theme?.name]
    and the class of the body. *)
Record PageView := {
  dataTheme : option string;
  pathname : string;
  themeName : option string;
  bodyClasses : string
}.

Record Colors := { background : string; text : string; border : string }.

Record DebugInfo := {
  section_id : string;
  section_type : string;
  full_element_id : string;
  block_count : nat;
  width : Z;
  height : Z;
  theme : string;
  colors : Colors;
  url : string;
  template : string;
  color_scheme : option string;
  section_file : string;
  template_json : string
}.

(** [v || fallback] for a value that is a string, [null] or
    [undefined]. *)
Definition orElse (v : option string) (fallback : string) : string :=
  if Js.truthy (default "" v) then default "" v else fallback.

Definition textTags : list string :=
  ["h1"; "h2"; "h3"; "h4"; "h5"; "h6"; "p"; "span"; "a"].

(** [getComputedColors(element)]; the colour normaliser of the first
    script is the one of the second, word for word. *)
Definition getComputedColors (element : Node) : Colors :=
  let styles := computed (SectionInspect.element element) in
  let textElement :=
    match List.find (fun t => existsb (String.eqb (Js.toLowerCase (tagName (el t)))) textTags)
                    (descendants [] element) with
    | Some t => el t
    | None => SectionInspect.element element
    end in
  {| background := rgbToHex (styles "background-color");
     text := rgbToHex (computed textElement "color");
     border := rgbToHex (styles "border-color") |}.

(** The longest run of characters that are not white space. *)
Fixpoint nonSpaceRun (s : string) : string :=
  match s with
  | EmptyString => EmptyString
  | String c t => if Js.isWhiteSpace c then EmptyString else String c (nonSpaceRun t)
  end.

(** [/color-(\S+)/] anchored at the start of [s]. *)
Definition colorSchemeAt (s : string) : option string :=
  rest ← RgbRegex.lit "color-" s;
  let name := nonSpaceRun rest in
  if Js.truthy name then Some name else None.

(** [buildDebugInfo(section)]. *)
Definition buildDebugInfo (page : PageView) (v : SectionView) : DebugInfo :=
  let e := element (section v) in
  let sectionId := SectionInfo.getSectionId (elId e) in
  let sectionType :=
    SectionInfo.getSectionType (ownType v) (innerType v) (elId e) (classAttr e) in
  {| section_id := sectionId;
     section_type := orElse sectionType "unknown";
     full_element_id := elId e;
     block_count := blocks v;
     width := Js.round (rectWidth v);
     height := Js.round (rectHeight v);
     theme := orElse (dataTheme page) "light";
     colors := getComputedColors (section v);
     url := pathname page;
     template := orElse (themeName page) "unknown";
     color_scheme := StyleRegex.search colorSchemeAt (classAttr e);
     section_file := "sections/" ++ orElse sectionType sectionId ++ ".liquid";
     template_json :=
       "templates/" ++ SectionInfo.getTemplateName (bodyClasses page) (pathname page)
       ++ ".json" |}.

End SectionReport.

(* ===================================================================== *)
(** ** Copying the style report (style-debug.js) *)
(* ===================================================================== *)

Module StyleCopy.
Import Browser.

(** The button of the modal after a copy: its text reads [Copied!]. *)
Inductive Feedback := CopiedShown.

(** [copyAllToClipboard()] for the report [text], on a page that holds
    the modal with its copy button.  Reading [writeText] of a missing
    [navigator.clipboard] throws out of the function itself; a rejected
    promise enters the [catch] callback, whose own exceptions nothing
    handles.  The result of [execCommand] is not looked at. *)
Definition copyAllToClipboard (text : string) : M Feedback :=
  available <- clipboardAvailable ;;
  if available then
    tryCatch
      (clipboardWriteText text ;;
       ret CopiedShown)
      (emit (CreateTextarea text) ;;
       emit AppendToBody ;;
       emit SelectTextarea ;;
       _ <- execCopy ;;
       emit RemoveFromBody ;;
       ret CopiedShown)
  else throw.

End StyleCopy.

(* ===================================================================== *)
(** ** The theme toggle (theme-toggle.js) *)
(* ===================================================================== *)

Module ThemeToggle.

Definition THEME_LIGHT : string := "light".
Definition THEME_DARK : string := "dark".

(** A switch of the page ([.theme-toggle__switch]) with the two
    attributes the script sets; [None] is an absent attribute. *)
Record Switch := { ariaPressed : option string; ariaLabel : option string }.

(** What the script reads and writes: the entry [theme-preference] of
    [localStorage], the attribute [data-theme] of the root element, the
    answer of [matchMedia('(prefers-color-scheme: dark)')] ([None] when
    [window.matchMedia] is missing), the switches, and the themes of the
    [themechange] events dispatched so far.  The storage is one that can
    be read and written. *)
Record Page := {
  stored : option string;
  dataTheme : option string;
  prefersDark : option bool;
  switches : list Switch;
  dispatched : list string
}.

(** [String(b)] for the boolean an attribute is set to. *)
Definition boolText (b : bool) : string := if b then "true" else "false".

Definition getThemePreference (p : Page) : string :=
  if Js.truthy (default "" (stored p)) then default "" (stored p)
  else if default false (prefersDark p) then THEME_DARK
  else THEME_LIGHT.

Definition updateToggleButtons (theme : string) (l : list Switch) : list Switch :=
  map (fun _ =>
         {| ariaPressed := Some (boolText (theme =? THEME_DARK));
            ariaLabel := Some ("Switch to "
                               ++ (if theme =? THEME_DARK then "light" else "dark")
                               ++ " mode") |}) l.

Definition setTheme (theme : string) (p : Page) : Page :=
  {| stored := Some theme;
     dataTheme := Some theme;
     prefersDark := prefersDark p;
     switches := updateToggleButtons theme (switches p);
     dispatched := (dispatched p ++ [theme])%list |}.



(** [init()], as a change of the page; the listeners it installs are
    [toggleTheme] for a click on a toggle and [onSystemChange] below. *)
Definition init (p : Page) : Page := setTheme (getThemePreference p) p.


End ThemeToggle.

(* ===================================================================== *)
(** ** The theme toggle with two buttons (second version of theme-toggle.js) *)
(* ===================================================================== *)

Module ThemeButtons.

Definition THEME_LIGHT : string := "light".
Definition THEME_DARK : string := "dark".

(** What the script reads and writes: the entry [theme-preference] of
    [localStorage], the attribute [data-theme] of the root element,
    whether the root element has the class [theme-ready], the [content]
    of the [meta] element named [theme-color] ([None] when the document
    has none), the [aria-pressed] attributes of the light and of the dark
    buttons, and the [themechange] events dispatched so far, each with
    its theme and its [isInitial] flag. *)
Record Page := {
  stored : option string;
  dataTheme : option string;
  themeReady : bool;
  metaThemeColor : option string;
  lightPressed : list (option string);
  darkPressed : list (option string);
  dispatched : list (string * bool)
}.

Definition boolText (b : bool) : string := if b then "true" else "false".

Definition getThemePreference (p : Page) : string :=
  if Js.truthy (default "" (stored p)) then default "" (stored p) else THEME_LIGHT.

(** [updateMetaThemeColor(theme)]: the content of the element, which
    is created when missing. *)
Definition updateMetaThemeColor (theme : string) : string :=
  if theme =? THEME_DARK then "#0F172A" else "#F5F7FA".

Definition setTheme (theme : string) (p : Page) : Page :=
  {| stored := Some theme;
     dataTheme := Some theme;
     themeReady := themeReady p;
     metaThemeColor := Some (updateMetaThemeColor theme);
     lightPressed := map (fun _ => Some (boolText (theme =? THEME_LIGHT))) (lightPressed p);
     darkPressed := map (fun _ => Some (boolText (theme =? THEME_DARK))) (darkPressed p);
     dispatched := (dispatched p ++ [(theme, negb (themeReady p))])%list |}.

(** [window.ThemeToggle.getTheme()]. *)
Definition getTheme (p : Page) : string :=
  if Js.truthy (default "" (dataTheme p)) then default "" (dataTheme p) else THEME_LIGHT.

(** [window.ThemeToggle.toggle()]. *)
Definition toggle (p : Page) : Page :=
  setTheme (if getTheme p =? THEME_LIGHT then THEME_DARK else THEME_LIGHT) p.

(** The click listener, for a click inside a [.theme-toggle__btn];
    [themeValue] is the attribute [data-theme-value] of the button. *)
Definition onButtonClick (themeValue : option string) (p : Page) : Page :=
  if Js.truthy (default "" themeValue) then setTheme (default "" themeValue) p else p.

(** [init()] as a change of the page.  The class [theme-ready] is added
    two animation frames later, by [setThemeReady]. *)
Definition init (p : Page) : Page := setTheme (getThemePreference p) p.


End ThemeButtons.

(* ===================================================================== *)
(** ** Properties *)
(* ===================================================================== *)

(** *** File hints *)

Lemma firstMatch_nth (ps : list SectionInspect.Pattern) (c : string) (i : nat) (p : SectionInspect.Pattern) :
  nth_error ps i = Some p ->
  SectionInspect.test p c = true ->
  (forall j q, (j < i)%nat -> nth_error ps j = Some q -> SectionInspect.test q c = false) ->
  SectionInspect.firstMatch ps c = Some (SectionInspect.file p).
Proof.
  revert i. induction ps as [|q ps IH]; intros i Hi Hp Hbefore.
  - destruct i; discriminate.
  - destruct i as [|i]; simpl in *.
    + injection Hi as ->. now rewrite Hp.
    + rewrite (Hbefore 0%nat q) by (simpl; auto; lia).
      apply (IH i); auto.
      intros j r Hj Hr. apply (Hbefore (S j) r); simpl; auto; lia.
Qed.

Lemma firstMatch_none (ps : list SectionInspect.Pattern) (c : string) :
  (forall p, In p ps -> SectionInspect.test p c = false) ->
  SectionInspect.firstMatch ps c = None.
Proof.
  induction ps as [|q ps IH]; intros H; simpl; [reflexivity|].
  rewrite (H q) by (left; reflexivity).
  apply IH. intros p Hp. apply H. now right.
Qed.

(** C6. File-hint resolution goes through the ordered pattern table and
    the first matching pattern wins; a class name with the testimonial
    prefix resolves to the testimonials template; a class name that no
    pattern matches resolves to [sections/<type>.liquid] when the section
    type is known, and to the fixed default string otherwise. *)
Theorem guessFileLocation_resolution (c : string) (sectionType : option string)
  (Hc : c <> EmptyString) :
  (forall i p,
      nth_error SectionInspect.patterns i = Some p ->
      SectionInspect.test p c = true ->
      (forall j q, (j < i)%nat -> nth_error SectionInspect.patterns j = Some q ->
                   SectionInspect.test q c = false) ->
      SectionInspect.guessFileLocation (Some c) sectionType = Some (SectionInspect.file p))
  /\ (Js.startsWith c "testimonial" = true ->
      SectionInspect.guessFileLocation (Some c) sectionType = Some "sections/testimonials.liquid")
  /\ ((forall p, In p SectionInspect.patterns -> SectionInspect.test p c = false) ->
      (forall t, sectionType = Some t -> t <> EmptyString ->
         SectionInspect.guessFileLocation (Some c) sectionType
         = Some ("sections/" ++ t ++ ".liquid"))
      /\ (sectionType = None \/ sectionType = Some EmptyString ->
         SectionInspect.guessFileLocation (Some c) sectionType
         = Some SectionInspect.defaultFile)).
Proof.
  assert (Htr : Js.truthy c = true) by (destruct c; [contradiction|reflexivity]).
  unfold SectionInspect.guessFileLocation. rewrite Htr. simpl negb. cbv iota.
  split; [|split].
  - intros i p Hi Hp Hbefore.
    now rewrite (firstMatch_nth _ c i p Hi Hp Hbefore).
  - intros Hpre. unfold SectionInspect.patterns. simpl SectionInspect.firstMatch.
    unfold SectionInspect.test at 1. simpl SectionInspect.regex. now rewrite Hpre.
  - intros Hnone. rewrite (firstMatch_none _ c Hnone). split.
    + intros t -> Ht. destruct t; [contradiction|reflexivity].
    + intros [-> | ->]; reflexivity.
Qed.

Lemma guessFileLocation_resolution_witness :
  SectionInspect.guessFileLocation (Some "testimonial__quote") (Some "hero")
  = Some "sections/testimonials.liquid"
  /\ SectionInspect.guessFileLocation (Some "hero__title") (Some "hero")
     = Some "sections/hero.liquid"
  /\ SectionInspect.guessFileLocation (Some "hero__title") None
     = Some SectionInspect.defaultFile.
Proof.
  assert (Hnone : forall p, In p SectionInspect.patterns ->
                            SectionInspect.test p "hero__title" = false).
  { intros p Hp. simpl in Hp.
    repeat (destruct Hp as [<- | Hp]; [reflexivity|]). contradiction. }
  split; [|split].
  - destruct (guessFileLocation_resolution "testimonial__quote" (Some "hero"))
      as (_ & H & _); [discriminate|]. apply H. reflexivity.
  - destruct (guessFileLocation_resolution "hero__title" (Some "hero"))
      as (_ & _ & H); [discriminate|].
    destruct (H Hnone) as [H1 _]. apply (H1 "hero"); [reflexivity|discriminate].
  - destruct (guessFileLocation_resolution "hero__title" None)
      as (_ & _ & H); [discriminate|].
    destruct (H Hnone) as [_ H2]. apply H2. left; reflexivity.
Defined.

(** *** Spacing consistency *)

Lemma isConsistentSpacing_exists (v : Qc) :
  StyleDebug.isConsistentSpacing v = true <->
  exists e, In e StyleDebug.spacingValues /\ (Z.abs (Js.round v - e) <= 2)%Z.
Proof.
  unfold StyleDebug.isConsistentSpacing. rewrite existsb_exists.
  split; intros (e & He & Hd); exists e; split; auto; now apply Z.leb_le.
Qed.

(** The rounded values that pass: the scale is dense up to 32, so
    everything up to 34 passes, and above that only the five-wide windows
    around 40, 48, 56, 64, 80, 96, 112 and 128. *)
Lemma isConsistentSpacing_windows (v : Qc) :
  StyleDebug.isConsistentSpacing v = true <->
  let r := Js.round v in
  (-2 <= r <= 34 \/ 38 <= r <= 42 \/ 46 <= r <= 50 \/ 54 <= r <= 58 \/
   62 <= r <= 66 \/ 78 <= r <= 82 \/ 94 <= r <= 98 \/ 110 <= r <= 114 \/
   126 <= r <= 130)%Z.
Proof.
  unfold StyleDebug.isConsistentSpacing, StyleDebug.spacingValues.
  cbv zeta. generalize (Js.round v). intros r. cbn [existsb].
  rewrite !orb_true_iff, !Z.leb_le. lia.
Qed.

(** A measured value against an entry of the scale: within 2 of it, or
    more than 2 away from it. *)
Definition within2 (v : Qc) (e : Z) : Prop :=
  (inject_Z (e - 2) <= this v /\ this v <= inject_Z (e + 2))%Q.

Definition beyond2 (v : Qc) (e : Z) : Prop :=
  (this v < inject_Z (e - 2) \/ inject_Z (e + 2) < this v)%Q.

Lemma round_lower (v : Qc) (z : Z) : (inject_Z z <= this v)%Q -> (z <= Js.round v)%Z.
Proof.
  intros H. unfold Js.round. rewrite <- (Qfloor_Z z) at 1. apply Qfloor_resp_le.
  apply Qle_trans with (this v); [exact H|].
  rewrite <- (Qplus_0_r (this v)) at 1. apply Qplus_le_compat; [apply Qle_refl|].
  discriminate.
Qed.

Lemma round_upper (v : Qc) (z : Z) : (this v <= inject_Z z)%Q -> (Js.round v <= z)%Z.
Proof.
  intros H. unfold Js.round.
  assert (Hz : Qfloor (inject_Z z + (1 # 2)) = z).
  { unfold Qfloor, Qplus, inject_Z. cbn [Qnum Qden]. 
    change (Z.pos (1 * 2)) with 2%Z. Z.div_mod_to_equations. lia. }
  rewrite <- Hz. apply Qfloor_resp_le.
  apply Qplus_le_compat; [exact H | apply Qle_refl].
Qed.

(** C5, as the code has it.  A positive measured spacing value is
    marked consistent exactly when its rounded value lies within 2 of an
    entry of the allowed scale; so a value that is itself within 2 of an
    entry is marked consistent, and a value whose rounded value is more
    than 2 away from every entry is marked inconsistent. *)
Theorem isConsistentSpacing_tolerance (v : Qc) (Hpos : (0 < v)%Qc) :
  StyleDebug.spacingValues
    = [0; 4; 8; 12; 16; 20; 24; 28; 32; 40; 48; 56; 64; 80; 96; 112; 128]%Z
  /\ (StyleDebug.isConsistentSpacing v = true <->
      exists e, In e StyleDebug.spacingValues /\ (Z.abs (Js.round v - e) <= 2)%Z)
  /\ ((exists e, In e StyleDebug.spacingValues /\ within2 v e) ->
      StyleDebug.isConsistentSpacing v = true)
  /\ ((forall e, In e StyleDebug.spacingValues -> (2 < Z.abs (Js.round v - e))%Z) ->
      StyleDebug.isConsistentSpacing v = false).
Proof.
  split; [reflexivity|]. split; [apply isConsistentSpacing_exists|]. split.
  - intros (e & He & Hlo & Hhi). apply isConsistentSpacing_exists. exists e.
    split; [exact He|]. apply round_lower in Hlo. apply round_upper in Hhi. lia.
  - intros Hfar. apply not_true_is_false. intros Ht.
    apply isConsistentSpacing_exists in Ht. destruct Ht as (e & He & Hd).
    specialize (Hfar e He). lia.
Qed.

Lemma isConsistentSpacing_tolerance_witness :
  (0 < Q2Qc (18 # 1))%Qc
  /\ StyleDebug.isConsistentSpacing (Q2Qc (18 # 1)) = true
  /\ (0 < Q2Qc (36 # 1))%Qc
  /\ StyleDebug.isConsistentSpacing (Q2Qc (36 # 1)) = false.
Proof.
  split; [reflexivity|]. split.
  - destruct (isConsistentSpacing_tolerance (Q2Qc (18 # 1))) as (_ & H & _);
      [reflexivity|].
    apply H. exists 16%Z. split; [simpl; tauto | vm_compute; discriminate].
  - split; [reflexivity|].
    destruct (isConsistentSpacing_tolerance (Q2Qc (36 # 1))) as (_ & _ & _ & H);
      [reflexivity|].
    apply H. intros e He. simpl in He.
    repeat (destruct He as [<- | He]; [vm_compute; reflexivity|]). contradiction.
Defined.

(** A measurement of 34.4 pixels is more than 2 away from every entry
    of the scale (2.4 above 32, 5.6 below 40); it is rounded to 34 and
    marked consistent. *)
Lemma isConsistentSpacing_fraction :
  (forall e, In e StyleDebug.spacingValues -> beyond2 (Q2Qc (344 # 10)) e)
  /\ Js.round (Q2Qc (344 # 10)) = 34%Z
  /\ StyleDebug.isConsistentSpacing (Q2Qc (344 # 10)) = true.
Proof.
  split; [|split; vm_compute; reflexivity].
  intros e He. simpl in He.
  repeat (destruct He as [<- | He];
          [first [left; reflexivity | right; reflexivity]|]).
  contradiction.
Qed.

(** *** Colour normalisation *)

(** White space only. *)
Definition allWhite (ws : string) : bool :=
  forallb Js.isWhiteSpace (list_ascii_of_string ws).

(** A colour text as the pattern of the normalisers reads it: the
    function name, an opening parenthesis and three runs of digits
    separated by commas, each comma followed by white space or by
    nothing; [tail] is what follows the blue channel.  The text the
    browser computes for a colour, [rgb(R, G, B)] or [rgba(R, G, B, A)],
    is of this form, with one space after each comma. *)
Definition colourText (fn r ws1 g ws2 b tail : string) : string :=
  fn ++ "(" ++ r ++ "," ++ ws1 ++ g ++ "," ++ ws2 ++ b ++ tail.

(** A channel: a run of at least one decimal digit that reads as a
    number from 0 to 255. *)
Definition isChannel (d : string) : bool :=
  Js.truthy d
  && forallb Js.isDigit (list_ascii_of_string d)
  && (Js.parseIntDigits d <? 256)%N.

(** The two upper-case hexadecimal digits of a channel. *)
Definition upperHexDigit (d : N) : ascii :=
  nth (N.to_nat d) (list_ascii_of_string "0123456789ABCDEF") "?"%char.

Definition upperHexByte (n : N) : string :=
  String (upperHexDigit (n / 16)) (String (upperHexDigit (n mod 16)) EmptyString).

(** Recogniser of [#[0-9A-F]{6}]: seven characters in all. *)
Definition isUpperHexChar (c : ascii) : bool :=
  Js.isDigit c || ((65 <=? Js.code c) && (Js.code c <=? 70))%N.

Definition isHex6 (s : string) : bool :=
  match s with
  | String "#" t => (String.length t =? 6)%nat && forallb isUpperHexChar (list_ascii_of_string t)
  | _ => false
  end.

Definition startsWithDigit (s : string) : bool :=
  match s with
  | String c _ => Js.isDigit c
  | EmptyString => false
  end.

Definition channelCheck (n : N) : bool :=
  Js.truthy (Js.decimal n)
  && forallb Js.isDigit (list_ascii_of_string (Js.decimal n))
  && (Js.parseIntDigits (Js.decimal n) =? n)%N
  && (Js.toUpperCase (Js.padStart2 (Js.toString16 n)) =? upperHexByte n)
  && (Js.toUpperCase (StyleDebug.hex2 n) =? upperHexByte n)
  && forallb isUpperHexChar (list_ascii_of_string (upperHexByte n)).

Lemma channelCheck_all : forallb channelCheck (map N.of_nat (seq 0 256)) = true.
Proof. vm_compute. reflexivity. Qed.

Lemma channel_ok (n : N) :
  (n < 256)%N ->
  Js.truthy (Js.decimal n) = true
  /\ forallb Js.isDigit (list_ascii_of_string (Js.decimal n)) = true
  /\ Js.parseIntDigits (Js.decimal n) = n
  /\ Js.toUpperCase (Js.padStart2 (Js.toString16 n)) = upperHexByte n
  /\ Js.toUpperCase (StyleDebug.hex2 n) = upperHexByte n
  /\ forallb isUpperHexChar (list_ascii_of_string (upperHexByte n)) = true.
Proof.
  intros Hn.
  assert (Hin : In n (map N.of_nat (seq 0 256))).
  { apply in_map_iff. exists (N.to_nat n). split; [apply N2Nat.id|].
    apply in_seq. lia. }
  pose proof (proj1 (forallb_forall _ _) channelCheck_all n Hin) as H.
  unfold channelCheck in H.
  rewrite !andb_true_iff in H. destruct H as (((((H1 & H2) & H3) & H4) & H5) & H6).
  apply N.eqb_eq in H3. apply String.eqb_eq in H4. apply String.eqb_eq in H5.
  auto 10.
Qed.

Lemma append_nil (s : string) : EmptyString ++ s = s.
Proof. reflexivity. Qed.

Lemma append_cons (c : ascii) (s t : string) : String c s ++ t = String c (s ++ t).
Proof. reflexivity. Qed.

Lemma digits_app (d rest : string) :
  forallb Js.isDigit (list_ascii_of_string d) = true ->
  startsWithDigit rest = false ->
  RgbRegex.digits (d ++ rest) = (d, rest).
Proof.
  intros Hd Hrest. induction d as [|c d IH].
  - destruct rest as [|c r]; [reflexivity|].
    cbn [startsWithDigit] in Hrest. rewrite append_nil. cbn [RgbRegex.digits].
    now rewrite Hrest.
  - cbn [list_ascii_of_string forallb] in Hd.
    apply andb_true_iff in Hd. destruct Hd as [Hc Hd].
    rewrite append_cons. cbn [RgbRegex.digits]. rewrite Hc, (IH Hd). reflexivity.
Qed.

Lemma digits1_app (d rest : string) :
  Js.truthy d = true ->
  forallb Js.isDigit (list_ascii_of_string d) = true ->
  startsWithDigit rest = false ->
  RgbRegex.digits1 (d ++ rest) = Some (d, rest).
Proof.
  intros Ht Hd Hrest. unfold RgbRegex.digits1.
  rewrite (digits_app d rest Hd Hrest). now rewrite Ht.
Qed.

Lemma digit_not_space (c : ascii) : Js.isDigit c = true -> Js.isWhiteSpace c = false.
Proof.
  unfold Js.isDigit, Js.isWhiteSpace. cbv zeta. generalize (Js.code c). intros n Hc.
  apply andb_true_iff in Hc. rewrite !N.leb_le in Hc.
  rewrite !orb_false_iff, andb_false_iff, !N.leb_gt, !N.eqb_neq. lia.
Qed.

Lemma spaces_skip (ws : string) (c : ascii) (t : string) :
  allWhite ws = true -> Js.isWhiteSpace c = false ->
  RgbRegex.spaces (ws ++ String c t) = String c t.
Proof.
  intros Hw Hc. induction ws as [|x ws IH].
  - rewrite append_nil. cbn [RgbRegex.spaces]. now rewrite Hc.
  - unfold allWhite in Hw. cbn [list_ascii_of_string forallb] in Hw.
    apply andb_true_iff in Hw. destruct Hw as [Hx Hw].
    rewrite append_cons. cbn [RgbRegex.spaces]. rewrite Hx. now apply IH.
Qed.

Lemma spaces_channel (ws d rest : string) :
  allWhite ws = true ->
  Js.truthy d = true -> forallb Js.isDigit (list_ascii_of_string d) = true ->
  RgbRegex.spaces (ws ++ d ++ rest) = d ++ rest.
Proof.
  intros Hw Ht Hd. destruct d as [|c d]; [discriminate|].
  cbn [list_ascii_of_string forallb] in Hd. apply andb_true_iff in Hd.
  rewrite append_cons. apply spaces_skip; [exact Hw|].
  apply digit_not_space. tauto.
Qed.

Lemma isChannel_spec (d : string) :
  isChannel d = true ->
  Js.truthy d = true
  /\ forallb Js.isDigit (list_ascii_of_string d) = true
  /\ (Js.parseIntDigits d < 256)%N.
Proof.
  unfold isChannel. rewrite !andb_true_iff, N.ltb_lt. tauto.
Qed.

Lemma matchAt_channels (r ws1 g ws2 b tail : string) :
  isChannel r = true -> isChannel g = true -> isChannel b = true ->
  allWhite ws1 = true -> allWhite ws2 = true ->
  startsWithDigit tail = false ->
  RgbRegex.matchAt (colourText "rgb" r ws1 g ws2 b tail) = Some (r, g, b)
  /\ RgbRegex.matchAt (colourText "rgba" r ws1 g ws2 b tail) = Some (r, g, b).
Proof.
  intros Hr Hg Hb Hw1 Hw2 Htail.
  apply isChannel_spec in Hr, Hg, Hb.
  destruct Hr as (Hr1 & Hr2 & _), Hg as (Hg1 & Hg2 & _), Hb as (Hb1 & Hb2 & _).
  assert (Hcomma : forall x, RgbRegex.lit "," ("," ++ x) = Some x).
  { intros x. rewrite append_cons, append_nil. cbn [RgbRegex.lit].
    rewrite Ascii.eqb_refl. now destruct x. }
  assert (Hcore :
    ('(r', s3) ← RgbRegex.digits1 (r ++ "," ++ ws1 ++ g ++ "," ++ ws2 ++ b ++ tail);
     s4 ← RgbRegex.lit "," s3;
     '(g', s5) ← RgbRegex.digits1 (RgbRegex.spaces s4);
     s6 ← RgbRegex.lit "," s5;
     '(b', _) ← RgbRegex.digits1 (RgbRegex.spaces s6);
     Some (r', g', b')) = Some (r, g, b)).
  { rewrite (digits1_app r _ Hr1 Hr2) by reflexivity.
    cbn [mbind option_bind]. rewrite Hcomma. cbn [mbind option_bind].
    rewrite (spaces_channel ws1 g _ Hw1 Hg1 Hg2).
    rewrite (digits1_app g _ Hg1 Hg2) by reflexivity.
    cbn [mbind option_bind]. rewrite Hcomma. cbn [mbind option_bind].
    rewrite (spaces_channel ws2 b _ Hw2 Hb1 Hb2).
    rewrite (digits1_app b _ Hb1 Hb2 Htail). reflexivity. }
  split; exact Hcore.
Qed.

Lemma exec_matchAt (s : string) (m : string * string * string) :
  RgbRegex.matchAt s = Some m -> RgbRegex.exec s = Some m.
Proof. intros H. destruct s; cbn [RgbRegex.exec]; now rewrite H. Qed.

Lemma toUpperCase_app (a b : string) :
  Js.toUpperCase (a ++ b) = Js.toUpperCase a ++ Js.toUpperCase b.
Proof.
  induction a as [|c a IH]; [reflexivity|].
  rewrite append_cons. cbn [Js.toUpperCase].
  destruct (Js.code c =? 223)%N; rewrite IH; reflexivity.
Qed.

Lemma exec_colourText (fn r ws1 g ws2 b tail : string) :
  fn = "rgb" \/ fn = "rgba" ->
  isChannel r = true -> isChannel g = true -> isChannel b = true ->
  allWhite ws1 = true -> allWhite ws2 = true ->
  startsWithDigit tail = false ->
  RgbRegex.exec (colourText fn r ws1 g ws2 b tail) = Some (r, g, b).
Proof.
  intros Hfn Hr Hg Hb Hw1 Hw2 Htail.
  destruct (matchAt_channels r ws1 g ws2 b tail Hr Hg Hb Hw1 Hw2 Htail) as [M1 M2].
  apply exec_matchAt. destruct Hfn as [-> | ->]; [exact M1 | exact M2].
Qed.

Lemma colourText_guard (fn r ws1 g ws2 b tail : string) :
  fn = "rgb" \/ fn = "rgba" ->
  colourText fn r ws1 g ws2 b tail <> "rgba(0, 0, 0, 0)" ->
  negb (Js.truthy (colourText fn r ws1 g ws2 b tail))
  || (colourText fn r ws1 g ws2 b tail =? "transparent")
  || (colourText fn r ws1 g ws2 b tail =? "rgba(0, 0, 0, 0)") = false.
Proof.
  intros Hfn Hne. apply String.eqb_neq in Hne. rewrite Hne.
  destruct Hfn as [-> | ->]; reflexivity.
Qed.

(** C1, as the code has it.  The inspector's normaliser answers
    [transparent] for the empty string, the keyword and the exact text
    [rgba(0, 0, 0, 0)] (the style modal's normaliser answers [null]
    there).  For every other text that consists of [rgb] or [rgba], an
    opening parenthesis and three channels, each a run of decimal digits
    that reads as a number from 0 to 255, separated by commas that may be
    followed by white space, and then anything that does not go on with a
    digit, both answer [#] and the six upper-case hexadecimal digits of
    the channels, a string of seven characters matching
    [#[0-9A-F]{6}]. *)
Theorem rgbToHex_normalises (fn r ws1 g ws2 b tail : string)
  (Hfn : fn = "rgb" \/ fn = "rgba")
  (Hr : isChannel r = true) (Hg : isChannel g = true) (Hb : isChannel b = true)
  (Hw1 : allWhite ws1 = true) (Hw2 : allWhite ws2 = true)
  (Htail : startsWithDigit tail = false)
  (Hne : colourText fn r ws1 g ws2 b tail <> "rgba(0, 0, 0, 0)") :
  (SectionInspect.rgbToHex "" = "transparent"
   /\ SectionInspect.rgbToHex "transparent" = "transparent"
   /\ SectionInspect.rgbToHex "rgba(0, 0, 0, 0)" = "transparent")
  /\ (StyleDebug.rgbToHex "" = None
      /\ StyleDebug.rgbToHex "transparent" = None
      /\ StyleDebug.rgbToHex "rgba(0, 0, 0, 0)" = None)
  /\ SectionInspect.rgbToHex (colourText fn r ws1 g ws2 b tail)
     = "#" ++ upperHexByte (Js.parseIntDigits r) ++ upperHexByte (Js.parseIntDigits g)
       ++ upperHexByte (Js.parseIntDigits b)
  /\ StyleDebug.rgbToHex (colourText fn r ws1 g ws2 b tail)
     = Some ("#" ++ upperHexByte (Js.parseIntDigits r) ++ upperHexByte (Js.parseIntDigits g)
             ++ upperHexByte (Js.parseIntDigits b))
  /\ isHex6 (SectionInspect.rgbToHex (colourText fn r ws1 g ws2 b tail)) = true
  /\ String.length (SectionInspect.rgbToHex (colourText fn r ws1 g ws2 b tail)) = 7%nat.
Proof.
  split; [repeat split|]. split; [repeat split|].
  destruct (isChannel_spec r Hr) as (_ & _ & Hrn).
  destruct (isChannel_spec g Hg) as (_ & _ & Hgn).
  destruct (isChannel_spec b Hb) as (_ & _ & Hbn).
  destruct (channel_ok _ Hrn) as (_ & _ & _ & R4 & R5 & R6).
  destruct (channel_ok _ Hgn) as (_ & _ & _ & G4 & G5 & G6).
  destruct (channel_ok _ Hbn) as (_ & _ & _ & B4 & B5 & B6).
  assert (Hout : SectionInspect.rgbToHex (colourText fn r ws1 g ws2 b tail)
                 = "#" ++ upperHexByte (Js.parseIntDigits r)
                   ++ upperHexByte (Js.parseIntDigits g)
                   ++ upperHexByte (Js.parseIntDigits b)).
  { unfold SectionInspect.rgbToHex.
    rewrite (colourText_guard fn r ws1 g ws2 b tail Hfn Hne).
    rewrite (exec_colourText fn r ws1 g ws2 b tail Hfn Hr Hg Hb Hw1 Hw2 Htail).
    cbv zeta. rewrite !toUpperCase_app, R4, G4, B4. reflexivity. }
  split; [exact Hout|]. split.
  - unfold StyleDebug.rgbToHex.
    rewrite (colourText_guard fn r ws1 g ws2 b tail Hfn Hne).
    rewrite (exec_colourText fn r ws1 g ws2 b tail Hfn Hr Hg Hb Hw1 Hw2 Htail).
    cbv zeta. cbn [map Js.join]. rewrite !append_nil.
    rewrite !toUpperCase_app, R5, G5, B5. reflexivity.
  - rewrite Hout. unfold upperHexByte in *.
    cbn [list_ascii_of_string forallb] in R6, G6, B6.
    rewrite !andb_true_iff in R6, G6, B6.
    rewrite !append_cons, !append_nil. split; [|reflexivity].
    cbn [isHex6 String.length Nat.eqb list_ascii_of_string forallb andb].
    rewrite !andb_true_iff. tauto.
Qed.

Lemma rgbToHex_normalises_witness :
  SectionInspect.rgbToHex "rgb(221, 103, 39)" = "#DD6727"
  /\ StyleDebug.rgbToHex "rgba(0, 84, 150, 0.5)" = Some "#005496"
  /\ SectionInspect.rgbToHex "rgb(1,2,3)" = "#010203".
Proof.
  split; [|split].
  - assert (Hne : colourText "rgb" "221" " " "103" " " "39" ")" <> "rgba(0, 0, 0, 0)")
      by discriminate.
    exact (proj1 (proj2 (proj2
      (rgbToHex_normalises "rgb" "221" " " "103" " " "39" ")" (or_introl eq_refl)
         eq_refl eq_refl eq_refl eq_refl eq_refl eq_refl Hne)))).
  - assert (Hne : colourText "rgba" "0" " " "84" " " "150" ", 0.5)" <> "rgba(0, 0, 0, 0)")
      by discriminate.
    exact (proj1 (proj2 (proj2 (proj2
      (rgbToHex_normalises "rgba" "0" " " "84" " " "150" ", 0.5)" (or_intror eq_refl)
         eq_refl eq_refl eq_refl eq_refl eq_refl eq_refl Hne))))).
  - assert (Hne : colourText "rgb" "1" "" "2" "" "3" ")" <> "rgba(0, 0, 0, 0)")
      by discriminate.
    exact (proj1 (proj2 (proj2
      (rgbToHex_normalises "rgb" "1" "" "2" "" "3" ")" (or_introl eq_refl)
         eq_refl eq_refl eq_refl eq_refl eq_refl eq_refl Hne)))).
Defined.

(** Where the pattern finds no three comma-separated channels the text
    is handed back as it is: the space-separated notation, and white
    space between the parenthesis and the first channel. *)
Example rgbToHex_other_separators :
  SectionInspect.rgbToHex "rgb(1 2 3)" = "rgb(1 2 3)"
  /\ SectionInspect.rgbToHex "rgb( 1, 2, 3)" = "rgb( 1, 2, 3)"
  /\ StyleDebug.rgbToHex "rgb(1 2 3)" = Some "rgb(1 2 3)".
Proof. repeat split. Qed.

(** A fully transparent colour whose channels are not all zero is not
    reported as [transparent]: the test is on the text
    [rgba(0, 0, 0, 0)], not on the alpha channel. *)
Lemma rgbToHex_alpha_zero_not_transparent :
  SectionInspect.rgbToHex "rgba(255, 0, 0, 0)" = "#FF0000"
  /\ SectionInspect.rgbToHex "rgba(255, 0, 0, 0)" <> "transparent".
Proof. split; [reflexivity | discriminate]. Qed.

(** *** Copying: what comes back to the caller *)

(** The events of the text-area technique once [execCommand] has been
    called: the copy tool logs an error when the call throws and removes
    the text area in both cases; the inspector does the same in the
    other order. *)
Definition toolFallback (text : string) (pf : Browser.Platform) : list Browser.Event :=
  ([Browser.CreateTextarea text; Browser.AppendToBody; Browser.SelectTextarea;
    Browser.ExecCommandCopy; Browser.RemoveFromBody]
   ++ (if Browser.execCommand pf is Browser.ExecThrows then [Browser.ConsoleError] else []))%list.

Definition inspectorFallback (text : string) (pf : Browser.Platform) : list Browser.Event :=
  ([Browser.CreateTextarea text; Browser.AppendToBody; Browser.FocusTextarea;
    Browser.SelectTextarea; Browser.ExecCommandCopy]
   ++ (if Browser.execCommand pf is Browser.ExecThrows then [Browser.ConsoleError] else [])
   ++ [Browser.RemoveFromBody])%list.

(** On every platform the three copy operations return a boolean and
    never throw.  Each tries [navigator.clipboard.writeText] first when
    the API is there and goes on to the text-area technique when the API
    is missing or the call rejects.  The inspector reports what
    [execCommand] returned; the copy tool reports [false] only when
    [execCommand] throws. *)
Lemma copy_never_throws (pf : Browser.Platform) (text : string) :
  Browser.run (SectionCopy.copyToClipboard text) pf
  = (match Browser.clipboard pf with
     | Browser.ApiResolves => [Browser.ClipboardWriteText text]
     | Browser.ApiRejects => Browser.ClipboardWriteText text :: toolFallback text pf
     | Browser.ApiMissing => toolFallback text pf
     end,
     Browser.Returned
       match Browser.clipboard pf, Browser.execCommand pf with
       | Browser.ApiResolves, _ => true
       | _, Browser.ExecThrows => false
       | _, Browser.ExecReturns _ => true
       end)
  /\ Browser.run (SectionInspect.fallbackCopyText text) pf
     = (inspectorFallback text pf,
        Browser.Returned
          match Browser.execCommand pf with
          | Browser.ExecReturns ok => ok
          | Browser.ExecThrows => false
          end)
  /\ Browser.run (SectionInspect.copyReport text) pf
     = (match Browser.clipboard pf with
        | Browser.ApiResolves => [Browser.ClipboardWriteText text]
        | Browser.ApiRejects =>
            Browser.ClipboardWriteText text :: Browser.ConsoleWarn
            :: inspectorFallback text pf
        | Browser.ApiMissing => inspectorFallback text pf
        end,
        Browser.Returned
          match Browser.clipboard pf, Browser.execCommand pf with
          | Browser.ApiResolves, _ => true
          | _, Browser.ExecThrows => false
          | _, Browser.ExecReturns ok => ok
          end).
Proof. destruct pf as [[| |] [|ok]]; repeat split. Qed.

(** C7.  The copy tool does not report a failed copy.  When the
    clipboard API rejects or is missing and [execCommand('copy')] returns
    [false], nothing has been copied, and [copyToClipboard] of the copy
    tool still returns [true]: it never looks at what [execCommand]
    returns.  On the same platforms [fallbackCopyText] and the copy
    action of the inspector return [false]. *)
Theorem copyToClipboard_reports_failed_copy_as_success (text : string) :
  let rejecting := {| Browser.clipboard := Browser.ApiRejects;
                      Browser.execCommand := Browser.ExecReturns false |} in
  let missing := {| Browser.clipboard := Browser.ApiMissing;
                    Browser.execCommand := Browser.ExecReturns false |} in
  Browser.run (SectionCopy.copyToClipboard text) rejecting
  = ([Browser.ClipboardWriteText text; Browser.CreateTextarea text; Browser.AppendToBody;
      Browser.SelectTextarea; Browser.ExecCommandCopy; Browser.RemoveFromBody],
     Browser.Returned true)
  /\ Browser.run (SectionCopy.copyToClipboard text) missing
     = ([Browser.CreateTextarea text; Browser.AppendToBody; Browser.SelectTextarea;
         Browser.ExecCommandCopy; Browser.RemoveFromBody],
        Browser.Returned true)
  /\ snd (Browser.run (SectionInspect.fallbackCopyText text) rejecting)
     = Browser.Returned false
  /\ snd (Browser.run (SectionInspect.copyReport text) rejecting) = Browser.Returned false
  /\ snd (Browser.run (SectionInspect.copyReport text) missing) = Browser.Returned false.
Proof. cbv zeta. repeat split. Qed.

(** With the clipboard API rejecting and [execCommand] succeeding, the
    fallback runs and the operation reports success. *)
Example copy_fallback_after_rejection :
  Browser.run (SectionCopy.copyToClipboard "report")
    {| Browser.clipboard := Browser.ApiRejects;
       Browser.execCommand := Browser.ExecReturns true |}
  = ([Browser.ClipboardWriteText "report"; Browser.CreateTextarea "report";
      Browser.AppendToBody; Browser.SelectTextarea; Browser.ExecCommandCopy;
      Browser.RemoveFromBody],
     Browser.Returned true).
Proof. reflexivity. Qed.

(** *** The conflict scan is de-duplicated and capped *)

Definition conflictText (c : StyleDebug.Conflict) : string :=
  StyleDebug.element c ++ StyleDebug.type c ++ StyleDebug.detail c.

Definition conflictKey (c : StyleDebug.Conflict) : string * string * string :=
  (StyleDebug.element c, StyleDebug.type c, StyleDebug.detail c).

Lemma dedupe_fresh (seen : gset string) (cs : list StyleDebug.Conflict) (c : StyleDebug.Conflict) :
  In c (StyleDebug.dedupe seen cs) -> conflictText c ∉ seen.
Proof.
  revert seen. induction cs as [|d cs IH]; intros seen Hin; [contradiction|].
  cbn [StyleDebug.dedupe] in Hin. cbv zeta in Hin.
  destruct (decide _) as [Hs|Hs].
  - now apply IH.
  - destruct Hin as [<- | Hin]; [exact Hs|].
    apply IH in Hin. set_solver.
Qed.

Lemma dedupe_NoDup (seen : gset string) (cs : list StyleDebug.Conflict) :
  List.NoDup (map conflictText (StyleDebug.dedupe seen cs)).
Proof.
  revert seen. induction cs as [|d cs IH]; intros seen; [constructor|].
  cbn [StyleDebug.dedupe]. cbv zeta. destruct (decide _) as [Hs|Hs]; [apply IH|].
  cbn [map]. constructor; [|apply IH].
  intros Hin. apply in_map_iff in Hin. destruct Hin as (c & Hc & Hin).
  apply dedupe_fresh in Hin. unfold conflictText in Hc. set_solver.
Qed.


Lemma NoDup_firstn {A} (n : nat) (l : list A) : List.NoDup l -> List.NoDup (firstn n l).
Proof.
  revert n. induction l as [|x l IH]; intros [|n] H; cbn; try constructor.
  - inversion H; subst. intros Hin. apply H2.
    rewrite <- (firstn_skipn n l). apply in_or_app. now left.
  - inversion H; subst. now apply IH.
Qed.

Lemma NoDup_map_factor {A B C} (f : A -> B) (g : B -> C) (l : list A) :
  List.NoDup (map (fun x => g (f x)) l) -> List.NoDup (map f l).
Proof.
  intros H. rewrite <- (map_map f g) in H. now apply NoDup_map_inv in H.
Qed.

(** C10. The conflict scan returns at most 100 entries, and no two of
    them have the same element selector, conflict type and detail. *)
Theorem scanConflicts_capped_distinct (isDark : bool) (sheets : list StyleDebug.Sheet)
  (page : list StyleDebug.El) :
  (length (StyleDebug.scanConflicts isDark sheets page) <= 100)%nat
  /\ List.NoDup (map conflictKey (StyleDebug.scanConflicts isDark sheets page))
  /\ List.NoDup (map conflictText (StyleDebug.scanConflicts isDark sheets page)).
Proof.
  unfold StyleDebug.scanConflicts. cbv zeta. split; [apply firstn_le_length|].
  assert (Htext : forall l,
    List.NoDup (map conflictText (firstn 100 (StyleDebug.dedupe ∅ l)))).
  { intros l. rewrite <- firstn_map. apply NoDup_firstn, dedupe_NoDup. }
  split; [|apply Htext].
  apply (NoDup_map_factor conflictKey (fun k => fst (fst k) ++ snd (fst k) ++ snd k)).
  apply Htext.
Qed.

(** Two elements with the same selector and the same inline override
    give one entry. *)
Example scanConflicts_merges :
  let el := {| StyleDebug.tagName := "DIV"; StyleDebug.elId := "";
               StyleDebug.className := Some "promo";
               StyleDebug.ancestorIds := []; StyleDebug.offsetParentNull := false;
               StyleDebug.computed := fun _ => "rgb(0, 0, 0)";
               StyleDebug.fontSizePx := None; StyleDebug.fontWeightInt := None;
               StyleDebug.spacingPx := fun _ => None;
               StyleDebug.styleAttr := Some "color: red";
               StyleDebug.inlineProp := fun p => if p =? "color" then "red" else "";
               StyleDebug.innerText := "Sale";
               StyleDebug.matches := fun _ => Some false |} in
  map conflictKey (StyleDebug.scanConflicts false [] [el; el])
  = [("div.promo", "inline-override", "Inline color override")].
Proof. vm_compute. reflexivity. Qed.

(** *** The example lists of the style scan *)

Section MapInvariants.
Context {K V : Type} `{EqDecision K}.
Variable P : K * V -> Prop.

Lemma set_Forall (k : K) (v : V) (m : JsMap.t K V) :
  Forall P m -> P (k, v) -> Forall P (JsMap.set k v m).
Proof.
  intros Hm Hv. induction m as [|[k' v'] m IH]; cbn [JsMap.set].
  - constructor; [exact Hv | constructor].
  - inversion Hm; subst. destruct (decide (k' = k)) as [->|Hne].
    + constructor; assumption.
    + constructor; [assumption | now apply IH].
Qed.

Lemma ensure_Forall (k : K) (v : V) (m : JsMap.t K V) :
  Forall P m -> P (k, v) -> Forall P (StyleDebug.ensure k v m).
Proof.
  intros Hm Hv. unfold StyleDebug.ensure.
  destruct (JsMap.has k m); [exact Hm | now apply set_Forall].
Qed.

Lemma update_Forall (k : K) (f : V -> V) (m : JsMap.t K V) :
  Forall P m -> (forall k' v, P (k', v) -> P (k', f v)) ->
  Forall P (JsMap.update k f m).
Proof.
  intros Hm Hf. induction m as [|[k' v'] m IH]; cbn [JsMap.update]; [constructor|].
  inversion Hm; subst. destruct (decide (k' = k)).
  - constructor; [now apply Hf | assumption].
  - constructor; [assumption | now apply IH].
Qed.

End MapInvariants.

Lemma insertBy_Forall {A} (P : A -> Prop) (cmp : A -> A -> Z) (x : A) (l : list A) :
  P x -> Forall P l -> Forall P (JsMap.insertBy cmp x l).
Proof.
  intros Hx Hl. induction l as [|y l IH]; cbn [JsMap.insertBy].
  - constructor; [exact Hx | constructor].
  - inversion Hl; subst. destruct (cmp x y <=? 0)%Z.
    + constructor; [exact Hx | exact Hl].
    + constructor; [assumption | now apply IH].
Qed.

Lemma sortBy_Forall {A} (P : A -> Prop) (cmp : A -> A -> Z) (l : list A) :
  Forall P l -> Forall P (JsMap.sortBy cmp l).
Proof.
  unfold JsMap.sortBy. induction 1 as [|x l Hx Hl IH]; cbn [foldr]; [constructor|].
  now apply insertBy_Forall.
Qed.

Lemma pushExample_cap (selector : string) (els : list string) :
  (length els <= 3)%nat -> (length (StyleDebug.pushExample selector els) <= 3)%nat.
Proof.
  intros H. unfold StyleDebug.pushExample.
  destruct (Nat.ltb_spec (length els) 3); [|exact H].
  rewrite length_app. cbn. lia.
Qed.

(** The four capped tables keep lists of at most three selectors. *)
Definition cappedTables (tb : StyleDebug.Tables) : Prop :=
  Forall (fun kv => (length (snd kv) <= 3)%nat) (StyleDebug.seenFontSizes tb)
  /\ Forall (fun kv => (length (snd kv) <= 3)%nat) (StyleDebug.seenFontWeights tb)
  /\ Forall (fun kv => (length (StyleDebug.cd_elements (snd kv)) <= 3)%nat)
            (StyleDebug.seenColors tb)
  /\ Forall (fun kv => (length (StyleDebug.sd_elements (snd kv)) <= 3)%nat)
            (StyleDebug.seenSpacing tb).

Lemma capped_update_list {K} `{EqDecision K} (key : K) (selector : string)
  (m : JsMap.t K (list string)) :
  Forall (fun kv => (length (snd kv) <= 3)%nat) m ->
  Forall (fun kv => (length (snd kv) <= 3)%nat)
    (JsMap.update key (StyleDebug.pushExample selector) (StyleDebug.ensure key [] m)).
Proof.
  intros Hm. apply update_Forall.
  - apply ensure_Forall; [exact Hm | cbn; lia].
  - intros k' v Hv. cbn in *. now apply pushExample_cap.
Qed.

Lemma capped_colors (key selector : string) (init : StyleDebug.ColorData)
  (m : JsMap.t string StyleDebug.ColorData) :
  StyleDebug.cd_elements init = [] ->
  Forall (fun kv => (length (StyleDebug.cd_elements (snd kv)) <= 3)%nat) m ->
  Forall (fun kv => (length (StyleDebug.cd_elements (snd kv)) <= 3)%nat)
    (JsMap.update key (StyleDebug.pushColorExample selector) (StyleDebug.ensure key init m)).
Proof.
  intros Hinit Hm. apply update_Forall.
  - apply ensure_Forall; [exact Hm | cbn; rewrite Hinit; cbn; lia].
  - intros k' v Hv. cbn in *. now apply pushExample_cap.
Qed.

Lemma capped_spacing_prop (selector : string) (el : StyleDebug.El)
  (m : JsMap.t Z StyleDebug.SpacingData) (label : string) :
  Forall (fun kv => (length (StyleDebug.sd_elements (snd kv)) <= 3)%nat) m ->
  Forall (fun kv => (length (StyleDebug.sd_elements (snd kv)) <= 3)%nat)
    (StyleDebug.scanSpacingProp selector el m label).
Proof.
  intros Hm. unfold StyleDebug.scanSpacingProp.
  destruct (StyleDebug.parseSpacingValue _ _) as [value|]; [|exact Hm].
  destruct (decide _); [|exact Hm]. cbv zeta.
  apply update_Forall.
  - apply ensure_Forall; [exact Hm | cbn; lia].
  - intros k' v Hv. cbn in *. now apply pushExample_cap.
Qed.

Lemma capped_scanElement (isDark : bool) (tb : StyleDebug.Tables) (el : StyleDebug.El) :
  cappedTables tb -> cappedTables (StyleDebug.scanElement isDark tb el).
Proof.
  intros (Hs & Hw & Hc & Hp). unfold StyleDebug.scanElement.
  destruct (StyleDebug.closestModal el); [repeat split; assumption|].
  destruct (StyleDebug.hidden el); [repeat split; assumption|].
  cbv zeta. unfold cappedTables. cbn [StyleDebug.seenFontSizes StyleDebug.seenFontWeights
    StyleDebug.seenColors StyleDebug.seenSpacing]. repeat split.
  - unfold StyleDebug.scanFontSize. destruct (StyleDebug.fontSizePx el); [|exact Hs].
    destruct (decide _); [exact Hs|]. now apply capped_update_list.
  - unfold StyleDebug.scanFontWeight. destruct (StyleDebug.fontWeightInt el); [|exact Hw].
    destruct (decide _); [exact Hw|]. now apply capped_update_list.
  - assert (Ht : Forall (fun kv => (length (StyleDebug.cd_elements (snd kv)) <= 3)%nat)
                   (StyleDebug.scanTextColor isDark (StyleDebug.getElementSelector el) el
                      (StyleDebug.seenColors tb))).
    { unfold StyleDebug.scanTextColor.
      destruct (StyleDebug.rgbToHex _); [|exact Hc].
      destruct (_ && _); [|exact Hc]. cbv zeta. now apply capped_colors. }
    unfold StyleDebug.scanBackground.
    destruct (StyleDebug.rgbToHex (StyleDebug.computed el "background-color")); [|exact Ht].
    destruct (Js.truthy _); [|exact Ht]. cbv zeta. now apply capped_colors.
  - generalize StyleDebug.spacingProps. intros props.
    revert Hp. generalize (StyleDebug.seenSpacing tb).
    induction props as [|label props IH]; intros m Hm; cbn [fold_left]; [exact Hm|].
    apply IH. now apply capped_spacing_prop.
Qed.

Lemma capped_fold (isDark : bool) (els : list StyleDebug.El) (tb : StyleDebug.Tables) :
  cappedTables tb -> cappedTables (fold_left (StyleDebug.scanElement isDark) els tb).
Proof.
  revert tb. induction els as [|el els IH]; intros tb Htb; cbn [fold_left]; [exact Htb|].
  apply IH. now apply capped_scanElement.
Qed.

(** The font-family table: which elements it records. *)
Definition countsFamily (el : StyleDebug.El) : bool :=
  negb (StyleDebug.closestModal el) && negb (StyleDebug.hidden el)
  && Js.truthy (StyleDebug.computed el "font-family")
  && negb (StyleDebug.isExpectedFontFamily (StyleDebug.computed el "font-family")).

Definition familySelectors (font : string) (els : list StyleDebug.El) : list string :=
  map StyleDebug.getElementSelector
    (List.filter (fun el => countsFamily el && (StyleDebug.computed el "font-family" =? font)) els).

Definition familyStep (m : JsMap.t string (list string)) (el : StyleDebug.El) :=
  if StyleDebug.closestModal el then m
  else if StyleDebug.hidden el then m
  else StyleDebug.scanFontFamily (StyleDebug.getElementSelector el) el m.

Lemma fold_families (isDark : bool) (els : list StyleDebug.El) (tb : StyleDebug.Tables) :
  StyleDebug.seenFontFamilies (fold_left (StyleDebug.scanElement isDark) els tb)
  = fold_left familyStep els (StyleDebug.seenFontFamilies tb).
Proof.
  revert tb. induction els as [|el els IH]; intros tb; cbn [fold_left]; [reflexivity|].
  rewrite IH. f_equal. unfold StyleDebug.scanElement, familyStep.
  destruct (StyleDebug.closestModal el); [reflexivity|].
  destruct (StyleDebug.hidden el); reflexivity.
Qed.

Section MapEntries.
Context {V : Type}.
Implicit Types (m : JsMap.t string V).

Lemma has_false_iff (k : string) m : JsMap.has k m = false <-> ~ In k (map fst m).
Proof.
  induction m as [|[k' v] m IH]; cbn [JsMap.has map fst In]; [tauto|].
  destruct (decide (k' = k)); [split; [discriminate | tauto]|].
  rewrite IH. tauto.
Qed.

Lemma set_absent (k : string) (v : V) m :
  JsMap.has k m = false -> JsMap.set k v m = (m ++ [(k, v)])%list.
Proof.
  induction m as [|[k' v'] m IH]; cbn [JsMap.has JsMap.set]; [reflexivity|].
  destruct (decide (k' = k)); [discriminate|]. intros H. now rewrite IH.
Qed.

Lemma update_keys (k : string) (f : V -> V) m :
  map fst (JsMap.update k f m) = map fst m.
Proof.
  induction m as [|[k' v'] m IH]; cbn [JsMap.update map fst]; [reflexivity|].
  destruct (decide (k' = k)); cbn [map fst]; [reflexivity | now rewrite IH].
Qed.

Lemma update_In (key : string) (f : V -> V) m (k : string) (v : V) :
  List.NoDup (map fst m) ->
  In (k, v) (JsMap.update key f m) ->
  (k <> key /\ In (k, v) m) \/ (k = key /\ exists old, In (key, old) m /\ v = f old).
Proof.
  induction m as [|[k' v'] m IH]; cbn [JsMap.update map fst]; intros Hnd Hin;
    [contradiction|].
  inversion Hnd as [|? ? Hnotin Hnd']; subst.
  destruct (decide (k' = key)) as [->|Hne].
  - destruct Hin as [Heq | Hin].
    + injection Heq as <- <-. right. split; [reflexivity|]. exists v'. split; [now left | reflexivity].
    + left. split; [|now right].
      intros ->. apply Hnotin. apply in_map_iff. now exists (key, v).
  - destruct Hin as [Heq | Hin].
    + injection Heq as <- <-. left. split; [exact Hne | now left].
    + destruct (IH Hnd' Hin) as [(Hk & Hi) | (Hk & old & Hi & Hv)].
      * left. split; [exact Hk | now right].
      * right. split; [exact Hk|]. exists old. split; [now right | exact Hv].
Qed.

End MapEntries.

Definition familiesInv (done : list StyleDebug.El) (m : JsMap.t string (list string)) : Prop :=
  List.NoDup (map fst m)
  /\ (forall k v, In (k, v) m -> v = familySelectors k done)
  /\ (forall k, JsMap.has k m = false -> familySelectors k done = []).

Lemma familySelectors_snoc (font : string) (done : list StyleDebug.El) (el : StyleDebug.El) :
  familySelectors font (done ++ [el])
  = (familySelectors font done
     ++ (if countsFamily el && (StyleDebug.computed el "font-family" =? font)
         then [StyleDebug.getElementSelector el] else []))%list.
Proof.
  unfold familySelectors. rewrite List.filter_app, map_app. cbn [List.filter].
  destruct (countsFamily el && _); reflexivity.
Qed.

Lemma familyStep_skip (m : JsMap.t string (list string)) (el : StyleDebug.El) :
  countsFamily el = false -> familyStep m el = m.
Proof.
  unfold countsFamily, familyStep, StyleDebug.scanFontFamily.
  destruct (StyleDebug.closestModal el); [reflexivity|].
  destruct (StyleDebug.hidden el); [reflexivity|].
  cbn [negb andb]. intros ->. reflexivity.
Qed.

Lemma familyStep_count (m : JsMap.t string (list string)) (el : StyleDebug.El) :
  countsFamily el = true ->
  familyStep m el
  = JsMap.update (StyleDebug.computed el "font-family")
      (fun els => (els ++ [StyleDebug.getElementSelector el])%list)
      (StyleDebug.ensure (StyleDebug.computed el "font-family") [] m).
Proof.
  unfold countsFamily, familyStep, StyleDebug.scanFontFamily.
  destruct (StyleDebug.closestModal el); [discriminate|].
  destruct (StyleDebug.hidden el); [discriminate|].
  cbn [negb andb]. intros ->. reflexivity.
Qed.

Lemma familiesInv_step (done : list StyleDebug.El) (m : JsMap.t string (list string))
  (el : StyleDebug.El) :
  familiesInv done m -> familiesInv (done ++ [el]) (familyStep m el).
Proof.
  intros (Hnd & Hval & Habs).
  destruct (countsFamily el) eqn:Hc.
  - rewrite (familyStep_count m el Hc).
    set (key := StyleDebug.computed el "font-family").
    set (sel := StyleDebug.getElementSelector el).
    assert (Hens : List.NoDup (map fst (StyleDebug.ensure key [] m))
                   /\ (forall k v, In (k, v) (StyleDebug.ensure key [] m) ->
                                   v = familySelectors k done)
                   /\ (forall k, JsMap.has k m = false -> k <> key ->
                                 ~ In k (map fst (StyleDebug.ensure key [] m)))
                   /\ In key (map fst (StyleDebug.ensure key [] m))).
    { unfold StyleDebug.ensure. destruct (JsMap.has key m) eqn:Hh.
      - repeat split; auto.
        + intros k Hk _. now apply has_false_iff.
        + destruct (in_dec string_dec key (map fst m)) as [Hi|Hn]; [exact Hi|].
          apply has_false_iff in Hn. congruence.
      - rewrite (set_absent key [] m Hh), map_app. cbn [map fst]. repeat split.
        + apply List.NoDup_app; [exact Hnd | repeat constructor; auto |].
          intros x Hx [<- | []]. now apply has_false_iff in Hh.
        + intros k v Hin. apply in_app_or in Hin. destruct Hin as [Hin | [Heq | []]].
          * now apply Hval.
          * injection Heq as <- <-. symmetry. now apply Habs.
        + intros k Hk Hne Hin. apply in_app_or in Hin.
          destruct Hin as [Hin | [Heq | []]]; [|congruence].
          now apply has_false_iff in Hk.
        + apply in_or_app. right. now left. }
    destruct Hens as (Hnd' & Hval' & Habs' & Hkey).
    repeat split.
    + now rewrite update_keys.
    + intros k v Hin. rewrite familySelectors_snoc, Hc. cbn [andb].
      apply (update_In key _ _ k v Hnd') in Hin.
      destruct Hin as [(Hne & Hin) | (-> & old & Hin & ->)].
      * fold key. destruct (String.eqb_spec key k); [congruence|].
        rewrite app_nil_r. now apply Hval'.
      * fold key. rewrite String.eqb_refl. f_equal. now apply Hval'.
    + intros k Hk. rewrite familySelectors_snoc, Hc. cbn [andb]. fold key.
      apply has_false_iff in Hk. rewrite update_keys in Hk.
      destruct (String.eqb_spec key k) as [<- | Hne]; [contradiction|].
      rewrite app_nil_r. apply Habs.
      apply has_false_iff. intros Hin. apply Hk.
      unfold StyleDebug.ensure. destruct (JsMap.has key m) eqn:Hh; [exact Hin|].
      rewrite (set_absent key [] m Hh), map_app. apply in_or_app. now left.
  - rewrite (familyStep_skip m el Hc). repeat split; auto.
    + intros k v Hin. rewrite familySelectors_snoc, Hc. cbn [andb].
      rewrite app_nil_r. now apply Hval.
    + intros k Hk. rewrite familySelectors_snoc, Hc. cbn [andb].
      rewrite app_nil_r. now apply Habs.
Qed.

Lemma familiesInv_fold (els done : list StyleDebug.El) (m : JsMap.t string (list string)) :
  familiesInv done m -> familiesInv (done ++ els) (fold_left familyStep els m).
Proof.
  revert done m. induction els as [|el els IH]; intros done m H; cbn [fold_left].
  - now rewrite app_nil_r.
  - replace (done ++ el :: els)%list with ((done ++ [el]) ++ els)%list
      by now rewrite <- app_assoc.
    apply IH. now apply familiesInv_step.
Qed.

Definition styleScanElements (page : list StyleDebug.El) : list StyleDebug.El :=
  StyleDebug.selectAllBut
    ["script"; "style"; "svg"; "path"; "circle"; "line"; "rect"; "polygon"] page.

(** C9, as the code has it.  The font-size, font-weight, colour and
    spacing tables of the full-page scan keep at most 3 example selectors
    per value.  The font-family table is not capped: each of its entries
    lists the selector of every scanned element that uses that
    unexpected family, in document order. *)
Theorem scanStyles_example_lists (isDark : bool) (page : list StyleDebug.El) :
  Forall (fun e => (length (StyleDebug.fs_elements e) <= 3)%nat)
         (StyleDebug.fontSize (StyleDebug.scanStyles isDark page))
  /\ Forall (fun e => (length (StyleDebug.fw_elements e) <= 3)%nat)
            (StyleDebug.fontWeight (StyleDebug.scanStyles isDark page))
  /\ Forall (fun e => (length (StyleDebug.c_elements e) <= 3)%nat)
            (StyleDebug.color (StyleDebug.scanStyles isDark page))
  /\ Forall (fun e => (length (StyleDebug.sp_elements e) <= 3)%nat)
            (StyleDebug.spacing (StyleDebug.scanStyles isDark page))
  /\ Forall (fun e => StyleDebug.ff_elements e
                      = familySelectors (StyleDebug.ff_value e) (styleScanElements page))
            (StyleDebug.fontFamily (StyleDebug.scanStyles isDark page)).
Proof.
  unfold StyleDebug.scanStyles. cbv zeta. fold (styleScanElements page).
  cbn [StyleDebug.fontSize StyleDebug.fontWeight StyleDebug.color StyleDebug.spacing
       StyleDebug.fontFamily].
  destruct (capped_fold isDark (styleScanElements page) StyleDebug.emptyTables)
    as (Hs & Hw & Hc & Hp).
  { repeat split; constructor. }
  repeat split.
  - apply List.Forall_map. apply sortBy_Forall.
    eapply List.Forall_impl; [|exact Hs]. intros [k v] H. exact H.
  - apply List.Forall_map. apply sortBy_Forall.
    eapply List.Forall_impl; [|exact Hw]. intros [k v] H. exact H.
  - apply sortBy_Forall. apply List.Forall_map.
    eapply List.Forall_impl; [|exact Hc]. intros [k v] H. exact H.
  - apply List.Forall_map. apply sortBy_Forall.
    eapply List.Forall_impl; [|exact Hp]. intros [k v] H. exact H.
  - apply List.Forall_map. rewrite fold_families.
    destruct (familiesInv_fold (styleScanElements page) [] []) as (_ & Hval & _).
    { split; [apply List.NoDup_nil|]. split; [intros k v []|reflexivity]. }
    cbn [app] in Hval. apply List.Forall_forall. intros [k v] Hin. cbn.
    now apply Hval.
Qed.

(** Four visible paragraphs set in an unexpected family: the one
    font-family entry lists all four of them, while the font-size entry
    stops at three. *)
Definition serifParagraph : StyleDebug.El :=
  {| StyleDebug.tagName := "P"; StyleDebug.elId := "";
     StyleDebug.className := Some "lead";
     StyleDebug.ancestorIds := []; StyleDebug.offsetParentNull := false;
     StyleDebug.computed :=
       fun p => if p =? "font-family" then "Georgia, serif"
                else if p =? "color" then "rgb(43, 44, 45)"
                else if p =? "background-color" then "rgba(0, 0, 0, 0)"
                else "0px";
     StyleDebug.fontSizePx := Some (Q2Qc (16 # 1));
     StyleDebug.fontWeightInt := Some 400%Z;
     StyleDebug.spacingPx := fun _ => Some (Q2Qc 0);
     StyleDebug.styleAttr := None;
     StyleDebug.inlineProp := fun _ => "";
     StyleDebug.innerText := "Text";
     StyleDebug.matches := fun _ => Some false |}.

Lemma scanStyles_font_family_uncapped :
  let r := StyleDebug.scanStyles false
             [serifParagraph; serifParagraph; serifParagraph; serifParagraph] in
  map StyleDebug.ff_elements (StyleDebug.fontFamily r)
  = [["p.lead"; "p.lead"; "p.lead"; "p.lead"]]
  /\ map StyleDebug.fs_elements (StyleDebug.fontSize r) = [["p.lead"; "p.lead"; "p.lead"]]
  /\ ~ Forall (fun e => (length (StyleDebug.ff_elements e) <= 3)%nat)
         (StyleDebug.fontFamily r).
Proof.
  cbv zeta. split; [vm_compute; reflexivity|]. split; [vm_compute; reflexivity|].
  intros H.
  assert (Hl : Forall (fun l : list string => (length l <= 3)%nat)
                 (map StyleDebug.ff_elements (StyleDebug.fontFamily
                    (StyleDebug.scanStyles false
                       [serifParagraph; serifParagraph; serifParagraph; serifParagraph])))).
  { apply List.Forall_map. exact H. }
  revert Hl. vm_compute. intros Hl. inversion Hl as [|? ? Hlen]. lia.
Qed.

(** *** The per-section scan: one visit *)

Section Visit.
Import SectionInspect.
Variable sectionType : option string.

(** A visit that changes the state marks the element and its class
    name, and pushes at most the entry of that element. *)
Definition marks (st st' : ScanState) (t : Target) (c : string) : Prop :=
  (uid t ∉ seenElements st)
  /\ closestId DEBUG_MODAL_ID t = false
  /\ isHidden (el t) && negb (isMediaElement t) = false
  /\ reportClass (el t) = Some c
  /\ ((c ∉ seenClasses st) \/ isImage (el t) = true)
  /\ seenElements st' = {[uid t]} ∪ seenElements st
  /\ seenClasses st' = {[c]} ∪ seenClasses st.

Lemma visit_cases (st : ScanState) (t : Target) :
  visit sectionType st t = st
  \/ exists c,
      marks st (visit sectionType st t) t c
      /\ (pushed (visit sectionType st t)
          = (pushed st ++ [(t, elementFact sectionType t c)])%list
          \/ (pushed (visit sectionType st t) = pushed st
              /\ isImage (el t) = false /\ isMediaElement t = false)).
Proof.
  unfold visit.
  destruct (decide (uid t ∈ seenElements st)) as [Hin|Hin]; [now left|].
  destruct (closestId DEBUG_MODAL_ID t) eqn:Hmodal; [now left|].
  destruct (isHidden (el t) && negb (isMediaElement t)) eqn:Hhid; [now left|].
  destruct (reportClass (el t)) as [c|] eqn:Hc; [|now left].
  destruct (bool_decide (c ∈ seenClasses st) && negb (isImage (el t))) eqn:Hdup;
    [now left|].
  right. exists c. cbv zeta.
  assert (Hfresh : (c ∉ seenClasses st) \/ isImage (el t) = true).
  { apply andb_false_iff in Hdup. destruct Hdup as [Hd|Hd].
    - left. now apply bool_decide_eq_false in Hd.
    - right. now apply negb_false_iff in Hd. }
  destruct (negb (f_textColor (elementFact sectionType t c) =? "transparent")
            || negb (f_bgColor (elementFact sectionType t c) =? "transparent")
            || isImage (el t) || isMediaElement t) eqn:Hincl.
  - split; [repeat split; auto|]. left. reflexivity.
  - split; [repeat split; auto|]. right. cbn [pushed].
    rewrite !orb_false_iff in Hincl. tauto.
Qed.

(** Once an element is in one of these situations a visit of it
    changes nothing, now or later. *)
Definition settled (st : ScanState) (t : Target) : Prop :=
  (uid t ∈ seenElements st)
  \/ closestId DEBUG_MODAL_ID t = true
  \/ isHidden (el t) && negb (isMediaElement t) = true
  \/ reportClass (el t) = None
  \/ (exists c, reportClass (el t) = Some c /\ (c ∈ seenClasses st)
                /\ isImage (el t) = false).

Lemma settled_visit_id (st : ScanState) (t : Target) :
  settled st t -> visit sectionType st t = st.
Proof.
  intros H. unfold visit.
  destruct (decide (uid t ∈ seenElements st)) as [Hin|Hin]; [reflexivity|].
  destruct (closestId DEBUG_MODAL_ID t) eqn:Hmodal; [reflexivity|].
  destruct (isHidden (el t) && negb (isMediaElement t)) eqn:Hhid; [reflexivity|].
  destruct H as [H | [H | [H | [H | (c & Hc & Hs & Hi)]]]];
    try contradiction; try congruence.
  - now rewrite H.
  - rewrite Hc, Hi. rewrite bool_decide_eq_true_2 by exact Hs. reflexivity.
Qed.

Lemma visit_grows (st : ScanState) (t : Target) :
  seenElements st ⊆ seenElements (visit sectionType st t)
  /\ seenClasses st ⊆ seenClasses (visit sectionType st t)
  /\ exists g, pushed (visit sectionType st t) = (pushed st ++ g)%list.
Proof.
  destruct (visit_cases st t) as [Heq | (c & Hm & Hp)].
  - rewrite Heq. split; [reflexivity|]. split; [reflexivity|].
    exists []. now rewrite app_nil_r.
  - destruct Hm as (_ & _ & _ & _ & _ & He & Hc).
    split; [rewrite He; apply union_subseteq_r|].
    split; [rewrite Hc; apply union_subseteq_r|].
    destruct Hp as [Hp | (Hp & _)]; rewrite Hp.
    + eexists. reflexivity.
    + exists []. now rewrite app_nil_r.
Qed.

Lemma settled_mono (st : ScanState) (t u : Target) :
  settled st u -> settled (visit sectionType st t) u.
Proof.
  destruct (visit_grows st t) as (He & Hc & _).
  intros [H | [H | [H | [H | (c & Hr & Hs & Hi)]]]]; unfold settled.
  - left. apply He, H.
  - right. left. exact H.
  - right. right. left. exact H.
  - right. right. right. left. exact H.
  - right. right. right. right. exists c. split; [exact Hr|]. split; [apply Hc, Hs | exact Hi].
Qed.

Lemma visit_settles (st : ScanState) (t : Target) :
  settled (visit sectionType st t) t.
Proof.
  destruct (visit_cases st t) as [Heq | (c & Hm & _)].
  - rewrite Heq. unfold settled, visit in *.
    destruct (decide (uid t ∈ seenElements st)) as [Hin|Hin]; [now left|].
    destruct (closestId DEBUG_MODAL_ID t) eqn:Hmodal; [auto|].
    destruct (isHidden (el t) && negb (isMediaElement t)) eqn:Hhid; [auto|].
    destruct (reportClass (el t)) as [c|] eqn:Hc; [|auto].
    destruct (bool_decide (c ∈ seenClasses st) && negb (isImage (el t))) eqn:Hdup.
    + apply andb_true_iff in Hdup. destruct Hdup as [Hd Hi].
      apply bool_decide_eq_true in Hd. apply negb_true_iff in Hi.
      do 4 right. exists c. auto.
    + exfalso. cbv zeta in Heq.
      assert (Hs : uid t ∈ seenElements st); [|contradiction].
      destruct (_ || _) in Heq; rewrite <- Heq; cbn [seenElements];
        apply elem_of_union_l, elem_of_singleton; reflexivity.
  - destruct Hm as (_ & _ & _ & _ & _ & He & _). left. rewrite He.
    apply elem_of_union_l, elem_of_singleton. reflexivity.
Qed.

End Visit.

(** *** The per-section scan: all selectors *)

Lemma number_uids (l : list (SectionInspect.Element * list SectionInspect.Element)) :
  map SectionInspect.uid (SectionInspect.number l) = seq 0 (length l).
Proof.
  unfold SectionInspect.number. rewrite map_map. cbn [SectionInspect.uid].
  generalize 0%nat. induction l as [|x l IH]; intros k; cbn; [reflexivity|].
  now rewrite IH.
Qed.

Lemma seq_sorted (n k : nat) : StronglySorted lt (seq k n).
Proof.
  revert k. induction n as [|n IH]; intros k; cbn; constructor; [apply IH|].
  apply List.Forall_forall. intros x Hx. apply in_seq in Hx. lia.
Qed.

Lemma descendants_sorted (outer : list SectionInspect.Element) (section : SectionInspect.Node) :
  StronglySorted lt (map SectionInspect.uid (SectionInspect.descendants outer section)).
Proof. unfold SectionInspect.descendants. rewrite number_uids. apply seq_sorted. Qed.

Lemma sorted_uid_inj (l : list SectionInspect.Target) (t u : SectionInspect.Target) :
  StronglySorted lt (map SectionInspect.uid l) ->
  In t l -> In u l -> SectionInspect.uid t = SectionInspect.uid u -> t = u.
Proof.
  induction l as [|x l IH]; intros Hs Ht Hu Heq; [contradiction|].
  cbn [map] in Hs. apply StronglySorted_inv in Hs. destruct Hs as [Hs Hx].
  rewrite List.Forall_forall in Hx.
  destruct Ht as [<- | Ht], Hu as [<- | Hu]; auto.
  - specialize (Hx (SectionInspect.uid u) (in_map _ _ _ Hu)). lia.
  - specialize (Hx (SectionInspect.uid t) (in_map _ _ _ Ht)). lia.
Qed.

Lemma filter_sorted (P : SectionInspect.Target -> bool) (l : list SectionInspect.Target) :
  StronglySorted lt (map SectionInspect.uid l) ->
  StronglySorted lt (map SectionInspect.uid (List.filter P l)).
Proof.
  induction l as [|x l IH]; intros Hs; [constructor|].
  cbn [map] in Hs. apply StronglySorted_inv in Hs. destruct Hs as [Hs Hx].
  cbn [List.filter]. destruct (P x); [|now apply IH].
  cbn [map]. constructor; [now apply IH|].
  rewrite List.Forall_forall in *. intros y Hy. apply Hx.
  apply in_map_iff in Hy. destruct Hy as (u & <- & Hu).
  apply filter_In in Hu. apply in_map. tauto.
Qed.

Section Scan.
Import SectionInspect.
Variable sectionType : option string.
Variable targets : list Target.
Hypothesis targets_sorted : StronglySorted lt (map uid targets).

Definition scanFrom (sels : list Selector) (st : ScanState) : ScanState :=
  fold_left (scanSelector sectionType targets) sels st.

(** A property kept by every visit of a target is kept by the scan. *)
Lemma scan_invariant (I : ScanState -> Prop) :
  (forall st t, In t targets -> I st -> I (visit sectionType st t)) ->
  forall sels st, I st -> I (scanFrom sels st).
Proof.
  intros Hstep sels. induction sels as [|sel sels IH]; intros st Hst; [exact Hst|].
  cbn [scanFrom fold_left]. apply IH. unfold scanSelector, querySelectorAll.
  assert (Hsub : forall t, In t (List.filter (fun t => matchesSelector sel (el t)) targets)
                           -> In t targets).
  { intros t Ht. apply filter_In in Ht. tauto. }
  revert Hsub st Hst. generalize (List.filter (fun t => matchesSelector sel (el t)) targets).
  intros l. induction l as [|t l IHl]; intros Hsub st Hst; [exact Hst|].
  cbn [fold_left]. apply IHl.
  - intros u Hu. apply Hsub. now right.
  - apply Hstep; [apply Hsub; now left | exact Hst].
Qed.

(** The entries pushed so far. *)
Definition classRule (a b : Target * ElementFact) : Prop :=
  f_className (snd a) = f_className (snd b) ->
  isImage (el (fst a)) = true \/ isImage (el (fst b)) = true.

Definition entriesOk (st : ScanState) : Prop :=
  (forall t f, In (t, f) (pushed st) ->
      In t targets
      /\ (uid t ∈ seenElements st)
      /\ (f_className f ∈ seenClasses st)
      /\ f = elementFact sectionType t (f_className f)
      /\ reportClass (el t) = Some (f_className f)
      /\ closestId DEBUG_MODAL_ID t = false
      /\ isHidden (el t) && negb (isMediaElement t) = false)
  /\ List.NoDup (map (fun p => uid (fst p)) (pushed st))
  /\ ForallOrdPairs classRule (pushed st).

Lemma ForallOrdPairs_snoc {A} (R : A -> A -> Prop) (l : list A) (x : A) :
  ForallOrdPairs R l -> Forall (fun a => R a x) l -> ForallOrdPairs R (l ++ [x]).
Proof.
  induction 1 as [|a l Ha Hl IH]; intros Hx; cbn.
  - constructor; constructor.
  - inversion Hx; subst. constructor; [|now apply IH].
    apply Forall_app. split; [exact Ha | constructor; [assumption | constructor]].
Qed.

Lemma entriesOk_visit (st : ScanState) (t : Target) :
  In t targets -> entriesOk st -> entriesOk (visit sectionType st t).
Proof.
  intros Ht (Hent & Hnd & Hcls).
  destruct (visit_cases sectionType st t) as [Heq | (c & Hm & Hp)];
    [rewrite Heq; exact (conj Hent (conj Hnd Hcls))|].
  destruct Hm as (Hfresh & Hmodal & Hhid & Hrc & Hc & He & Hcl).
  assert (Hold : forall u f, In (u, f) (pushed st) ->
            In u targets
            /\ (uid u ∈ seenElements (visit sectionType st t))
            /\ (f_className f ∈ seenClasses (visit sectionType st t))
            /\ f = elementFact sectionType u (f_className f)
            /\ reportClass (el u) = Some (f_className f)
            /\ closestId DEBUG_MODAL_ID u = false
            /\ isHidden (el u) && negb (isMediaElement u) = false).
  { intros u f Hin. destruct (Hent u f Hin) as (H1 & H2 & H3 & H4).
    split; [exact H1|]. split; [rewrite He; now apply elem_of_union_r|].
    split; [rewrite Hcl; now apply elem_of_union_r | exact H4]. }
  destruct Hp as [Hp | (Hp & _)]; unfold entriesOk; rewrite Hp;
    [|exact (conj Hold (conj Hnd Hcls))].
  split; [|split].
  - intros u f Hin. apply in_app_or in Hin. destruct Hin as [Hin | [Heq | []]];
      [now apply Hold|].
    injection Heq as <- <-. cbn [elementFact f_className].
    split; [exact Ht|].
    split; [rewrite He; apply elem_of_union_l, elem_of_singleton; reflexivity|].
    split; [rewrite Hcl; apply elem_of_union_l, elem_of_singleton; reflexivity|].
    auto.
  - rewrite map_app. cbn [map fst]. apply List.NoDup_app; [exact Hnd | repeat constructor; auto|].
    intros x Hx [<- | []]. apply in_map_iff in Hx. destruct Hx as ([u f] & Hu & Hin).
    cbn [fst] in Hu. destruct (Hent u f Hin) as (_ & Hseen & _).
    rewrite Hu in Hseen. contradiction.
  - apply ForallOrdPairs_snoc; [exact Hcls|].
    apply List.Forall_forall. intros [u f] Hin. unfold classRule. cbn [fst snd f_className elementFact].
    intros Hsame. destruct Hc as [Hc | Hc]; [|now right].
    destruct (Hent u f Hin) as (_ & _ & Hseen & _). rewrite Hsame in Hseen. contradiction.
Qed.

Lemma entriesOk_scan (sels : list Selector) : entriesOk (scanFrom sels emptyScan).
Proof.
  apply scan_invariant.
  - intros st t. apply entriesOk_visit.
  - split; [intros t f []|]. split; constructor.
Qed.

(** An image that has been marked has its entry. *)
Definition imagesOk (st : ScanState) : Prop :=
  forall t, In t targets -> isImage (el t) = true -> uid t ∈ seenElements st ->
            exists f, In (t, f) (pushed st).

Lemma imagesOk_visit (st : ScanState) (t : Target) :
  In t targets -> imagesOk st -> imagesOk (visit sectionType st t).
Proof.
  intros Ht Hst u Hu Himg Hseen.
  destruct (visit_cases sectionType st t) as [Heq | (c & Hm & Hp)].
  - rewrite Heq in *. now apply Hst.
  - destruct Hm as (_ & _ & _ & _ & _ & He & _). rewrite He in Hseen.
    apply elem_of_union in Hseen. destruct Hseen as [Hnew | Hold].
    + apply elem_of_singleton in Hnew.
      assert (u = t) by (apply (sorted_uid_inj targets); auto). subst u.
      destruct Hp as [Hp | (_ & Hni & _)]; [|congruence].
      rewrite Hp. eexists. apply in_or_app. right. now left.
    + destruct (Hst u Hu Himg Hold) as (f & Hf). exists f.
      destruct Hp as [Hp | (Hp & _)]; rewrite Hp; [apply in_or_app; now left | exact Hf].
Qed.

(** After the pass of a selector that matches it, an element is
    settled, and stays so. *)
Lemma settled_fold (l : list Target) (st : ScanState) (u : Target) :
  settled st u -> settled (fold_left (visit sectionType) l st) u.
Proof.
  revert st. induction l as [|t l IH]; intros st H; [exact H|].
  cbn [fold_left]. apply IH. now apply settled_mono.
Qed.

Lemma settled_after_pass (l : list Target) (st : ScanState) (u : Target) :
  In u l -> settled (fold_left (visit sectionType) l st) u.
Proof.
  revert st. induction l as [|t l IH]; intros st Hin; [contradiction|].
  cbn [fold_left]. destruct Hin as [-> | Hin]; [|now apply IH].
  apply settled_fold. apply visit_settles.
Qed.

Lemma settled_scanFrom (sels : list Selector) (st : ScanState) (u : Target) :
  settled st u -> settled (scanFrom sels st) u.
Proof.
  revert st. induction sels as [|sel sels IH]; intros st H; [exact H|].
  cbn [scanFrom fold_left]. apply IH. now apply settled_fold.
Qed.

Lemma settled_after_scan (sels : list Selector) (st : ScanState) (u : Target) (sel : Selector) :
  In sel sels -> In u targets -> matchesSelector sel (el u) = true ->
  settled (scanFrom sels st) u.
Proof.
  revert st. induction sels as [|s sels IH]; intros st Hsel Hu Hm; [contradiction|].
  cbn [scanFrom fold_left]. destruct Hsel as [-> | Hsel]; [|now apply IH].
  apply settled_scanFrom. apply settled_after_pass.
  unfold querySelectorAll. apply filter_In. auto.
Qed.

End Scan.

(** *** The order of the entries *)

(** The index of the first selector of the list that matches an
    element (the length of the list when none does). *)
Fixpoint firstMatchIndex (sels : list SectionInspect.Selector) (e : SectionInspect.Element) : nat :=
  match sels with
  | [] => 0
  | s :: r => if SectionInspect.matchesSelector s e then 0 else S (firstMatchIndex r e)
  end.

(** The entries are ordered by selector first and by document position
    second. *)
Definition orderKey (p : SectionInspect.Target * SectionInspect.ElementFact) : nat * nat :=
  (firstMatchIndex SectionInspect.selectors (SectionInspect.el (fst p)),
   SectionInspect.uid (fst p)).

Definition lexLt (a b : nat * nat) : Prop :=
  (fst a < fst b)%nat \/ (fst a = fst b /\ (snd a < snd b)%nat).

Lemma firstMatchIndex_split (pre post : list SectionInspect.Selector)
  (sel : SectionInspect.Selector) (e : SectionInspect.Element) :
  (forall s, In s pre -> SectionInspect.matchesSelector s e = false) ->
  SectionInspect.matchesSelector sel e = true ->
  firstMatchIndex (pre ++ sel :: post) e = length pre.
Proof.
  intros Hpre Hsel. induction pre as [|s pre IH]; cbn [app firstMatchIndex length].
  - now rewrite Hsel.
  - rewrite (Hpre s) by now left. f_equal. apply IH. intros s' Hs'. apply Hpre. now right.
Qed.

Lemma StronglySorted_app {A} (R : A -> A -> Prop) (l1 l2 : list A) :
  StronglySorted R l1 -> StronglySorted R l2 ->
  (forall a b, In a l1 -> In b l2 -> R a b) ->
  StronglySorted R (l1 ++ l2).
Proof.
  intros H1 H2 H12. induction H1 as [|a l1 Hs IH Ha]; cbn [app]; [exact H2|].
  constructor.
  - apply IH. intros x y Hx Hy. apply H12; [now right | exact Hy].
  - apply Forall_app. split; [exact Ha|].
    apply List.Forall_forall. intros y Hy. apply H12; [now left | exact Hy].
Qed.

Lemma group_sorted (k : nat) (g : list (SectionInspect.Target * SectionInspect.ElementFact)) :
  (forall p, In p g -> orderKey p = (k, SectionInspect.uid (fst p))) ->
  StronglySorted lt (map (fun p => SectionInspect.uid (fst p)) g) ->
  StronglySorted lexLt (map orderKey g).
Proof.
  induction g as [|p g IH]; intros Hkey Hs; [constructor|].
  cbn [map] in Hs |- *. apply StronglySorted_inv in Hs. destruct Hs as [Hs Hp].
  constructor.
  - apply IH; [|exact Hs]. intros q Hq. apply Hkey. now right.
  - apply List.Forall_forall. intros y Hy. apply in_map_iff in Hy.
    destruct Hy as (q & <- & Hq).
    rewrite (Hkey p (or_introl eq_refl)), (Hkey q (or_intror Hq)).
    right. cbn [fst snd]. split; [reflexivity|].
    rewrite List.Forall_forall in Hp. apply Hp.
    apply in_map_iff. now exists q.
Qed.

Section ScanOrder.
Import SectionInspect.
Variable sectionType : option string.
Variable targets : list Target.
Hypothesis targets_sorted : StronglySorted lt (map uid targets).

Lemma marks_not_settled (st st' : ScanState) (t : Target) (c : string) :
  marks st st' t c -> ~ settled st t.
Proof.
  intros (Hfresh & Hmodal & Hhid & Hrc & Hc & _) [H | [H | [H | [H | (d & Hd & Hs & Hi)]]]];
    try contradiction; try congruence.
  destruct Hc as [Hc | Hc]; [|congruence].
  assert (d = c) by congruence. subst d. contradiction.
Qed.

(** One pass appends entries of elements of the pass that were not
    settled before it, in document order. *)
Lemma pass_structure (l : list Target) (st : ScanState) :
  StronglySorted lt (map uid l) ->
  exists g,
    pushed (fold_left (visit sectionType) l st) = (pushed st ++ g)%list
    /\ Forall (fun p => In (fst p) l /\ ~ settled st (fst p)) g
    /\ StronglySorted lt (map (fun p => uid (fst p)) g).
Proof.
  revert st. induction l as [|t l IH]; intros st Hs.
  - exists []. cbn. rewrite app_nil_r. repeat split; constructor.
  - cbn [map] in Hs. apply StronglySorted_inv in Hs. destruct Hs as [Hs Ht].
    cbn [fold_left].
    destruct (IH (visit sectionType st t) Hs) as (g1 & Hp1 & Hf1 & Hs1).
    assert (Hf1' : Forall (fun p => In (fst p) (t :: l) /\ ~ settled st (fst p)) g1).
    { eapply List.Forall_impl; [|exact Hf1]. intros p [Hin Hns]. split; [now right|].
      intros Hset. apply Hns. now apply settled_mono. }
    destruct (visit_cases sectionType st t) as [Heq | (c & Hm & Hp)].
    + exists g1. rewrite Hp1, Heq. auto.
    + destruct Hp as [Hp | (Hp & _)].
      * exists ((t, elementFact sectionType t c) :: g1). rewrite Hp1, Hp, <- app_assoc.
        split; [reflexivity|]. split.
        -- constructor; [|exact Hf1']. cbn [fst]. split; [now left|].
           eapply marks_not_settled; exact Hm.
        -- cbn [map fst]. constructor; [exact Hs1|].
           apply List.Forall_forall. intros x Hx. apply in_map_iff in Hx.
           destruct Hx as (p & <- & Hpin).
           rewrite List.Forall_forall in Hf1. destruct (Hf1 p Hpin) as [Hin _].
           rewrite List.Forall_forall in Ht. apply Ht. now apply in_map.
      * exists g1. rewrite Hp1, Hp. auto.
Qed.

Definition ordered (k : nat) (st : ScanState) : Prop :=
  StronglySorted lexLt (map orderKey (pushed st))
  /\ Forall (fun p => (fst (orderKey p) < k)%nat) (pushed st)
  /\ Forall (fun p => In (fst p) targets) (pushed st).

Lemma scan_order (post pre : list Selector) (st : ScanState) :
  selectors = (pre ++ post)%list ->
  ordered (length pre) st ->
  (forall u s, In u targets -> In s pre -> matchesSelector s (el u) = true -> settled st u) ->
  ordered (length selectors) (scanFrom sectionType targets post st).
Proof.
  revert pre st. induction post as [|sel post IH]; intros pre st Hall Hord Hset.
  - rewrite app_nil_r in Hall. now rewrite Hall.
  - cbn [scanFrom fold_left]. apply (IH (pre ++ [sel])%list).
    + now rewrite <- app_assoc.
    + unfold scanSelector, querySelectorAll.
      set (l := List.filter (fun t => matchesSelector sel (el t)) targets).
      destruct (pass_structure l st (filter_sorted _ _ targets_sorted)) as (g & Hp & Hg & Hs).
      destruct Hord as (Hsorted & Hlt & Hin).
      assert (Hkey : Forall (fun p => orderKey p = (length pre, uid (fst p))
                                      /\ In (fst p) targets) g).
      { eapply List.Forall_impl; [|exact Hg]. intros [t f] [Htl Hns]. cbn [fst] in *.
        apply filter_In in Htl. destruct Htl as [Ht Hm]. split; [|exact Ht].
        unfold orderKey. cbn [fst]. f_equal. rewrite Hall.
        apply firstMatchIndex_split; [|exact Hm].
        intros s Hs'. destruct (matchesSelector s (el t)) eqn:Hms; [|reflexivity].
        exfalso. apply Hns. now apply (Hset t s). }
      rewrite List.Forall_forall in Hkey.
      unfold ordered. rewrite Hp, map_app, length_app. cbn [length]. repeat split.
      * apply StronglySorted_app; [exact Hsorted | |].
        -- apply (group_sorted (length pre)); [|exact Hs].
           intros q Hq. now destruct (Hkey q Hq).
        -- intros a b Ha Hb. apply in_map_iff in Ha. destruct Ha as (p & <- & Hpin).
           apply in_map_iff in Hb. destruct Hb as (q & <- & Hqin).
           destruct (Hkey q Hqin) as [-> _]. left. cbn [fst].
           rewrite List.Forall_forall in Hlt. now apply Hlt.
      * apply Forall_app. split.
        -- eapply List.Forall_impl; [|exact Hlt]. intros p Hp'. cbn beta in *. lia.
        -- apply List.Forall_forall. intros q Hq.
           destruct (Hkey q Hq) as [-> _]. cbn [fst]. lia.
      * apply Forall_app. split; [exact Hin|].
        apply List.Forall_forall. intros q Hq. now destruct (Hkey q Hq).
    + intros u s Hu Hs Hm. apply in_app_or in Hs. destruct Hs as [Hs | [<- | []]].
      * apply settled_fold. now apply (Hset u s).
      * apply settled_after_pass. apply filter_In. auto.
Qed.

End ScanOrder.

(** *** What the per-section scan reports *)

Lemma ForallOrdPairs_nth {A} (R : A -> A -> Prop) (l : list A) :
  ForallOrdPairs R l ->
  forall i j a b, (i < j)%nat -> nth_error l i = Some a -> nth_error l j = Some b -> R a b.
Proof.
  induction 1 as [|x l Hx Hl IH]; intros i j a b Hij Hi Hj.
  - destruct i; discriminate.
  - destruct j as [|j]; [lia|]. cbn [nth_error] in Hj. destruct i as [|i].
    + cbn in Hi. injection Hi as <-. rewrite List.Forall_forall in Hx.
      apply Hx. eapply nth_error_In; exact Hj.
    + cbn [nth_error] in Hi. apply (IH i j); auto; lia.
Qed.

Lemma scan_entriesOk (ty : option string) (outer : list SectionInspect.Element)
  (section : SectionInspect.Node) :
  entriesOk ty (SectionInspect.descendants outer section)
    (scanFrom ty (SectionInspect.descendants outer section)
       SectionInspect.selectors SectionInspect.emptyScan).
Proof. apply entriesOk_scan. Qed.

Lemma image_is_media (t : SectionInspect.Target) :
  SectionInspect.isImage (SectionInspect.el t) = true ->
  SectionInspect.isMediaElement t = true.
Proof. intros H. unfold SectionInspect.isMediaElement. now rewrite H. Qed.

Lemma image_reportClass (e : SectionInspect.Element) :
  SectionInspect.isImage e = true -> exists c, SectionInspect.reportClass e = Some c.
Proof.
  intros H. unfold SectionInspect.reportClass. rewrite H.
  destruct (SectionInspect.getPrimaryClass e); eauto.
Qed.

Lemma image_reported (ty : option string) (outer : list SectionInspect.Element)
  (section : SectionInspect.Node) (t : SectionInspect.Target) :
  In t (SectionInspect.descendants outer section) ->
  SectionInspect.isImage (SectionInspect.el t) = true ->
  SectionInspect.closestId SectionInspect.DEBUG_MODAL_ID t = false ->
  exists f, In (t, f) (SectionInspect.scanTrace ty outer section)
            /\ SectionInspect.f_element f = "img"
            /\ SectionInspect.f_isHidden f = SectionInspect.isHidden (SectionInspect.el t).
Proof.
  intros Ht Himg Hmodal. unfold SectionInspect.scanTrace.
  set (targets := SectionInspect.descendants outer section).
  fold (scanFrom ty targets SectionInspect.selectors SectionInspect.emptyScan).
  assert (Hsorted : StronglySorted lt (map SectionInspect.uid targets))
    by apply descendants_sorted.
  assert (Htag : SectionInspect.tagName (SectionInspect.el t) = "IMG")
    by (now apply String.eqb_eq).
  assert (Hseen : SectionInspect.uid t ∈ SectionInspect.seenElements
                    (scanFrom ty targets SectionInspect.selectors SectionInspect.emptyScan)).
  { assert (Hset : settled
       (scanFrom ty targets SectionInspect.selectors SectionInspect.emptyScan) t).
    { apply (settled_after_scan ty targets _ _ _ (SectionInspect.TagSel "img")); auto.
      - cbn. tauto.
      - cbn [SectionInspect.matchesSelector]. rewrite Htag. reflexivity. }
    destruct Hset as [H | [H | [H | [H | (c & _ & _ & H)]]]]; try congruence.
    - rewrite (image_is_media t Himg) in H. rewrite andb_false_r in H. discriminate.
    - destruct (image_reportClass _ Himg) as (c & Hc). congruence. }
  assert (Himgs : imagesOk targets
            (scanFrom ty targets SectionInspect.selectors SectionInspect.emptyScan)).
  { apply scan_invariant.
    - intros st u. now apply imagesOk_visit.
    - intros u _ _ Hu. cbn in Hu. now apply not_elem_of_empty in Hu. }
  destruct (Himgs t Ht Himg Hseen) as (f & Hf). exists f. split; [exact Hf|].
  destruct (scan_entriesOk ty outer section) as (Hent & _).
  destruct (Hent t f Hf) as (_ & _ & _ & Heq & _). rewrite Heq.
  cbn [SectionInspect.elementFact SectionInspect.f_element SectionInspect.f_isHidden].
  rewrite Htag. split; reflexivity.
Qed.

(** An element that passes the tests on the modal and on visibility
    and is reported under the class name [c]; and the test on its
    colours that decides whether its entry is pushed. *)
Definition eligible (t : SectionInspect.Target) (c : string) : Prop :=
  SectionInspect.reportClass (SectionInspect.el t) = Some c
  /\ SectionInspect.closestId SectionInspect.DEBUG_MODAL_ID t = false
  /\ SectionInspect.isHidden (SectionInspect.el t)
     && negb (SectionInspect.isMediaElement t) = false.

Definition styled (ty : option string) (t : SectionInspect.Target) (c : string) : bool :=
  let fact := SectionInspect.elementFact ty t c in
  negb (SectionInspect.f_textColor fact =? "transparent")
  || negb (SectionInspect.f_bgColor fact =? "transparent")
  || SectionInspect.isImage (SectionInspect.el t)
  || SectionInspect.isMediaElement t.

Section ScanMarks.
Import SectionInspect.
Variable sectionType : option string.
Variable targets : list Target.
Hypothesis targets_sorted : StronglySorted lt (map uid targets).

Lemma visit_pushes_styled (st : ScanState) (t : Target) (c : string) :
  marks st (visit sectionType st t) t c ->
  (styled sectionType t c = true ->
   pushed (visit sectionType st t) = (pushed st ++ [(t, elementFact sectionType t c)])%list).
Proof.
  intros (Hfresh & Hmodal & Hhid & Hrc & Hc & _) Hst. unfold visit.
  destruct (decide (uid t ∈ seenElements st)) as [Hin|_]; [contradiction|].
  rewrite Hmodal, Hhid, Hrc.
  assert (Hdup : bool_decide (c ∈ seenClasses st) && negb (isImage (el t)) = false).
  { destruct Hc as [Hc | Hc].
    - now rewrite (bool_decide_eq_false_2 _ Hc).
    - rewrite Hc. apply andb_false_r. }
  rewrite Hdup. cbv zeta. unfold styled in Hst. cbv zeta in Hst. now rewrite Hst.
Qed.

(** Every class name in the [seen] set was put there for a marked
    element reported under it; every marked element is eligible, and
    has its entry when it is styled. *)
Definition marksOk (st : ScanState) : Prop :=
  (forall c, c ∈ seenClasses st ->
     exists u, In u targets /\ (uid u ∈ seenElements st)
               /\ reportClass (el u) = Some c)
  /\ (forall u, In u targets -> uid u ∈ seenElements st ->
        exists c, eligible u c
                  /\ (styled sectionType u c = true ->
                      In (u, elementFact sectionType u c) (pushed st))).

Lemma marksOk_visit (st : ScanState) (t : Target) :
  In t targets -> marksOk st -> marksOk (visit sectionType st t).
Proof.
  intros Ht (Hcls & Hmk).
  destruct (visit_cases sectionType st t) as [Heq | (c & Hm & Hp)];
    [rewrite Heq; exact (conj Hcls Hmk)|].
  pose proof (visit_pushes_styled st t c Hm) as Hpush.
  destruct (visit_grows sectionType st t) as (Hge & _ & (g & Hg)).
  destruct Hm as (Hfresh & Hmodal & Hhid & Hrc & Hc & He & Hcl).
  split.
  - intros d Hd. rewrite Hcl in Hd. apply elem_of_union in Hd.
    destruct Hd as [Hd | Hd].
    + apply elem_of_singleton in Hd. subst d. exists t.
      split; [exact Ht|]. split; [|exact Hrc].
      rewrite He. apply elem_of_union_l, elem_of_singleton. reflexivity.
    + destruct (Hcls d Hd) as (u & Hu & Hseen & Hr). exists u.
      split; [exact Hu|]. split; [apply Hge, Hseen | exact Hr].
  - intros u Hu Hseen. rewrite He in Hseen. apply elem_of_union in Hseen.
    destruct Hseen as [Hnew | Hold].
    + apply elem_of_singleton in Hnew.
      assert (u = t) by (apply (sorted_uid_inj targets); auto). subst u.
      exists c. split; [repeat split; assumption|].
      intros Hst. rewrite (Hpush Hst). apply in_or_app. right. now left.
    + destruct (Hmk u Hu Hold) as (d & Hel & Hin). exists d. split; [exact Hel|].
      intros Hst. rewrite Hg. apply in_or_app. left. now apply Hin.
Qed.

End ScanMarks.

Lemma scan_marksOk (ty : option string) (outer : list SectionInspect.Element)
  (section : SectionInspect.Node) :
  marksOk ty (SectionInspect.descendants outer section)
    (scanFrom ty (SectionInspect.descendants outer section)
       SectionInspect.selectors SectionInspect.emptyScan).
Proof.
  apply scan_invariant.
  - intros st t. apply marksOk_visit. apply descendants_sorted.
  - split.
    + intros c Hc. cbn in Hc. now apply not_elem_of_empty in Hc.
    + intros u _ Hu. cbn in Hu. now apply not_elem_of_empty in Hu.
Qed.

(** When the eligible elements of a class name are all non-image and
    styled, and one of them matches a selector, the class name has
    exactly one entry. *)
Lemma class_reported_once (ty : option string) (outer : list SectionInspect.Element)
  (section : SectionInspect.Node) (c : string) :
  (exists t sel,
      In t (SectionInspect.descendants outer section)
      /\ In sel SectionInspect.selectors
      /\ SectionInspect.matchesSelector sel (SectionInspect.el t) = true
      /\ eligible t c) ->
  (forall t, In t (SectionInspect.descendants outer section) -> eligible t c ->
             SectionInspect.isImage (SectionInspect.el t) = false
             /\ styled ty t c = true) ->
  exists a,
    In a (SectionInspect.scanTrace ty outer section)
    /\ SectionInspect.f_className (snd a) = c
    /\ forall b, In b (SectionInspect.scanTrace ty outer section) ->
                 SectionInspect.f_className (snd b) = c -> b = a.
Proof.
  intros (t & sel & Ht & Hsel & Hmatch & Helig) Hall.
  unfold SectionInspect.scanTrace.
  set (targets := SectionInspect.descendants outer section) in *.
  fold (scanFrom ty targets SectionInspect.selectors SectionInspect.emptyScan).
  set (final := scanFrom ty targets SectionInspect.selectors SectionInspect.emptyScan).
  destruct (scan_entriesOk ty outer section) as (Hent & _ & Hcls).
  destruct (scan_marksOk ty outer section) as (Hclasses & Hmarked).
  fold targets in Hent, Hcls, Hclasses, Hmarked. fold final in Hent, Hcls, Hclasses, Hmarked.
  assert (Hfrom : forall u, In u targets -> SectionInspect.uid u ∈ SectionInspect.seenElements final ->
            SectionInspect.reportClass (SectionInspect.el u) = Some c ->
            In (u, SectionInspect.elementFact ty u c) (SectionInspect.pushed final)).
  { intros u Hu Hseen Hrc. destruct (Hmarked u Hu Hseen) as (d & Hel & Hin).
    assert (d = c) by (destruct Hel as (Hd & _); congruence). subst d.
    apply Hin. now apply (Hall u Hu Hel). }
  assert (Hex : exists u, In (u, SectionInspect.elementFact ty u c) (SectionInspect.pushed final)).
  { assert (Hset : settled final t).
    { apply (settled_after_scan ty targets _ _ _ sel); auto. }
    destruct Helig as (Hrc & Hmodal & Hhid).
    destruct Hset as [H | [H | [H | [H | (d & Hd & Hs & _)]]]]; try congruence.
    - exists t. now apply Hfrom.
    - assert (d = c) by congruence. subst d.
      destruct (Hclasses c Hs) as (u & Hu & Hseen & Hr). exists u. now apply Hfrom. }
  destruct Hex as (u & Hu). exists (u, SectionInspect.elementFact ty u c).
  split; [exact Hu|]. split; [reflexivity|].
  intros b Hb Hbc.
  apply In_nth_error in Hu. destruct Hu as (i & Hi).
  apply In_nth_error in Hb. destruct Hb as (j & Hj).
  assert (Hnon : forall k p, nth_error (SectionInspect.pushed final) k = Some p ->
            SectionInspect.f_className (snd p) = c ->
            SectionInspect.isImage (SectionInspect.el (fst p)) = false).
  { intros k [v f] Hk Hc. cbn [fst snd] in *. apply nth_error_In in Hk.
    destruct (Hent v f Hk) as (Hv & _ & _ & _ & Hr & Hm & Hh).
    rewrite Hc in Hr. now apply (Hall v Hv). }
  pose proof (Hnon i _ Hi eq_refl) as Hiu. pose proof (Hnon j _ Hj Hbc) as Hjb.
  destruct (Nat.lt_total i j) as [Hlt | [Heq | Hgt]].
  - destruct (ForallOrdPairs_nth _ _ Hcls i j _ _ Hlt Hi Hj); [now rewrite Hbc | |]; congruence.
  - subst j. congruence.
  - destruct (ForallOrdPairs_nth _ _ Hcls j i _ _ Hgt Hj Hi); [exact Hbc | |]; congruence.
Qed.

Definition pushedStyled (ty : option string) (st : SectionInspect.ScanState) : Prop :=
  Forall (fun p => styled ty (fst p) (SectionInspect.f_className (snd p)) = true)
         (SectionInspect.pushed st).

Lemma pushedStyled_visit (ty : option string) (st : SectionInspect.ScanState)
  (t : SectionInspect.Target) :
  pushedStyled ty st -> pushedStyled ty (SectionInspect.visit ty st t).
Proof.
  intros H. unfold SectionInspect.visit.
  destruct (decide _); [exact H|].
  destruct (SectionInspect.closestId _ t); [exact H|].
  destruct (_ && _); [exact H|].
  destruct (SectionInspect.reportClass _) as [c|]; [|exact H].
  destruct (_ && _); [exact H|]. cbv zeta.
  destruct (negb (SectionInspect.f_textColor (SectionInspect.elementFact ty t c) =? "transparent")
            || negb (SectionInspect.f_bgColor (SectionInspect.elementFact ty t c) =? "transparent")
            || SectionInspect.isImage (SectionInspect.el t)
            || SectionInspect.isMediaElement t) eqn:Hst; [|exact H].
  unfold pushedStyled. cbn [SectionInspect.pushed]. apply Forall_app. split; [exact H|].
  constructor; [|constructor]. exact Hst.
Qed.

Lemma scan_pushedStyled (ty : option string) (outer : list SectionInspect.Element)
  (section : SectionInspect.Node) :
  pushedStyled ty
    (scanFrom ty (SectionInspect.descendants outer section)
       SectionInspect.selectors SectionInspect.emptyScan).
Proof.
  apply scan_invariant.
  - intros st u _. apply pushedStyled_visit.
  - constructor.
Qed.

(** A class name under which no eligible element is styled has no
    entry; in particular a class name whose elements are all inside the
    modal or excluded by the visibility rule has none. *)
Lemma class_not_reported (ty : option string) (outer : list SectionInspect.Element)
  (section : SectionInspect.Node) (c : string) :
  (forall t, In t (SectionInspect.descendants outer section) -> eligible t c ->
             styled ty t c = false) ->
  forall a, In a (SectionInspect.scanTrace ty outer section) ->
            SectionInspect.f_className (snd a) <> c.
Proof.
  intros Hall [t f] Hin Hc. cbn [snd] in Hc.
  destruct (scan_entriesOk ty outer section) as (Hent & _).
  destruct (Hent t f Hin) as (Ht & _ & _ & _ & Hrc & Hmodal & Hhid).
  pose proof (scan_pushedStyled ty outer section) as Hst.
  unfold pushedStyled in Hst. rewrite List.Forall_forall in Hst.
  specialize (Hst (t, f) Hin). cbn [fst snd] in Hst.
  rewrite Hc in Hrc, Hst.
  rewrite (Hall t Ht (conj Hrc (conj Hmodal Hhid))) in Hst. discriminate.
Qed.

(** C2, as the code has it.  Among the entries of one scan, two
    entries with the same class name are never both for non-image
    elements, and no element has two entries; a class name has exactly
    one entry when the elements that are eligible under it are all
    non-image and styled and one of them matches a selector, and it has
    no entry when no element eligible under it is styled, so in
    particular when all its elements are inside the modal or excluded by
    the visibility rule; every [img] of the section outside the
    inspector's modal has its entry, whatever its class names. *)
Theorem scan_class_deduplication (ty : option string) (outer : list SectionInspect.Element)
  (section : SectionInspect.Node) :
  SectionInspect.scanSectionComponents ty outer section
  = SectionInspect.SectionContainer (SectionInspect.sectionFact ty section)
    :: map (fun p => SectionInspect.Descendant (snd p))
           (SectionInspect.scanTrace ty outer section)
  /\ (forall i j a b,
        i <> j ->
        nth_error (SectionInspect.scanTrace ty outer section) i = Some a ->
        nth_error (SectionInspect.scanTrace ty outer section) j = Some b ->
        SectionInspect.f_className (snd a) = SectionInspect.f_className (snd b) ->
        SectionInspect.isImage (SectionInspect.el (fst a)) = true
        \/ SectionInspect.isImage (SectionInspect.el (fst b)) = true)
  /\ List.NoDup (map (fun p => SectionInspect.uid (fst p))
                     (SectionInspect.scanTrace ty outer section))
  /\ (forall c,
        (exists t sel,
            In t (SectionInspect.descendants outer section)
            /\ In sel SectionInspect.selectors
            /\ SectionInspect.matchesSelector sel (SectionInspect.el t) = true
            /\ eligible t c) ->
        (forall t, In t (SectionInspect.descendants outer section) -> eligible t c ->
                   SectionInspect.isImage (SectionInspect.el t) = false
                   /\ styled ty t c = true) ->
        exists a,
          In a (SectionInspect.scanTrace ty outer section)
          /\ SectionInspect.f_className (snd a) = c
          /\ forall b, In b (SectionInspect.scanTrace ty outer section) ->
                       SectionInspect.f_className (snd b) = c -> b = a)
  /\ (forall c,
        (forall t, In t (SectionInspect.descendants outer section) -> eligible t c ->
                   styled ty t c = false) ->
        forall a, In a (SectionInspect.scanTrace ty outer section) ->
                  SectionInspect.f_className (snd a) <> c)
  /\ (forall t,
        In t (SectionInspect.descendants outer section) ->
        SectionInspect.isImage (SectionInspect.el t) = true ->
        SectionInspect.closestId SectionInspect.DEBUG_MODAL_ID t = false ->
        exists f, In (t, f) (SectionInspect.scanTrace ty outer section)
                  /\ SectionInspect.f_element f = "img").
Proof.
  split; [reflexivity|].
  destruct (scan_entriesOk ty outer section) as (Hent & Hnd & Hcls).
  split; [|split; [|split; [|split]]].
  - intros i j a b Hij Ha Hb Hsame.
    destruct (Nat.lt_total i j) as [Hlt | [Heq | Hgt]]; [|contradiction|].
    + exact (ForallOrdPairs_nth _ _ Hcls i j a b Hlt Ha Hb Hsame).
    + destruct (ForallOrdPairs_nth _ _ Hcls j i b a Hgt Hb Ha (eq_sym Hsame)); auto.
  - exact Hnd.
  - intros c. apply class_reported_once.
  - intros c. apply class_not_reported.
  - intros t Ht Himg Hmodal.
    destruct (image_reported ty outer section t Ht Himg Hmodal) as (f & Hf & He & _).
    eauto.
Qed.

(** Elements for the examples: tag, class attribute, whether
    [offsetParent] is null, computed text and background colour. *)
Definition sample (tag cls : string) (noOffsetParent : bool) (textColor bg : string)
  : SectionInspect.Element :=
  {| SectionInspect.tagName := tag;
     SectionInspect.elId := "";
     SectionInspect.classAttr := cls;
     SectionInspect.isSvg := false;
     SectionInspect.styleAttr := None;
     SectionInspect.offsetParentNull := noOffsetParent;
     SectionInspect.computed :=
       fun p => if p =? "color" then textColor
                else if p =? "background-color" then bg
                else if p =? "border-color" then textColor
                else if p =? "position" then "static"
                else if p =? "display" then "block"
                else if p =? "visibility" then "visible"
                else if p =? "opacity" then "1"
                else if p =? "aspect-ratio" then "auto"
                else if p =? "object-fit" then "fill"
                else if p =? "padding-bottom" then "0px"
                else if p =? "font-size" then "16px"
                else if p =? "font-weight" then "400"
                else "auto";
     SectionInspect.src := "";
     SectionInspect.naturalWidth := 0;
     SectionInspect.naturalHeight := 0;
     SectionInspect.complete := false |}.

Definition leaf (e : SectionInspect.Element) : SectionInspect.Node := SectionInspect.El e [].

Definition black : string := "rgb(0, 0, 0)".
Definition clear : string := "rgba(0, 0, 0, 0)".

(** The class names of the entries of a report, the section container
    left out. *)
Definition reportedClasses (out : list SectionInspect.Component) : list string :=
  flat_map (fun c => match c with
                     | SectionInspect.Descendant f => [SectionInspect.f_className f]
                     | SectionInspect.SectionContainer _ => []
                     end) out.

Definition twoHiddenCards : SectionInspect.Node :=
  SectionInspect.El (sample "DIV" "shopify-section" false black clear)
    [ leaf (sample "DIV" "card" true black clear);
      leaf (sample "DIV" "card" true black clear) ].

(** Two non-image elements share the primary class [card] and neither
    has a layout box: the report has no entry for that class. *)
Lemma scan_two_hidden_cards :
  map (fun n => SectionInspect.getPrimaryClass (SectionInspect.element n))
      (SectionInspect.children twoHiddenCards) = [Some "card"; Some "card"]
  /\ reportedClasses (SectionInspect.scanSectionComponents None [] twoHiddenCards) = []
  /\ length (List.filter (String.eqb "card")
       (reportedClasses (SectionInspect.scanSectionComponents None [] twoHiddenCards)))
     <> 1%nat.
Proof. vm_compute. repeat split; congruence. Qed.

(** Two visible cards give one entry; two images without a source give
    two. *)
Example scan_cards_and_images :
  reportedClasses
    (SectionInspect.scanSectionComponents None []
       (SectionInspect.El (sample "DIV" "shopify-section" false black clear)
          [ leaf (sample "DIV" "card" false black clear);
            leaf (sample "DIV" "card" false black clear);
            leaf (sample "IMG" "photo" true black clear);
            leaf (sample "IMG" "photo" true black clear) ]))
  = ["card"; "photo"; "photo"].
Proof. vm_compute. reflexivity. Qed.

(** C3, as the code has it.  The report starts with the entry of the
    section container.  The entries that follow are for descendants of
    the section; they come selector by selector, in the order of the
    selector list, each element under the first selector that matches
    it, and in document order among the elements of one selector. *)
Theorem scan_order_by_selector (ty : option string) (outer : list SectionInspect.Element)
  (section : SectionInspect.Node) :
  head (SectionInspect.scanSectionComponents ty outer section)
  = Some (SectionInspect.SectionContainer (SectionInspect.sectionFact ty section))
  /\ tail (SectionInspect.scanSectionComponents ty outer section)
     = map (fun p => SectionInspect.Descendant (snd p))
           (SectionInspect.scanTrace ty outer section)
  /\ Forall (fun p => In (fst p) (SectionInspect.descendants outer section))
            (SectionInspect.scanTrace ty outer section)
  /\ StronglySorted lexLt (map orderKey (SectionInspect.scanTrace ty outer section)).
Proof.
  split; [reflexivity|]. split; [reflexivity|].
  destruct (scan_order ty (SectionInspect.descendants outer section)
              (descendants_sorted outer section)
              SectionInspect.selectors [] SectionInspect.emptyScan) as (Hs & _ & Hin).
  - reflexivity.
  - repeat split; constructor.
  - intros u s _ [].
  - split; [exact Hin | exact Hs].
Qed.

Definition paragraphThenHeading : SectionInspect.Node :=
  SectionInspect.El (sample "DIV" "shopify-section" false black clear)
    [ leaf (sample "P" "intro" false black clear);
      leaf (sample "H2" "title" false black clear) ].

(** A paragraph followed by a heading: the heading is reported first,
    because [h2] comes before [p] in the selector list. *)
Lemma scan_not_in_document_order :
  map (fun p => (SectionInspect.uid (fst p), SectionInspect.f_element (snd p)))
      (SectionInspect.scanTrace None [] paragraphThenHeading)
  = [(1%nat, "h2"); (0%nat, "p")]
  /\ ~ StronglySorted lt
         (map (fun p => SectionInspect.uid (fst p))
              (SectionInspect.scanTrace None [] paragraphThenHeading)).
Proof.
  split; [vm_compute; reflexivity|].
  intros H.
  assert (Hu : map (fun p => SectionInspect.uid (fst p))
                   (SectionInspect.scanTrace None [] paragraphThenHeading)
               = [1%nat; 0%nat]) by (vm_compute; reflexivity).
  rewrite Hu in H. apply StronglySorted_inv in H. destruct H as [_ H].
  inversion H; subst. lia.
Qed.

(** The same element with a layout box. *)
Definition reveal (t : SectionInspect.Target) : SectionInspect.Target :=
  let e := SectionInspect.el t in
  {| SectionInspect.uid := SectionInspect.uid t;
     SectionInspect.el :=
       {| SectionInspect.tagName := SectionInspect.tagName e;
          SectionInspect.elId := SectionInspect.elId e;
          SectionInspect.classAttr := SectionInspect.classAttr e;
          SectionInspect.isSvg := SectionInspect.isSvg e;
          SectionInspect.styleAttr := SectionInspect.styleAttr e;
          SectionInspect.offsetParentNull := false;
          SectionInspect.computed := SectionInspect.computed e;
          SectionInspect.src := SectionInspect.src e;
          SectionInspect.naturalWidth := SectionInspect.naturalWidth e;
          SectionInspect.naturalHeight := SectionInspect.naturalHeight e;
          SectionInspect.complete := SectionInspect.complete e |};
     SectionInspect.ancestors := SectionInspect.ancestors t |}.

Lemma visit_media_ignores_layout (ty : option string) (st : SectionInspect.ScanState)
  (t : SectionInspect.Target) :
  SectionInspect.isMediaElement t = true ->
  SectionInspect.seenElements (SectionInspect.visit ty st t)
  = SectionInspect.seenElements (SectionInspect.visit ty st (reveal t))
  /\ SectionInspect.seenClasses (SectionInspect.visit ty st t)
     = SectionInspect.seenClasses (SectionInspect.visit ty st (reveal t))
  /\ map (fun p => SectionInspect.uid (fst p)) (SectionInspect.pushed (SectionInspect.visit ty st t))
     = map (fun p => SectionInspect.uid (fst p))
           (SectionInspect.pushed (SectionInspect.visit ty st (reveal t))).
Proof.
  intros Hmedia.
  assert (Hm' : SectionInspect.isMediaElement (reveal t) = true) by exact Hmedia.
  unfold SectionInspect.visit. rewrite Hmedia, Hm'. rewrite !andb_false_r.
  change (SectionInspect.uid (reveal t)) with (SectionInspect.uid t).
  change (SectionInspect.closestId SectionInspect.DEBUG_MODAL_ID (reveal t))
    with (SectionInspect.closestId SectionInspect.DEBUG_MODAL_ID t).
  change (SectionInspect.reportClass (SectionInspect.el (reveal t)))
    with (SectionInspect.reportClass (SectionInspect.el t)).
  change (SectionInspect.isImage (SectionInspect.el (reveal t)))
    with (SectionInspect.isImage (SectionInspect.el t)).
  destruct (decide _); [auto|].
  destruct (SectionInspect.closestId _ t); [auto|].
  destruct (SectionInspect.reportClass _) as [c|]; [|auto].
  destruct (_ && _); [auto|]. cbv zeta. rewrite !orb_true_r.
  cbn [SectionInspect.seenElements SectionInspect.seenClasses SectionInspect.pushed].
  rewrite !map_app. auto.
Qed.

(** C8, as the code has it.  An element whose [offsetParent] is null
    and whose tag is not BODY has no entry unless it is media.  For a
    media element the test is not applied: an [img] outside the
    inspector's modal has its entry also when it is hidden, flagged as
    hidden, and a visit of any media element marks and pushes the same
    whether or not the element has a layout box. *)
Theorem scan_hidden_rule (ty : option string) (outer : list SectionInspect.Element)
  (section : SectionInspect.Node) :
  (forall t f,
      SectionInspect.isHidden (SectionInspect.el t) = true ->
      SectionInspect.isMediaElement t = false ->
      ~ In (t, f) (SectionInspect.scanTrace ty outer section))
  /\ (forall t,
      In t (SectionInspect.descendants outer section) ->
      SectionInspect.isImage (SectionInspect.el t) = true ->
      SectionInspect.closestId SectionInspect.DEBUG_MODAL_ID t = false ->
      exists f, In (t, f) (SectionInspect.scanTrace ty outer section)
                /\ SectionInspect.f_isHidden f = SectionInspect.isHidden (SectionInspect.el t))
  /\ (forall st t,
      SectionInspect.isMediaElement t = true ->
      SectionInspect.seenElements (SectionInspect.visit ty st t)
      = SectionInspect.seenElements (SectionInspect.visit ty st (reveal t))
      /\ SectionInspect.seenClasses (SectionInspect.visit ty st t)
         = SectionInspect.seenClasses (SectionInspect.visit ty st (reveal t))
      /\ map (fun p => SectionInspect.uid (fst p))
             (SectionInspect.pushed (SectionInspect.visit ty st t))
         = map (fun p => SectionInspect.uid (fst p))
               (SectionInspect.pushed (SectionInspect.visit ty st (reveal t)))).
Proof.
  split; [|split].
  - intros t f Hhid Hmedia Hin.
    destruct (scan_entriesOk ty outer section) as (Hent & _).
    destruct (Hent t f Hin) as (_ & _ & _ & _ & _ & _ & H).
    rewrite Hhid, Hmedia in H. discriminate.
  - intros t Ht Himg Hmodal.
    destruct (image_reported ty outer section t Ht Himg Hmodal) as (f & Hf & _ & Hh).
    eauto.
  - intros st t. apply visit_media_ignores_layout.
Qed.

Definition hiddenParagraphInMedia : SectionInspect.Node :=
  SectionInspect.El (sample "DIV" "shopify-section" false black clear)
    [ SectionInspect.El (sample "DIV" "media" false black clear)
        [ leaf (sample "P" "" true black clear) ] ].

(** A hidden paragraph without a class inside a media wrapper counts
    as media and still has no entry: it has no class name to be
    reported under. *)
Lemma scan_hidden_media_without_class :
  exists t,
    nth_error (SectionInspect.descendants [] hiddenParagraphInMedia) 1 = Some t
    /\ SectionInspect.isHidden (SectionInspect.el t) = true
    /\ SectionInspect.isMediaElement t = true
    /\ map (fun p => SectionInspect.uid (fst p))
           (SectionInspect.scanTrace None [] hiddenParagraphInMedia) = [0%nat]
    /\ forall f, ~ In (t, f) (SectionInspect.scanTrace None [] hiddenParagraphInMedia).
Proof.
  eexists. split; [vm_compute; reflexivity|].
  split; [vm_compute; reflexivity|]. split; [vm_compute; reflexivity|].
  assert (Hu : map (fun p => SectionInspect.uid (fst p))
                   (SectionInspect.scanTrace None [] hiddenParagraphInMedia) = [0%nat])
    by (vm_compute; reflexivity).
  split; [exact Hu|].
  intros f Hin.
  apply (in_map (fun p => SectionInspect.uid (fst p))) in Hin.
  rewrite Hu in Hin. cbn in Hin. destruct Hin as [Hin | []]. discriminate.
Qed.

(** *** Instrumenting twice *)

Lemma Node_induction (P : SectionInspect.Node -> Prop) :
  (forall e kids, Forall P kids -> P (SectionInspect.El e kids)) ->
  forall n, P n.
Proof.
  intros H. fix IH 1. intros [e kids]. apply H.
  induction kids as [|k kids IHk]; constructor; [apply IH | exact IHk].
Qed.

Fixpoint selectFrom (P : SectionInspect.Element -> bool) (i : nat)
  (ks : list SectionInspect.Node) : list SectionInspect.Path :=
  match ks with
  | [] => []
  | k :: ks' => (map (cons i) (SectionInspect.select P k) ++ selectFrom P (S i) ks')%list
  end.

Lemma select_unfold (P : SectionInspect.Element -> bool) (e : SectionInspect.Element)
  (kids : list SectionInspect.Node) :
  SectionInspect.select P (SectionInspect.El e kids)
  = ((if P e then [[]] else []) ++ selectFrom P 0 kids)%list.
Proof.
  cbn [SectionInspect.select]. f_equal. generalize 0%nat.
  induction kids as [|k kids IH]; intros i; cbn [selectFrom]; [reflexivity|].
  now rewrite IH.
Qed.

Lemma alterAt_middle {A} (g : A -> A) (pre : list A) (k : A) (rest : list A) :
  SectionInspect.alterAt (length pre) g (pre ++ k :: rest) = (pre ++ g k :: rest)%list.
Proof. induction pre as [|x pre IH]; cbn; [reflexivity | now rewrite IH]. Qed.

Section InitProofs.
Import SectionInspect.
Variable positionRelative : Element -> Element.
Variable createDebugButton : Node -> Node.
Hypothesis relative_class : forall e, classAttr (positionRelative e) = classAttr e.
Hypothesis button_class : forall n, isDebugButton (element (createDebugButton n)) = true.
Hypothesis button_plain : forall n, select isSection (createDebugButton n) = [].

Definition step (doc : Node) (p : Path) : Node :=
  updateAt (instrument positionRelative createDebugButton) p doc.

(** The element of a section once [init] has dealt with it. *)
Definition positioned (e : Element) : Element :=
  if computed e "position" =? "static" then positionRelative e else e.

(** [init] by recursion over the document: every section without a
    debug button below it gets one, after its children. *)
Fixpoint initRec (n : Node) : Node :=
  match n with
  | El e kids =>
      if isSection e && negb (hasDescendant isDebugButton (El e kids))
      then El (positioned e)
              (map initRec kids ++ [createDebugButton (El (positioned e) kids)])%list
      else El e (map initRec kids)
  end.

Lemma fold_below (i : nat) (ps : list Path) (e : Element) (pre : list Node) (k : Node)
  (rest : list Node) :
  length pre = i ->
  fold_left step (map (cons i) ps) (El e (pre ++ k :: rest))
  = El e (pre ++ fold_left step ps k :: rest)%list.
Proof.
  intros <-. revert k. induction ps as [|p ps IH]; intros k; cbn [map fold_left];
    [reflexivity|].
  unfold step at 2. cbn [updateAt]. rewrite alterAt_middle. apply IH.
Qed.

Lemma fold_kids (ks : list Node) :
  Forall (fun k => fold_left step (select isSection k) k = initRec k) ks ->
  forall (pre post : list Node) (e : Element),
    fold_left step (selectFrom isSection (length pre) ks) (El e (pre ++ ks ++ post))
    = El e (pre ++ map initRec ks ++ post)%list.
Proof.
  induction 1 as [|k ks Hk Hks IH]; intros pre post e; [reflexivity|].
  cbn [selectFrom map]. rewrite fold_left_app.
  change ((k :: ks) ++ post)%list with (k :: (ks ++ post))%list.
  rewrite (fold_below (length pre)) by reflexivity. rewrite Hk.
  specialize (IH (pre ++ [initRec k])%list post e).
  rewrite length_app in IH. cbn [length] in IH.
  replace (length pre + 1)%nat with (S (length pre)) in IH by lia.
  rewrite <- !app_assoc in IH. exact IH.
Qed.

Lemma init_initRec (n : Node) :
  init positionRelative createDebugButton n = initRec n.
Proof.
  induction n as [e kids IH] using Node_induction.
  unfold init. rewrite select_unfold. fold step.
  pose proof (fold_kids kids IH [] []) as Hplain.
  pose proof (fold_kids kids IH []
                [createDebugButton (El (positioned e) kids)]) as Hbutton.
  cbn [app length] in Hplain, Hbutton. rewrite !app_nil_r in Hplain.
  cbn [initRec]. destruct (isSection e); cbn [andb app fold_left].
  - unfold step at 2. cbn [updateAt]. unfold instrument.
    destruct (hasDescendant isDebugButton (El e kids)); cbn [negb].
    + apply Hplain.
    + cbn [element children]. fold (positioned e). apply Hbutton.
  - apply Hplain.
Qed.

Lemma positioned_class (e : Element) : classAttr (positioned e) = classAttr e.
Proof. unfold positioned. destruct (_ =? _); [apply relative_class | reflexivity]. Qed.

Lemma positioned_isSection (e : Element) : isSection (positioned e) = isSection e.
Proof. unfold isSection, hasClass. now rewrite positioned_class. Qed.

Lemma positioned_isDebugButton (e : Element) :
  isDebugButton (positioned e) = isDebugButton e.
Proof. unfold isDebugButton, hasClass. now rewrite positioned_class. Qed.

Lemma initRec_isDebugButton (n : Node) :
  isDebugButton (element (initRec n)) = isDebugButton (element n).
Proof.
  destruct n as [e kids]. cbn [initRec]. destruct (_ && _); cbn [element];
    [apply positioned_isDebugButton | reflexivity].
Qed.

(** A debug button below an element is still there afterwards. *)
Lemma initRec_keeps_buttons (n : Node) :
  hasDescendant isDebugButton n = true ->
  hasDescendant isDebugButton (initRec n) = true.
Proof.
  induction n as [e kids IH] using Node_induction. intros Hd.
  cbn [initRec]. rewrite Hd. rewrite andb_false_r.
  cbn [hasDescendant] in Hd |- *.
  apply existsb_exists in Hd. destruct Hd as (k & Hk & Hb).
  apply existsb_exists. exists (initRec k). split; [now apply in_map|].
  rewrite initRec_isDebugButton.
  apply orb_true_iff in Hb. destruct Hb as [Hb | Hb]; [now rewrite Hb|].
  rewrite List.Forall_forall in IH. rewrite (IH k Hk Hb). apply orb_true_r.
Qed.

Lemma selectFrom_nil (P : Element -> bool) (i : nat) (ks : list Node) :
  selectFrom P i ks = [] -> Forall (fun k => select P k = []) ks.
Proof.
  revert i. induction ks as [|k ks IH]; intros i H; [constructor|].
  cbn [selectFrom] in H. apply app_eq_nil in H. destruct H as [Hk Hks].
  constructor; [|now apply (IH (S i))].
  destruct (select P k); [reflexivity | discriminate].
Qed.

(** Where there is no section, [init] changes nothing. *)
Lemma initRec_plain (n : Node) : select isSection n = [] -> initRec n = n.
Proof.
  induction n as [e kids IH] using Node_induction. rewrite select_unfold. intros H.
  apply app_eq_nil in H. destruct H as [He Hk].
  destruct (isSection e) eqn:Hs; [discriminate|].
  cbn [initRec]. rewrite Hs. cbn [andb]. f_equal.
  apply selectFrom_nil in Hk. clear He Hs.
  induction kids as [|k kids IHk]; [reflexivity|].
  inversion IH; subst. inversion Hk; subst. cbn [map]. f_equal; auto.
Qed.

Lemma initRec_idempotent (n : Node) : initRec (initRec n) = initRec n.
Proof.
  induction n as [e kids IH] using Node_induction.
  assert (Hkids : map initRec (map initRec kids) = map initRec kids).
  { clear -IH. induction IH as [|k kids Hk _ IHk]; cbn [map]; [reflexivity|].
    now rewrite Hk, IHk. }
  cbn [initRec].
  destruct (isSection e && negb (hasDescendant isDebugButton (El e kids))) eqn:Hc.
  - cbn [initRec].
    assert (Hhas : hasDescendant isDebugButton
              (El (positioned e)
                  (map initRec kids ++ [createDebugButton (El (positioned e) kids)]))
            = true).
    { cbn [hasDescendant]. rewrite existsb_app. cbn [existsb].
      rewrite button_class. cbn [orb]. apply orb_true_r. }
    rewrite Hhas. rewrite andb_false_r.
    rewrite map_app, Hkids. cbn [map].
    now rewrite (initRec_plain _ (button_plain _)).
  - cbn [initRec].
    assert (Hc' : isSection e && negb (hasDescendant isDebugButton (El e (map initRec kids)))
                  = false).
    { apply andb_false_iff in Hc. apply andb_false_iff.
      destruct Hc as [Hc | Hc]; [now left | right].
      apply negb_false_iff in Hc. apply negb_false_iff.
      pose proof (initRec_keeps_buttons (El e kids) Hc) as Hk.
      cbn [initRec] in Hk. rewrite Hc in Hk. now rewrite andb_false_r in Hk. }
    rewrite Hc'. now rewrite Hkids.
Qed.

(** In a document without debug buttons every section gets exactly
    one. *)
Lemma initRec_noDebugButton_root (n : Node) :
  noDebugButton n = true -> isDebugButton (element (initRec n)) = false.
Proof.
  intros H. rewrite initRec_isDebugButton. destruct n as [e kids].
  cbn [noDebugButton element] in *. apply andb_true_iff in H.
  now apply negb_true_iff.
Qed.

Lemma noDebugButton_hasDescendant (n : Node) :
  noDebugButton n = true -> hasDescendant isDebugButton n = false.
Proof.
  induction n as [e kids IH] using Node_induction. cbn [noDebugButton hasDescendant].
  intros H. apply andb_true_iff in H. destruct H as [_ H].
  rewrite forallb_forall in H. rewrite List.Forall_forall in IH.
  apply not_true_is_false. intros Hex. apply existsb_exists in Hex.
  destruct Hex as (k & Hk & Hb). specialize (H k Hk). rewrite (IH k Hk H) in Hb.
  destruct k as [ek kk]. cbn [noDebugButton element] in *.
  apply andb_true_iff in H. destruct H as [H _]. apply negb_true_iff in H.
  rewrite H in Hb. discriminate.
Qed.

Lemma oneControl_plain (n : Node) :
  select isSection n = [] -> oneControlPerSection n = true.
Proof.
  induction n as [e kids IH] using Node_induction. rewrite select_unfold. intros H.
  apply app_eq_nil in H. destruct H as [He Hk].
  destruct (isSection e) eqn:Hs; [discriminate|].
  cbn [oneControlPerSection]. rewrite Hs. cbn [andb].
  apply selectFrom_nil in Hk. apply forallb_forall. intros k Hin.
  rewrite List.Forall_forall in IH, Hk. auto.
Qed.

Lemma initRec_oneControl (n : Node) :
  noDebugButton n = true -> oneControlPerSection (initRec n) = true.
Proof.
  induction n as [e kids IH] using Node_induction. intros Hno.
  pose proof (noDebugButton_hasDescendant _ Hno) as Hnd.
  cbn [noDebugButton] in Hno. apply andb_true_iff in Hno. destruct Hno as [_ Hkids].
  rewrite forallb_forall in Hkids. rewrite List.Forall_forall in IH.
  assert (Hrec : forallb oneControlPerSection (map initRec kids) = true).
  { apply forallb_forall. intros k' Hk'. apply in_map_iff in Hk'.
    destruct Hk' as (k & <- & Hk). auto. }
  assert (Hnone : List.filter (fun k => isDebugButton (element k)) (map initRec kids) = []).
  { clear -Hkids relative_class. induction kids as [|k kids IHk]; [reflexivity|].
    cbn [map List.filter].
    rewrite (initRec_noDebugButton_root k) by (apply Hkids; now left).
    apply IHk. intros x Hx. apply Hkids. now right. }
  cbn [initRec]. rewrite Hnd. cbn [negb]. rewrite andb_true_r.
  destruct (isSection e) eqn:Hs; cbn [oneControlPerSection].
  - rewrite positioned_isSection, Hs. unfold controls. cbn [children].
    rewrite List.filter_app, Hnone. cbn [List.filter app]. rewrite button_class.
    cbn [length Nat.eqb andb]. rewrite forallb_app, Hrec. cbn [forallb andb].
    rewrite (oneControl_plain _ (button_plain _)). reflexivity.
  - rewrite Hs. cbn [andb]. exact Hrec.
Qed.

End InitProofs.

(** The element at a place of the document. *)
Fixpoint nodeAt (p : SectionInspect.Path) (n : SectionInspect.Node) : option SectionInspect.Node :=
  match p with
  | [] => Some n
  | i :: p' =>
      match nth_error (SectionInspect.children n) i with
      | Some k => nodeAt p' k
      | None => None
      end
  end.

Lemma oneControl_at (n : SectionInspect.Node) :
  SectionInspect.oneControlPerSection n = true ->
  forall p s, nodeAt p n = Some s ->
              SectionInspect.isSection (SectionInspect.element s) = true ->
              SectionInspect.controls s = 1%nat.
Proof.
  induction n as [e kids IH] using Node_induction. intros Hok p.
  cbn [SectionInspect.oneControlPerSection] in Hok.
  apply andb_true_iff in Hok. destruct Hok as [Hroot Hkids].
  destruct p as [|i p]; intros s Hs Hsec.
  - injection Hs as <-. cbn [SectionInspect.element] in Hsec. rewrite Hsec in Hroot.
    now apply Nat.eqb_eq.
  - cbn [nodeAt SectionInspect.children] in Hs.
    destruct (nth_error kids i) as [k|] eqn:Hk; [|discriminate].
    apply nth_error_In in Hk. rewrite forallb_forall in Hkids.
    rewrite List.Forall_forall in IH. exact (IH k Hk (Hkids k Hk) p s Hs Hsec).
Qed.

(** C4. Running [init] twice gives the document that running it once
    gives; and when the document had no debug button before, every
    section container then holds exactly one.  The browser's handling
    of [style.position] must leave the class of an element alone, and
    the button that [createDebugButton] builds must carry the class
    [section-debug-btn] and contain no section. *)
Theorem init_twice
  (positionRelative : SectionInspect.Element -> SectionInspect.Element)
  (createDebugButton : SectionInspect.Node -> SectionInspect.Node)
  (document : SectionInspect.Node)
  (relative_class : forall e,
      SectionInspect.classAttr (positionRelative e) = SectionInspect.classAttr e)
  (button_class : forall n,
      SectionInspect.isDebugButton (SectionInspect.element (createDebugButton n)) = true)
  (button_plain : forall n,
      SectionInspect.select SectionInspect.isSection (createDebugButton n) = []) :
  let once := SectionInspect.init positionRelative createDebugButton document in
  let twice := SectionInspect.init positionRelative createDebugButton once in
  twice = once
  /\ (SectionInspect.noDebugButton document = true ->
      SectionInspect.oneControlPerSection twice = true
      /\ forall p s, nodeAt p twice = Some s ->
                     SectionInspect.isSection (SectionInspect.element s) = true ->
                     SectionInspect.controls s = 1%nat).
Proof.
  cbv zeta. rewrite !init_initRec.
  rewrite (initRec_idempotent positionRelative createDebugButton
             relative_class button_class button_plain).
  split; [reflexivity|]. intros Hno.
  pose proof (initRec_oneControl positionRelative createDebugButton
                relative_class button_class button_plain document Hno) as Hok.
  split; [exact Hok | now apply oneControl_at].
Qed.

(** A page with two sections, the first holding a heading. *)
Definition setRelative (e : SectionInspect.Element) : SectionInspect.Element :=
  {| SectionInspect.tagName := SectionInspect.tagName e;
     SectionInspect.elId := SectionInspect.elId e;
     SectionInspect.classAttr := SectionInspect.classAttr e;
     SectionInspect.isSvg := SectionInspect.isSvg e;
     SectionInspect.styleAttr := Some "position: relative;";
     SectionInspect.offsetParentNull := SectionInspect.offsetParentNull e;
     SectionInspect.computed :=
       fun p => if p =? "position" then "relative" else SectionInspect.computed e p;
     SectionInspect.src := SectionInspect.src e;
     SectionInspect.naturalWidth := SectionInspect.naturalWidth e;
     SectionInspect.naturalHeight := SectionInspect.naturalHeight e;
     SectionInspect.complete := SectionInspect.complete e |}.

Definition inspectButton (section : SectionInspect.Node) : SectionInspect.Node :=
  SectionInspect.El (sample "BUTTON" "section-debug-btn" false black clear)
    [ leaf (sample "svg" "" false black clear);
      leaf (sample "SPAN" "section-debug-btn__type" false black clear) ].

Definition twoSectionPage : SectionInspect.Node :=
  SectionInspect.El (sample "BODY" "" false black clear)
    [ SectionInspect.El (sample "DIV" "shopify-section section-hero" false black clear)
        [ leaf (sample "H1" "hero__title" false black clear) ];
      leaf (sample "DIV" "shopify-section" false black clear) ].

Lemma init_twice_witness :
  SectionInspect.noDebugButton twoSectionPage = true
  /\ SectionInspect.init setRelative inspectButton
       (SectionInspect.init setRelative inspectButton twoSectionPage)
     = SectionInspect.init setRelative inspectButton twoSectionPage
  /\ SectionInspect.oneControlPerSection
       (SectionInspect.init setRelative inspectButton
          (SectionInspect.init setRelative inspectButton twoSectionPage)) = true.
Proof.
  assert (Hclass : forall e, SectionInspect.classAttr (setRelative e)
                             = SectionInspect.classAttr e) by reflexivity.
  assert (Hbtn : forall n, SectionInspect.isDebugButton
                   (SectionInspect.element (inspectButton n)) = true) by reflexivity.
  assert (Hplain : forall n, SectionInspect.select SectionInspect.isSection
                     (inspectButton n) = []) by reflexivity.
  destruct (init_twice setRelative inspectButton twoSectionPage Hclass Hbtn Hplain)
    as [Hsame Hone].
  split; [reflexivity|]. split; [exact Hsame|].
  exact (proj1 (Hone eq_refl)).
Defined.

Example init_adds_buttons :
  map SectionInspect.controls
      (SectionInspect.children (SectionInspect.init setRelative inspectButton twoSectionPage))
  = [1%nat; 1%nat].
Proof. vm_compute. reflexivity. Qed.

(* ===================================================================== *)
(** ** Further properties of the colour normalisers *)
(* ===================================================================== *)

Definition noLowerR (s : string) : bool :=
  forallb (fun c => negb (Ascii.eqb c "r")) (list_ascii_of_string s).

Lemma matchAt_noR (s : string) : noLowerR s = true -> RgbRegex.matchAt s = None.
Proof.
  destruct s as [|c s]; [reflexivity|]. unfold noLowerR. cbn [list_ascii_of_string forallb].
  intros H. apply andb_true_iff in H. destruct H as [Hc _].
  apply negb_true_iff in Hc. unfold RgbRegex.matchAt.
  cbn [RgbRegex.lit]. rewrite Ascii.eqb_sym, Hc. reflexivity.
Qed.

Lemma exec_noR (s : string) : noLowerR s = true -> RgbRegex.exec s = None.
Proof.
  induction s as [|c s IH]; intros H; [reflexivity|].
  cbn [RgbRegex.exec]. rewrite (matchAt_noR _ H).
  apply IH. unfold noLowerR in *. cbn [list_ascii_of_string forallb] in H.
  apply andb_true_iff in H. tauto.
Qed.

Lemma upperChar_not_r (c : ascii) : Ascii.eqb (Js.upperChar c) "r" = false.
Proof. destruct c as [[] [] [] [] [] [] [] []]; vm_compute; reflexivity. Qed.

Lemma toUpperCase_noR (s : string) : noLowerR (Js.toUpperCase s) = true.
Proof.
  induction s as [|c s IH]; [reflexivity|]. cbn [Js.toUpperCase].
  destruct (Js.code c =? 223)%N; unfold noLowerR in *;
    cbn [list_ascii_of_string forallb].
  - now rewrite IH.
  - now rewrite upperChar_not_r, IH.
Qed.

Lemma hash_passes (x : string) :
  noLowerR x = true ->
  SectionInspect.rgbToHex (String "#" x) = String "#" x
  /\ StyleDebug.rgbToHex (String "#" x) = Some (String "#" x).
Proof.
  intros Hx.
  assert (He : RgbRegex.exec (String "#" x) = None).
  { apply exec_noR. unfold noLowerR in *. cbn [list_ascii_of_string forallb]. now rewrite Hx. }
  unfold SectionInspect.rgbToHex, StyleDebug.rgbToHex. rewrite He. split; reflexivity.
Qed.

(** X1.  The normalisers leave their own results alone: what they return for
    a text is returned again when that result is normalised once more. *)
Theorem rgbToHex_idempotent (rgb : string) :
  SectionInspect.rgbToHex (SectionInspect.rgbToHex rgb) = SectionInspect.rgbToHex rgb
  /\ (forall hex, StyleDebug.rgbToHex rgb = Some hex -> StyleDebug.rgbToHex hex = Some hex).
Proof.
  split.
  - unfold SectionInspect.rgbToHex at 2 3.
    destruct (negb (Js.truthy rgb) || (rgb =? "transparent") || (rgb =? "rgba(0, 0, 0, 0)"))
      eqn:Hg; [reflexivity|].
    destruct (RgbRegex.exec rgb) as [[[m1 m2] m3]|] eqn:He.
    + cbv zeta. rewrite append_cons, append_nil. cbn [Js.toUpperCase].
      change (Js.code "#" =? 223)%N with false. cbv iota.
      change (Js.upperChar "#") with "#"%char.
      apply hash_passes. apply toUpperCase_noR.
    + unfold SectionInspect.rgbToHex. now rewrite Hg, He.
  - intros hex. unfold StyleDebug.rgbToHex at 1.
    destruct (negb (Js.truthy rgb) || (rgb =? "transparent") || (rgb =? "rgba(0, 0, 0, 0)"))
      eqn:Hg; [discriminate|].
    destruct (RgbRegex.exec rgb) as [[[m1 m2] m3]|] eqn:He.
    + cbv zeta. intros H. injection H as <-. rewrite append_cons, append_nil.
      apply hash_passes. apply toUpperCase_noR.
    + intros H. injection H as <-. unfold StyleDebug.rgbToHex. now rewrite Hg, He.
Qed.

Lemma lit_prefix (pre s : string) : String.prefix pre s = false -> RgbRegex.lit pre s = None.
Proof.
  revert s. induction pre as [|a pre IH]; intros s H.
  - destruct s; discriminate.
  - destruct s as [|b s]; [reflexivity|]. cbn [String.prefix RgbRegex.lit] in *.
    destruct (ascii_dec a b) as [->|Hne].
    + rewrite Ascii.eqb_refl. now apply IH.
    + apply Ascii.eqb_neq in Hne. now rewrite Hne.
Qed.

Lemma exec_without_rgb (s : string) : Js.includes s "rgb" = false -> RgbRegex.exec s = None.
Proof.
  induction s as [|c s IH]; intros H.
  - reflexivity.
  - cbn [Js.includes] in H. apply orb_false_iff in H. destruct H as [Hp Hs].
    cbn [RgbRegex.exec]. unfold RgbRegex.matchAt.
    rewrite (lit_prefix _ _ Hp). cbn [mbind option_bind]. now apply IH.
Qed.

(** X2.  A colour text without [rgb] in it (a named colour, [hsl(...)],
    [color(...)]) is handed back as it is, unless it is empty or the
    keyword [transparent]. *)
Theorem rgbToHex_passes_other_notations (rgb : string)
  (Hnone : Js.includes rgb "rgb" = false)
  (Hfull : rgb <> EmptyString) (Hkey : rgb <> "transparent") :
  SectionInspect.rgbToHex rgb = rgb /\ StyleDebug.rgbToHex rgb = Some rgb.
Proof.
  assert (Hg : negb (Js.truthy rgb) || (rgb =? "transparent") || (rgb =? "rgba(0, 0, 0, 0)")
               = false).
  { apply String.eqb_neq in Hkey. rewrite Hkey.
    destruct rgb as [|c r]; [contradiction|]. cbn [Js.truthy negb orb].
    apply String.eqb_neq. intros Heq. rewrite Heq in Hnone. discriminate. }
  unfold SectionInspect.rgbToHex, StyleDebug.rgbToHex.
  rewrite Hg, (exec_without_rgb _ Hnone). split; reflexivity.
Qed.

Lemma rgbToHex_passes_other_notations_witness :
  SectionInspect.rgbToHex "hsl(210, 50%, 40%)" = "hsl(210, 50%, 40%)"
  /\ StyleDebug.rgbToHex "hsl(210, 50%, 40%)" = Some "hsl(210, 50%, 40%)".
Proof.
  apply (rgbToHex_passes_other_notations "hsl(210, 50%, 40%)");
    [reflexivity | discriminate | discriminate].
Defined.

(* ===================================================================== *)
(** ** Further properties of the file hints and class names *)
(* ===================================================================== *)

Lemma prefix_common (a b c : string) :
  String.prefix a c = true -> String.prefix b c = true ->
  String.prefix a b = true \/ String.prefix b a = true.
Proof.
  revert b c. induction a as [|x a IH]; intros b c Ha Hb.
  - left. destruct b; reflexivity.
  - destruct b as [|y b]; [right; reflexivity|].
    destruct c as [|z c]; [discriminate|].
    cbn [String.prefix] in *.
    destruct (ascii_dec x z) as [->|]; [|discriminate].
    destruct (ascii_dec y z) as [->|]; [|discriminate].
    destruct (ascii_dec z z) as [_|Hne]; [|contradiction].
    exact (IH b c Ha Hb).
Qed.

Definition samePattern (p q : SectionInspect.Pattern) : bool :=
  (SectionInspect.regex p =? SectionInspect.regex q)
  && (SectionInspect.file p =? SectionInspect.file q).

Lemma samePattern_eq (p q : SectionInspect.Pattern) : samePattern p q = true -> p = q.
Proof.
  destruct p as [r1 f1], q as [r2 f2]. unfold samePattern. cbn.
  intros H. apply andb_true_iff in H. destruct H as [Hr Hf].
  apply String.eqb_eq in Hr. apply String.eqb_eq in Hf. now subst.
Qed.

Lemma patterns_prefix_free :
  forallb (fun p =>
    forallb (fun q =>
      implb (String.prefix (SectionInspect.regex p) (SectionInspect.regex q))
            (samePattern p q))
      SectionInspect.patterns)
    SectionInspect.patterns = true.
Proof. vm_compute. reflexivity. Qed.

Lemma patterns_exclusive (c : string) (p q : SectionInspect.Pattern) :
  In p SectionInspect.patterns -> In q SectionInspect.patterns ->
  SectionInspect.test p c = true -> SectionInspect.test q c = true -> p = q.
Proof.
  intros Hp Hq Tp Tq. unfold SectionInspect.test, Js.startsWith in *.
  pose proof patterns_prefix_free as Hall.
  rewrite forallb_forall in Hall.
  destruct (prefix_common _ _ _ Tp Tq) as [H | H].
  - specialize (Hall p Hp). rewrite forallb_forall in Hall. specialize (Hall q Hq).
    rewrite H in Hall. now apply samePattern_eq.
  - specialize (Hall q Hq). rewrite forallb_forall in Hall. specialize (Hall p Hp).
    rewrite H in Hall. symmetry. now apply samePattern_eq.
Qed.

Lemma firstMatch_In (ps : list SectionInspect.Pattern) (c f : string) :
  SectionInspect.firstMatch ps c = Some f ->
  exists p, In p ps /\ SectionInspect.test p c = true /\ SectionInspect.file p = f.
Proof.
  induction ps as [|q ps IH]; [discriminate|]. cbn [SectionInspect.firstMatch].
  destruct (SectionInspect.test q c) eqn:Hq.
  - intros H. injection H as <-. exists q. split; [now left | auto].
  - intros H. destruct (IH H) as (p & Hp & Ht & Hf). exists p. split; [now right | auto].
Qed.

Lemma firstMatch_none_inv (ps : list SectionInspect.Pattern) (c : string) :
  SectionInspect.firstMatch ps c = None ->
  forall q, In q ps -> SectionInspect.test q c = false.
Proof.
  induction ps as [|r ps IH]; intros H q Hq; [contradiction|].
  cbn [SectionInspect.firstMatch] in H.
  destruct (SectionInspect.test r c) eqn:Hr; [discriminate|].
  destruct Hq as [<- | Hq]; [exact Hr | now apply IH].
Qed.

(** X3.  No class name is matched by two patterns of the table, so the order
    of the table never decides: a class name that a pattern matches gets
    the file of that pattern. *)
Theorem guessFileLocation_any_match (c : string) (sectionType : option string)
  (p : SectionInspect.Pattern)
  (Hp : In p SectionInspect.patterns) (Hmatch : SectionInspect.test p c = true) :
  (forall q, In q SectionInspect.patterns -> SectionInspect.test q c = true -> q = p)
  /\ SectionInspect.guessFileLocation (Some c) sectionType = Some (SectionInspect.file p).
Proof.
  split; [intros q Hq Tq; now apply (patterns_exclusive c)|].
  assert (Hc : Js.truthy c = true).
  { destruct c; [|reflexivity]. exfalso.
    assert (Hr : Js.truthy (SectionInspect.regex p) = true).
    { revert Hp. clear. intros Hp. cbn in Hp.
      repeat (destruct Hp as [<- | Hp]; [reflexivity|]). contradiction. }
    unfold SectionInspect.test, Js.startsWith in Hmatch.
    destruct (SectionInspect.regex p); discriminate. }
  unfold SectionInspect.guessFileLocation. rewrite Hc. cbn [negb].
  destruct (SectionInspect.firstMatch SectionInspect.patterns c) as [f|] eqn:Hf.
  - apply firstMatch_In in Hf. destruct Hf as (q & Hq & Tq & <-).
    now rewrite (patterns_exclusive c q p Hq Hp Tq Hmatch).
  - pose proof (firstMatch_none_inv _ _ Hf p Hp) as Hno. congruence.
Qed.

Lemma guessFileLocation_any_match_witness :
  SectionInspect.guessFileLocation (Some "product-card__title") None
  = Some "snippets/product-card.liquid".
Proof.
  apply (guessFileLocation_any_match "product-card__title" None
           {| SectionInspect.regex := "product-card";
              SectionInspect.file := "snippets/product-card.liquid" |}).
  - cbn. tauto.
  - reflexivity.
Defined.

Lemma patterns_files_nonempty :
  forallb (fun p => Js.truthy (SectionInspect.file p)) SectionInspect.patterns = true.
Proof. reflexivity. Qed.

(** X4.  A hint is missing exactly when the class name is missing or empty;
    every hint that is given is a non-empty text. *)
Theorem guessFileLocation_null (className sectionType : option string) :
  (SectionInspect.guessFileLocation className sectionType = None
   <-> className = None \/ className = Some EmptyString)
  /\ (forall hint, SectionInspect.guessFileLocation className sectionType = Some hint ->
                   hint <> EmptyString).
Proof.
  unfold SectionInspect.guessFileLocation.
  destruct className as [c|]; [|split; [tauto | discriminate]].
  destruct c as [|a c]; [split; [tauto | discriminate]|].
  cbn [Js.truthy negb].
  destruct (SectionInspect.firstMatch SectionInspect.patterns (String a c)) as [f|] eqn:Hf.
  - split; [split; [discriminate | intros [H|H]; discriminate]|].
    intros hint H. injection H as <-. apply firstMatch_In in Hf.
    destruct Hf as (q & Hq & _ & <-).
    pose proof patterns_files_nonempty as Hall. rewrite forallb_forall in Hall.
    specialize (Hall q Hq). destruct (SectionInspect.file q); discriminate.
  - split.
    + split; [|intros [H|H]; discriminate].
      destruct sectionType as [t|]; [destruct (Js.truthy t)|]; discriminate.
    + intros hint. destruct sectionType as [t|]; [destruct (Js.truthy t)|];
        intros H; injection H as <-; discriminate.
Qed.

Lemma split_pieces (sep : ascii) (s piece : string) :
  In piece (Js.split sep s) ->
  forallb (fun c => negb (Ascii.eqb c sep)) (list_ascii_of_string piece) = true.
Proof.
  revert piece. induction s as [|c s IH]; intros piece Hin.
  - cbn in Hin. destruct Hin as [<- | []]. reflexivity.
  - cbn [Js.split] in Hin. destruct (Ascii.eqb c sep) eqn:Hc.
    + destruct Hin as [<- | Hin]; [reflexivity | now apply IH].
    + destruct (Js.split sep s) as [|h r] eqn:Hs.
      * destruct Hin as [<- | []]. cbn. now rewrite Hc.
      * destruct Hin as [<- | Hin].
        -- cbn [list_ascii_of_string forallb]. rewrite Hc. cbn [negb andb].
           apply IH. now left.
        -- apply IH. now right.
Qed.

(** X5.  The primary class of an element is one of the pieces of its class
    attribute between spaces; it is never blank and never starts with
    [shopify] or [color-].  An element whose [className] is not a string
    has none. *)
Theorem getPrimaryClass_sound (e : SectionInspect.Element) (c : string)
  (Hc : SectionInspect.getPrimaryClass e = Some c) :
  SectionInspect.isSvg e = false
  /\ In c (Js.split " " (SectionInspect.classAttr e))
  /\ forallb (fun x => negb (Ascii.eqb x " ")) (list_ascii_of_string c) = true
  /\ Js.trim c <> EmptyString
  /\ Js.startsWith c "shopify" = false
  /\ Js.startsWith c "color-" = false.
Proof.
  unfold SectionInspect.getPrimaryClass in Hc.
  destruct (negb (Js.truthy (SectionInspect.classAttr e)) || SectionInspect.isSvg e) eqn:Hg;
    [discriminate|].
  apply orb_false_iff in Hg. destruct Hg as [_ Hsvg]. split; [exact Hsvg|].
  assert (Hin : In c (List.filter
            (fun c => Js.truthy (Js.trim c) && negb (Js.startsWith c "shopify")
                      && negb (Js.startsWith c "color-"))
            (Js.split " " (SectionInspect.classAttr e)))).
  { destruct (List.filter _ _) as [|h r]; [discriminate|].
    cbn in Hc. injection Hc as ->. now left. }
  apply filter_In in Hin. destruct Hin as [Hin Hok].
  rewrite !andb_true_iff, !negb_true_iff in Hok. destruct Hok as [[Ht Hs] Hco].
  split; [exact Hin|]. split; [now apply (split_pieces " " (SectionInspect.classAttr e))|].
  split; [|tauto]. intros Heq. rewrite Heq in Ht. discriminate.
Qed.

Lemma getPrimaryClass_sound_witness :
  Js.startsWith "hero__title" "shopify" = false.
Proof.
  exact (proj1 (proj2 (proj2 (proj2 (proj2
    (getPrimaryClass_sound
       (sample "H1" "shopify-block color-scheme-1 hero__title big" false black clear)
       "hero__title" eq_refl)))))).
Defined.

(* ===================================================================== *)
(** ** Further properties of the per-section scan *)
(* ===================================================================== *)

Lemma firstMatchIndex_lt (sels : list SectionInspect.Selector) (e : SectionInspect.Element) :
  (firstMatchIndex sels e < length sels)%nat ->
  exists sel, In sel sels /\ SectionInspect.matchesSelector sel e = true.
Proof.
  induction sels as [|s r IH]; cbn [firstMatchIndex length]; intros H; [lia|].
  destruct (SectionInspect.matchesSelector s e) eqn:Hs.
  - exists s. split; [now left | exact Hs].
  - destruct IH as (sel & Hin & Hm); [lia|]. exists sel. split; [now right | exact Hm].
Qed.

(** X6.  Every entry of a scan after the first is for an element that
    matches one of the selectors of the list and lies outside the
    inspector's modal; it is the entry [elementFact] builds for that
    element under the class name [reportClass] gives it; and the element
    has a text or background colour other than [transparent] or is
    media.  So an element that matches no selector, an element without a
    class name that is no [img], and a transparent element that is not
    media are never reported. *)
Theorem scan_entries_sound (ty : option string) (outer : list SectionInspect.Element)
  (section : SectionInspect.Node) :
  Forall (fun p =>
            (exists sel, In sel SectionInspect.selectors
                         /\ SectionInspect.matchesSelector sel (SectionInspect.el (fst p)) = true)
            /\ SectionInspect.closestId SectionInspect.DEBUG_MODAL_ID (fst p) = false
            /\ SectionInspect.reportClass (SectionInspect.el (fst p))
               = Some (SectionInspect.f_className (snd p))
            /\ snd p = SectionInspect.elementFact ty (fst p) (SectionInspect.f_className (snd p))
            /\ styled ty (fst p) (SectionInspect.f_className (snd p)) = true)
         (SectionInspect.scanTrace ty outer section).
Proof.
  apply List.Forall_forall. intros [t f] Hin. cbn [fst snd].
  destruct (scan_entriesOk ty outer section) as (Hent & _).
  destruct (Hent t f Hin) as (_ & _ & _ & Hf & Hrc & Hmodal & _).
  destruct (scan_order ty (SectionInspect.descendants outer section)
              (descendants_sorted outer section)
              SectionInspect.selectors [] SectionInspect.emptyScan) as (_ & Hlt & _).
  { reflexivity. }
  { repeat split; constructor. }
  { intros u s _ []. }
  rewrite List.Forall_forall in Hlt. specialize (Hlt (t, f) Hin).
  split; [now apply firstMatchIndex_lt|].
  split; [exact Hmodal|]. split; [exact Hrc|]. split; [exact Hf|].
  assert (Hst : pushedStyled ty
            (scanFrom ty (SectionInspect.descendants outer section)
               SectionInspect.selectors SectionInspect.emptyScan)).
  { apply scan_invariant.
    - intros st u _. apply pushedStyled_visit.
    - constructor. }
  unfold pushedStyled in Hst. rewrite List.Forall_forall in Hst.
  exact (Hst (t, f) Hin).
Qed.

Lemma substring0_length (n : nat) (s : string) :
  (String.length (Js.substring0 n s) <= n)%nat.
Proof.
  revert s. induction n as [|n IH]; intros [|c s]; cbn; try lia.
  specialize (IH s). lia.
Qed.

Lemma append_length (a b : string) :
  String.length (a ++ b) = (String.length a + String.length b)%nat.
Proof.
  induction a as [|c a IH]; [now rewrite append_nil|].
  rewrite append_cons. cbn [String.length]. now rewrite IH.
Qed.

(** X7.  The image fields of an entry are filled in exactly for an [img]:
    the source shown is never empty and never longer than 83 characters
    (80 of the address and three dots, or [NO SRC] for an image without
    an address), and an image reported as loaded has a natural height
    other than zero.  For any other element the source, the natural
    size, the loaded flag and the object fit are all absent. *)
Theorem elementFact_image_fields (ty : option string) (t : SectionInspect.Target) (c : string) :
  let f := SectionInspect.elementFact ty t c in
  if SectionInspect.isImage (SectionInspect.el t)
  then (exists s, SectionInspect.f_imgSrc f = Some s
                  /\ s <> EmptyString /\ (String.length s <= 83)%nat)
       /\ (exists n, SectionInspect.f_imgNaturalSize f = Some n /\ n <> EmptyString)
       /\ (SectionInspect.f_imgLoaded f = Some true ->
           SectionInspect.naturalHeight (SectionInspect.el t) <> 0%N)
  else SectionInspect.f_imgSrc f = None
       /\ SectionInspect.f_imgNaturalSize f = None
       /\ SectionInspect.f_imgLoaded f = None
       /\ SectionInspect.f_objectFit f = None.
Proof.
  cbv zeta. cbn [SectionInspect.elementFact SectionInspect.f_imgSrc
    SectionInspect.f_imgNaturalSize SectionInspect.f_imgLoaded SectionInspect.f_objectFit].
  destruct (SectionInspect.isImage (SectionInspect.el t)); [|auto].
  split; [|split].
  - eexists. split; [reflexivity|].
    destruct (Js.truthy (SectionInspect.src (SectionInspect.el t))) eqn:Ht.
    + destruct (80 <? String.length (SectionInspect.src (SectionInspect.el t)))%nat eqn:Hl.
      * split.
        -- intros H. apply (f_equal String.length) in H. rewrite append_length in H.
           cbn in H. lia.
        -- rewrite append_length.
           pose proof (substring0_length 80 (SectionInspect.src (SectionInspect.el t))).
           cbn [String.length]. lia.
      * apply Nat.ltb_ge in Hl. split; [|lia].
        intros H. rewrite H in Ht. discriminate.
    + split; [discriminate | cbn; lia].
  - eexists. split; [reflexivity|]. destruct (_ && _)%N eqn:Hn.
    + apply andb_true_iff in Hn. destruct Hn as [Hw _].
      apply negb_true_iff, N.eqb_neq in Hw.
      intros H. apply (f_equal String.length) in H. rewrite !append_length in H.
      unfold SectionInspect.times in H. cbn [String.length] in H. lia.
    + discriminate.
  - intros H. injection H as H. apply andb_true_iff in H. destruct H as [_ H].
    apply N.ltb_lt in H. lia.
Qed.

(* ===================================================================== *)
(** ** Further properties of the full-page style scan *)
(* ===================================================================== *)

(** *** Maps: looking a key up, creating it when absent, and changing it *)

Section Touch.
Context {K V : Type} `{EqDecision K}.
Implicit Types (m : JsMap.t K V).

Lemma touch_cons (k k' : K) (v' init : V) (f : V -> V) m :
  k' <> k ->
  JsMap.update k f (StyleDebug.ensure k init ((k', v') :: m))
  = (k', v') :: JsMap.update k f (StyleDebug.ensure k init m).
Proof.
  intros Hne. unfold StyleDebug.ensure. cbn [JsMap.has].
  destruct (decide (k' = k)); [contradiction|].
  destruct (JsMap.has k m); cbn [JsMap.set];
    [|destruct (decide (k' = k)); [contradiction|]];
    cbn [JsMap.update]; destruct (decide (k' = k)); try contradiction; reflexivity.
Qed.

Lemma touch_here (k : K) (v' init : V) (f : V -> V) m :
  JsMap.update k f (StyleDebug.ensure k init ((k, v') :: m)) = (k, f v') :: m.
Proof.
  unfold StyleDebug.ensure. cbn [JsMap.has].
  destruct (decide (k = k)); [|contradiction]. cbn [JsMap.update].
  destruct (decide (k = k)); [reflexivity | contradiction].
Qed.

Lemma touch_nil (k : K) (init : V) (f : V -> V) :
  JsMap.update k f (StyleDebug.ensure k init []) = [(k, f init)].
Proof.
  unfold StyleDebug.ensure. cbn. destruct (decide (k = k)); [reflexivity | contradiction].
Qed.

Lemma touch_Forall (P : K * V -> Prop) (k : K) (init : V) (f : V -> V) m :
  Forall P m ->
  (forall v, v = init \/ P (k, v) -> P (k, f v)) ->
  Forall P (JsMap.update k f (StyleDebug.ensure k init m)).
Proof.
  intros Hm Hf. induction Hm as [|[k' v'] m Hx Hm IH].
  - rewrite touch_nil. constructor; [apply Hf; now left | constructor].
  - destruct (decide (k' = k)) as [->|Hne].
    + rewrite touch_here. constructor; [apply Hf; now right | exact Hm].
    + rewrite touch_cons by exact Hne. constructor; assumption.
Qed.

Lemma touch_keys_incl (k : K) (init : V) (f : V -> V) m (x : K) :
  In x (map fst (JsMap.update k f (StyleDebug.ensure k init m))) ->
  x = k \/ In x (map fst m).
Proof.
  induction m as [|[k' v'] m IH].
  - rewrite touch_nil. cbn. intros [<- | []]. now left.
  - destruct (decide (k' = k)) as [->|Hne].
    + rewrite touch_here. cbn [map fst]. intros [<- | Hin]; [now left | right; now right].
    + rewrite touch_cons by exact Hne. cbn [map fst]. intros [<- | Hin].
      * right. now left.
      * destruct (IH Hin) as [-> | Hx]; [now left | right; now right].
Qed.

Lemma touch_NoDup (k : K) (init : V) (f : V -> V) m :
  List.NoDup (map fst m) ->
  List.NoDup (map fst (JsMap.update k f (StyleDebug.ensure k init m))).
Proof.
  induction m as [|[k' v'] m IH]; intros Hnd.
  - rewrite touch_nil. cbn. constructor; [intros [] | constructor].
  - destruct (decide (k' = k)) as [->|Hne].
    + rewrite touch_here. exact Hnd.
    + rewrite touch_cons by exact Hne. cbn [map fst] in *.
      inversion Hnd as [|? ? Hnotin Hnd']; subst. constructor; [|now apply IH].
      intros Hin. apply touch_keys_incl in Hin. destruct Hin as [-> | Hin]; contradiction.
Qed.

(** A table whose entries all satisfy [P] and whose keys are distinct. *)
Definition tableInv (P : K * V -> Prop) m : Prop :=
  Forall P m /\ List.NoDup (map fst m).

Lemma touch_inv (P : K * V -> Prop) (k : K) (init : V) (f : V -> V) m :
  tableInv P m ->
  (forall v, v = init \/ P (k, v) -> P (k, f v)) ->
  tableInv P (JsMap.update k f (StyleDebug.ensure k init m)).
Proof.
  intros [Hm Hnd] Hf. split; [now apply touch_Forall | now apply touch_NoDup].
Qed.

End Touch.

(** *** Sorting *)

Lemma insertBy_perm {A} (cmp : A -> A -> Z) (x : A) (l : list A) :
  Permutation (JsMap.insertBy cmp x l) (x :: l).
Proof.
  induction l as [|y l IH]; cbn [JsMap.insertBy]; [reflexivity|].
  destruct (cmp x y <=? 0)%Z; [reflexivity|].
  rewrite IH. apply perm_swap.
Qed.

Lemma sortBy_perm {A} (cmp : A -> A -> Z) (l : list A) :
  Permutation (JsMap.sortBy cmp l) l.
Proof.
  unfold JsMap.sortBy. induction l as [|x l IH]; cbn [foldr]; [reflexivity|].
  rewrite insertBy_perm. now constructor.
Qed.

Section Sorting.
Context {A : Type}.
Variable cmp : A -> A -> Z.
Hypothesis cmp_total : forall a b, (cmp a b <= 0)%Z \/ (cmp b a <= 0)%Z.
Hypothesis cmp_trans :
  forall a b c, (cmp a b <= 0)%Z -> (cmp b c <= 0)%Z -> (cmp a c <= 0)%Z.

Lemma insertBy_sorted (x : A) (l : list A) :
  StronglySorted (fun a b => (cmp a b <= 0)%Z) l ->
  StronglySorted (fun a b => (cmp a b <= 0)%Z) (JsMap.insertBy cmp x l).
Proof.
  induction 1 as [|y l Hs IH Hy]; cbn [JsMap.insertBy].
  - constructor; constructor.
  - destruct (Z.leb_spec (cmp x y) 0) as [Hle | Hgt].
    + constructor; [now constructor|].
      constructor; [exact Hle|].
      eapply List.Forall_impl; [|exact Hy]. intros z Hz. now apply (cmp_trans x y z).
    + constructor; [exact IH|].
      apply insertBy_Forall; [|exact Hy].
      destruct (cmp_total x y) as [H | H]; [lia | exact H].
Qed.

Lemma sortBy_sorted (l : list A) :
  StronglySorted (fun a b => (cmp a b <= 0)%Z) (JsMap.sortBy cmp l).
Proof.
  unfold JsMap.sortBy. induction l as [|x l IH]; cbn [foldr]; [constructor|].
  now apply insertBy_sorted.
Qed.

End Sorting.

Lemma StronglySorted_strict {A B} (key : A -> B) (R S : A -> A -> Prop) (l : list A) :
  (forall a b, R a b -> key a <> key b -> S a b) ->
  StronglySorted R l -> List.NoDup (map key l) -> StronglySorted S l.
Proof.
  intros HRS. induction 1 as [|x l Hs IH Hx]; intros Hnd; [constructor|].
  cbn [map] in Hnd. inversion Hnd as [|? ? Hnotin Hnd']; subst.
  constructor; [now apply IH|].
  apply List.Forall_forall. intros y Hy. rewrite List.Forall_forall in Hx.
  apply HRS; [now apply Hx|].
  intros Heq. apply Hnotin. rewrite Heq. now apply in_map.
Qed.

Lemma StronglySorted_map {A B} (g : A -> B) (S : B -> B -> Prop) (l : list A) :
  StronglySorted (fun a b => S (g a) (g b)) l -> StronglySorted S (map g l).
Proof.
  induction 1 as [|x l Hs IH Hx]; cbn [map]; constructor; [exact IH|].
  now apply List.Forall_map.
Qed.

Lemma StronglySorted_weaken {A} (R S : A -> A -> Prop) (l : list A) :
  (forall a b, R a b -> S a b) -> StronglySorted R l -> StronglySorted S l.
Proof.
  intros HRS. induction 1 as [|x l Hs IH Hx]; constructor; [exact IH|].
  eapply List.Forall_impl; [|exact Hx]. intros y. apply HRS.
Qed.

Lemma sortBy_keys_NoDup {A B} (key : A -> B) (cmp : A -> A -> Z) (l : list A) :
  List.NoDup (map key l) -> List.NoDup (map key (JsMap.sortBy cmp l)).
Proof.
  intros H. eapply Permutation_NoDup; [|exact H].
  apply Permutation_map. symmetry. apply sortBy_perm.
Qed.

(** *** What the tables of the style scan hold *)

Definition familyOk (kv : string * list string) : Prop :=
  snd kv <> []
  /\ fst kv <> EmptyString
  /\ StyleDebug.isExpectedFontFamily (fst kv) = false.

Definition sizeOk (kv : Qc * list string) : Prop := snd kv <> [] /\ fst kv <> 0%Qc.

Definition weightOk (kv : Z * list string) : Prop := snd kv <> [] /\ fst kv <> 0%Z.

Definition colourOk (isDark : bool) (kv : string * StyleDebug.ColorData) : Prop :=
  StyleDebug.cd_elements (snd kv) <> []
  /\ exists hex,
      hex <> EmptyString
      /\ StyleDebug.cd_isTheme (snd kv) = StyleDebug.isThemeColor isDark (Some hex)
      /\ if StyleDebug.cd_isBg (snd kv) then fst kv = "bg:" ++ hex
         else fst kv = hex /\ hex <> "#000000" /\ hex <> "#FFFFFF".

Definition nearExpected (rounded : Z) : bool :=
  existsb (fun expected => (Z.abs (rounded - expected) <=? 2)%Z) StyleDebug.spacingValues.

Definition spacingOk (kv : Z * StyleDebug.SpacingData) : Prop :=
  StyleDebug.sd_elements (snd kv) <> []
  /\ StyleDebug.sd_properties (snd kv) <> []
  /\ List.NoDup (StyleDebug.sd_properties (snd kv))
  /\ Forall (fun p => In p StyleDebug.spacingProps) (StyleDebug.sd_properties (snd kv))
  /\ (0 <= fst kv)%Z
  /\ StyleDebug.sd_isConsistent (snd kv) = nearExpected (fst kv).

Definition tablesOk (isDark : bool) (tb : StyleDebug.Tables) : Prop :=
  tableInv familyOk (StyleDebug.seenFontFamilies tb)
  /\ tableInv sizeOk (StyleDebug.seenFontSizes tb)
  /\ tableInv weightOk (StyleDebug.seenFontWeights tb)
  /\ tableInv (colourOk isDark) (StyleDebug.seenColors tb)
  /\ tableInv spacingOk (StyleDebug.seenSpacing tb).

Lemma pushExample_nonempty (selector : string) (els : list string) :
  StyleDebug.pushExample selector els <> [].
Proof.
  unfold StyleDebug.pushExample. destruct (Nat.ltb_spec (length els) 3) as [Hlt | Hge].
  - destruct els; discriminate.
  - destruct els; [cbn in Hge; lia | discriminate].
Qed.

Lemma snoc_nonempty {A} (l : list A) (x : A) : (l ++ [x])%list <> [].
Proof. destruct l; discriminate. Qed.

Lemma familyOk_scan (selector : string) (el : StyleDebug.El) (m : JsMap.t string (list string)) :
  tableInv familyOk m -> tableInv familyOk (StyleDebug.scanFontFamily selector el m).
Proof.
  intros Hm. unfold StyleDebug.scanFontFamily.
  destruct (Js.truthy (StyleDebug.computed el "font-family")) eqn:Ht; [|exact Hm].
  destruct (StyleDebug.isExpectedFontFamily (StyleDebug.computed el "font-family")) eqn:He;
    [exact Hm|].
  cbn [negb andb]. cbv zeta. apply touch_inv; [exact Hm|].
  intros v _. split; [apply snoc_nonempty|]. cbn [fst]. split; [|exact He].
  intros Heq. rewrite Heq in Ht. discriminate.
Qed.

Lemma sizeOk_scan (selector : string) (el : StyleDebug.El) (m : JsMap.t Qc (list string)) :
  tableInv sizeOk m -> tableInv sizeOk (StyleDebug.scanFontSize selector el m).
Proof.
  intros Hm. unfold StyleDebug.scanFontSize.
  destruct (StyleDebug.fontSizePx el) as [size|]; [|exact Hm].
  destruct (decide (size = 0%Qc)) as [|Hne]; [exact Hm|].
  apply touch_inv; [exact Hm|].
  intros v _. split; [apply pushExample_nonempty | exact Hne].
Qed.

Lemma weightOk_scan (selector : string) (el : StyleDebug.El) (m : JsMap.t Z (list string)) :
  tableInv weightOk m -> tableInv weightOk (StyleDebug.scanFontWeight selector el m).
Proof.
  intros Hm. unfold StyleDebug.scanFontWeight.
  destruct (StyleDebug.fontWeightInt el) as [weight|]; [|exact Hm].
  destruct (decide (weight = 0%Z)) as [|Hne]; [exact Hm|].
  apply touch_inv; [exact Hm|].
  intros v _. split; [apply pushExample_nonempty | exact Hne].
Qed.

Lemma colourOk_text (isDark : bool) (selector : string) (el : StyleDebug.El)
  (m : JsMap.t string StyleDebug.ColorData) :
  tableInv (colourOk isDark) m ->
  tableInv (colourOk isDark) (StyleDebug.scanTextColor isDark selector el m).
Proof.
  intros Hm. unfold StyleDebug.scanTextColor.
  destruct (StyleDebug.rgbToHex _) as [color|]; [|exact Hm].
  destruct (Js.truthy color && negb (color =? "#000000") && negb (color =? "#FFFFFF")) eqn:Hc;
    [|exact Hm].
  cbv zeta. apply touch_inv; [exact Hm|].
  rewrite !andb_true_iff, !negb_true_iff, !String.eqb_neq in Hc.
  destruct Hc as [[Ht Hb] Hw].
  intros v [-> | (_ & hex & Hne & Hth & Hkey)].
  - split; [apply pushExample_nonempty|]. exists color. cbn.
    split; [intros Heq; rewrite Heq in Ht; discriminate|]. auto.
  - split; [apply pushExample_nonempty|]. exists hex. cbn in *. auto.
Qed.

Lemma colourOk_background (isDark : bool) (selector : string) (el : StyleDebug.El)
  (m : JsMap.t string StyleDebug.ColorData) :
  tableInv (colourOk isDark) m ->
  tableInv (colourOk isDark) (StyleDebug.scanBackground isDark selector el m).
Proof.
  intros Hm. unfold StyleDebug.scanBackground.
  destruct (StyleDebug.rgbToHex _) as [bg|]; [|exact Hm].
  destruct (Js.truthy bg) eqn:Ht; [|exact Hm].
  cbv zeta. apply touch_inv; [exact Hm|].
  intros v [-> | (_ & hex & Hne & Hth & Hkey)].
  - split; [apply pushExample_nonempty|]. exists bg. cbn.
    split; [intros Heq; rewrite Heq in Ht; discriminate|]. auto.
  - split; [apply pushExample_nonempty|]. exists hex. cbn in *. auto.
Qed.

Lemma add_props (label : string) (props : list string) :
  In label StyleDebug.spacingProps ->
  List.NoDup props -> Forall (fun p => In p StyleDebug.spacingProps) props ->
  JsMap.add label props <> []
  /\ List.NoDup (JsMap.add label props)
  /\ Forall (fun p => In p StyleDebug.spacingProps) (JsMap.add label props).
Proof.
  intros Hl Hnd Hin. unfold JsMap.add.
  destruct (decide (label ∈ props)) as [Hmem | Hmem].
  - split; [|split; assumption]. intros ->. now apply elem_of_nil in Hmem.
  - split; [apply snoc_nonempty|]. split.
    + apply List.NoDup_app; [exact Hnd | constructor; [intros [] | constructor]|].
      intros x Hx [<- | []]. apply Hmem. now apply list_elem_of_In.
    + apply Forall_app. split; [exact Hin | constructor; [exact Hl | constructor]].
Qed.

Lemma round_nonneg (v : Qc) : (0 < v)%Qc -> (0 <= Js.round v)%Z.
Proof.
  intros H. apply round_lower. apply Qlt_le_weak. exact H.
Qed.

Lemma spacingOk_prop (selector : string) (el : StyleDebug.El)
  (m : JsMap.t Z StyleDebug.SpacingData) (label : string) :
  In label StyleDebug.spacingProps ->
  tableInv spacingOk m -> tableInv spacingOk (StyleDebug.scanSpacingProp selector el m label).
Proof.
  intros Hl Hm. unfold StyleDebug.scanSpacingProp.
  destruct (StyleDebug.parseSpacingValue _ _) as [value|]; [|exact Hm].
  destruct (decide (0 < value)%Qc) as [Hpos|]; [|exact Hm]. cbv zeta.
  apply touch_inv; [exact Hm|].
  intros v [-> | (_ & _ & Hnd & Hin & Hk & Hc)]; unfold spacingOk;
    cbn [fst snd StyleDebug.pushSpacing StyleDebug.sd_elements StyleDebug.sd_properties
         StyleDebug.sd_isConsistent].
  - destruct (add_props label [] Hl) as (Ha & Hb & Hd); [constructor | constructor|].
    split; [apply pushExample_nonempty|]. split; [exact Ha|]. split; [exact Hb|].
    split; [exact Hd|]. split; [now apply round_nonneg | reflexivity].
  - destruct (add_props label _ Hl Hnd Hin) as (Ha & Hb & Hd).
    split; [apply pushExample_nonempty|]. split; [exact Ha|]. split; [exact Hb|].
    split; [exact Hd|]. split; [now apply round_nonneg | exact Hc].
Qed.

Lemma tablesOk_scanElement (isDark : bool) (tb : StyleDebug.Tables) (el : StyleDebug.El) :
  tablesOk isDark tb -> tablesOk isDark (StyleDebug.scanElement isDark tb el).
Proof.
  intros (Hf & Hs & Hw & Hc & Hp). unfold StyleDebug.scanElement.
  destruct (StyleDebug.closestModal el); [exact (conj Hf (conj Hs (conj Hw (conj Hc Hp))))|].
  destruct (StyleDebug.hidden el); [exact (conj Hf (conj Hs (conj Hw (conj Hc Hp))))|].
  cbv zeta. unfold tablesOk. cbn [StyleDebug.seenFontFamilies StyleDebug.seenFontSizes
    StyleDebug.seenFontWeights StyleDebug.seenColors StyleDebug.seenSpacing].
  split; [now apply familyOk_scan|]. split; [now apply sizeOk_scan|].
  split; [now apply weightOk_scan|].
  split; [now apply colourOk_background, colourOk_text|].
  assert (Hall : forall l, In l StyleDebug.spacingProps -> In l StyleDebug.spacingProps)
    by auto.
  revert Hall Hp. generalize (StyleDebug.seenSpacing tb).
  generalize StyleDebug.spacingProps at 1 3. intros props.
  induction props as [|label props IH]; intros m Hall Hm; cbn [fold_left]; [exact Hm|].
  apply IH.
  - intros l Hin. apply Hall. now right.
  - apply spacingOk_prop; [apply Hall; now left | exact Hm].
Qed.

Lemma tablesOk_scan (isDark : bool) (els : list StyleDebug.El) :
  tablesOk isDark (fold_left (StyleDebug.scanElement isDark) els StyleDebug.emptyTables).
Proof.
  assert (H0 : tablesOk isDark StyleDebug.emptyTables).
  { repeat split; constructor. }
  revert H0. generalize StyleDebug.emptyTables.
  induction els as [|el els IH]; intros tb Htb; cbn [fold_left]; [exact Htb|].
  apply IH. now apply tablesOk_scanElement.
Qed.

Lemma cmpQc_le (a b : Qc) : (StyleDebug.cmpQc a b <= 0)%Z <-> (a <= b)%Qc.
Proof.
  unfold StyleDebug.cmpQc. rewrite Qcle_alt.
  destruct (a ?= b)%Qc; split; intros H; try lia; try discriminate; congruence.
Qed.

(** X8.  The font sizes, the font weights and the spacing values of a scan
    are listed in strictly ascending order, so that none is listed twice;
    the colours that are not theme colours come before those that are;
    and no font family is listed twice. *)
Theorem scanStyles_order (isDark : bool) (page : list StyleDebug.El) :
  StronglySorted (fun a b => (StyleDebug.fs_value a < StyleDebug.fs_value b)%Qc)
    (StyleDebug.fontSize (StyleDebug.scanStyles isDark page))
  /\ StronglySorted (fun a b => (StyleDebug.fw_value a < StyleDebug.fw_value b)%Z)
       (StyleDebug.fontWeight (StyleDebug.scanStyles isDark page))
  /\ StronglySorted (fun a b => (StyleDebug.sp_value a < StyleDebug.sp_value b)%Z)
       (StyleDebug.spacing (StyleDebug.scanStyles isDark page))
  /\ StronglySorted (fun a b => StyleDebug.c_isTheme a = true -> StyleDebug.c_isTheme b = true)
       (StyleDebug.color (StyleDebug.scanStyles isDark page))
  /\ List.NoDup (map StyleDebug.ff_value (StyleDebug.fontFamily (StyleDebug.scanStyles isDark page))).
Proof.
  unfold StyleDebug.scanStyles. cbv zeta. fold (styleScanElements page).
  cbn [StyleDebug.fontSize StyleDebug.fontWeight StyleDebug.color StyleDebug.spacing
       StyleDebug.fontFamily].
  destruct (tablesOk_scan isDark (styleScanElements page))
    as ((_ & Hf) & (_ & Hs) & (_ & Hw) & _ & (_ & Hp)).
  split; [|split; [|split; [|split]]].
  - apply StronglySorted_map.
    apply (StronglySorted_weaken (fun a b => (fst a < fst b)%Qc));
      [intros [k v] [k' v'] H; exact H|].
    apply (StronglySorted_strict fst
             (fun a b => (StyleDebug.cmpQc (fst a) (fst b) <= 0)%Z)).
    + intros a b Hle Hne. apply cmpQc_le in Hle.
      destruct (Qcle_lt_or_eq _ _ Hle); [assumption | contradiction].
    + apply sortBy_sorted.
      * intros a b. rewrite !cmpQc_le.
        destruct (Qclt_le_dec (fst a) (fst b)) as [H | H];
          [left; now apply Qclt_le_weak | now right].
      * intros a b c. rewrite !cmpQc_le. apply Qcle_trans.
    + now apply sortBy_keys_NoDup.
  - apply StronglySorted_map.
    apply (StronglySorted_weaken (fun a b => (fst a < fst b)%Z));
      [intros [k v] [k' v'] H; exact H|].
    apply (StronglySorted_strict fst (fun a b => (fst a - fst b <= 0)%Z)).
    + intros a b Hle Hne. lia.
    + apply (sortBy_sorted (fun a b => (fst a - fst b)%Z)); intros; lia.
    + now apply sortBy_keys_NoDup.
  - apply StronglySorted_map.
    apply (StronglySorted_weaken (fun a b => (fst a < fst b)%Z));
      [intros [k v] [k' v'] H; exact H|].
    apply (StronglySorted_strict fst (fun a b => (fst a - fst b <= 0)%Z)).
    + intros a b Hle Hne. lia.
    + apply (sortBy_sorted (fun a b => (fst a - fst b)%Z)); intros; lia.
    + now apply sortBy_keys_NoDup.
  - eapply StronglySorted_weaken; [|apply sortBy_sorted].
    + intros a b. cbv beta.
      destruct (StyleDebug.c_isTheme a), (StyleDebug.c_isTheme b); cbn; intros; auto; lia.
    + intros a b. destruct (StyleDebug.c_isTheme a), (StyleDebug.c_isTheme b); cbn; lia.
    + intros a b c.
      destruct (StyleDebug.c_isTheme a), (StyleDebug.c_isTheme b), (StyleDebug.c_isTheme c);
        cbn; lia.
  - rewrite map_map.
    rewrite (map_ext _ fst); [exact Hf|]. intros [k v]. reflexivity.
Qed.

(** X9.  Every entry of the font tables stands for a value some scanned
    element has: it lists at least one selector.  A font family is listed
    only when it is not an expected one, and is always flagged; a font
    size or a font weight of zero is never listed. *)
Theorem scanStyles_font_entries (isDark : bool) (page : list StyleDebug.El) :
  Forall (fun e => StyleDebug.ff_elements e <> []
                   /\ StyleDebug.ff_value e <> EmptyString
                   /\ StyleDebug.isExpectedFontFamily (StyleDebug.ff_value e) = false
                   /\ StyleDebug.ff_isInconsistent e = true)
         (StyleDebug.fontFamily (StyleDebug.scanStyles isDark page))
  /\ Forall (fun e => StyleDebug.fs_elements e <> [] /\ StyleDebug.fs_value e <> 0%Qc)
            (StyleDebug.fontSize (StyleDebug.scanStyles isDark page))
  /\ Forall (fun e => StyleDebug.fw_elements e <> [] /\ StyleDebug.fw_value e <> 0%Z)
            (StyleDebug.fontWeight (StyleDebug.scanStyles isDark page)).
Proof.
  unfold StyleDebug.scanStyles. cbv zeta. fold (styleScanElements page).
  cbn [StyleDebug.fontSize StyleDebug.fontWeight StyleDebug.fontFamily].
  destruct (tablesOk_scan isDark (styleScanElements page))
    as ((Hf & _) & (Hs & _) & (Hw & _) & _).
  split; [|split].
  - apply List.Forall_map. eapply List.Forall_impl; [|exact Hf].
    intros [k v] (H1 & H2 & H3). cbn in *. auto.
  - apply List.Forall_map. apply sortBy_Forall. eapply List.Forall_impl; [|exact Hs].
    intros [k v] H. exact H.
  - apply List.Forall_map. apply sortBy_Forall. eapply List.Forall_impl; [|exact Hw].
    intros [k v] H. exact H.
Qed.

(** X10.  Every spacing entry lists at least one selector and at least one
    property; its properties are among the eleven the scan reads and none
    is repeated; its value is not negative; and its flag says whether the
    value shown is within 2 of an expected spacing value, although the
    flag was computed from the first raw value that rounded to it. *)
Theorem scanStyles_spacing_entries (isDark : bool) (page : list StyleDebug.El) :
  Forall (fun e => StyleDebug.sp_elements e <> []
                   /\ StyleDebug.sp_properties e <> []
                   /\ List.NoDup (StyleDebug.sp_properties e)
                   /\ Forall (fun p => In p StyleDebug.spacingProps) (StyleDebug.sp_properties e)
                   /\ (0 <= StyleDebug.sp_value e)%Z
                   /\ StyleDebug.sp_isConsistent e
                      = existsb (fun expected =>
                                   (Z.abs (StyleDebug.sp_value e - expected) <=? 2)%Z)
                                StyleDebug.spacingValues)
         (StyleDebug.spacing (StyleDebug.scanStyles isDark page)).
Proof.
  unfold StyleDebug.scanStyles. cbv zeta. fold (styleScanElements page).
  cbn [StyleDebug.spacing].
  destruct (tablesOk_scan isDark (styleScanElements page)) as (_ & _ & _ & _ & (Hp & _)).
  apply List.Forall_map. apply sortBy_Forall. eapply List.Forall_impl; [|exact Hp].
  intros [k v] H. exact H.
Qed.

Lemma substring_full (s : string) : String.substring 0 (String.length s) s = s.
Proof. induction s as [|c s IH]; cbn; [reflexivity | now rewrite IH]. Qed.

Lemma replaceFirst_bg (hex : string) : Js.replaceFirst "bg:" "" ("bg:" ++ hex) = hex.
Proof.
  rewrite !append_cons, append_nil.
  destruct hex as [|c hex]; [reflexivity|].
  cbn [Js.replaceFirst String.prefix Ascii.eqb Bool.eqb String.length Nat.sub String.substring].
  cbn. rewrite append_nil. f_equal. apply substring_full.
Qed.

(** X11.  Every colour entry lists at least one selector and stands for a
    colour [hex] that is not empty; its theme flag is the verdict of
    [isThemeColor] on that colour.  A background entry shows the colour
    followed by [ (bg)]; a text entry shows the colour itself, and is
    never black ([#000000]) or white ([#FFFFFF]). *)
Theorem scanStyles_colour_entries (isDark : bool) (page : list StyleDebug.El) :
  Forall (fun e => StyleDebug.c_elements e <> []
                   /\ exists hex,
                       hex <> EmptyString
                       /\ StyleDebug.c_isTheme e = StyleDebug.isThemeColor isDark (Some hex)
                       /\ if StyleDebug.c_isBg e
                          then StyleDebug.c_value e = hex ++ " (bg)"
                          else StyleDebug.c_value e = hex
                               /\ hex <> "#000000" /\ hex <> "#FFFFFF")
         (StyleDebug.color (StyleDebug.scanStyles isDark page)).
Proof.
  unfold StyleDebug.scanStyles. cbv zeta. fold (styleScanElements page).
  cbn [StyleDebug.color].
  destruct (tablesOk_scan isDark (styleScanElements page)) as (_ & _ & _ & (Hc & _) & _).
  apply sortBy_Forall. apply List.Forall_map. eapply List.Forall_impl; [|exact Hc].
  intros [k v] (Hne & hex & Hh & Hth & Hkey).
  cbn [fst snd StyleDebug.c_elements StyleDebug.c_isTheme StyleDebug.c_isBg StyleDebug.c_value]
    in *.
  split; [exact Hne|]. exists hex. split; [exact Hh|]. split; [exact Hth|].
  destruct (StyleDebug.cd_isBg v); [|exact Hkey].
  rewrite Hkey, replaceFirst_bg. reflexivity.
Qed.

Definition scanned (el : StyleDebug.El) : bool :=
  negb (StyleDebug.closestModal el) && negb (StyleDebug.hidden el).

Lemma fold_scanned (isDark : bool) (excluded : list string) (page : list StyleDebug.El)
  (tb : StyleDebug.Tables) :
  fold_left (StyleDebug.scanElement isDark)
            (StyleDebug.selectAllBut excluded (List.filter scanned page)) tb
  = fold_left (StyleDebug.scanElement isDark) (StyleDebug.selectAllBut excluded page) tb.
Proof.
  revert tb. induction page as [|el page IH]; intros tb; [reflexivity|].
  cbn [List.filter]. unfold StyleDebug.selectAllBut in *.
  destruct (scanned el) eqn:Hs.
  - rewrite !filter_cons. destruct (decide _); [|apply IH].
    cbn [fold_left]. apply IH.
  - rewrite filter_cons. destruct (decide _); [|apply IH].
    cbn [fold_left]. rewrite IH. f_equal.
    unfold StyleDebug.scanElement. unfold scanned in Hs.
    destruct (StyleDebug.closestModal el); [reflexivity|].
    destruct (StyleDebug.hidden el); [reflexivity | discriminate].
Qed.

(** X12.  The style scan reads nothing from an element inside the style
    inspector's own modal or from an element without a layout box: the
    result is the one the scan gives for the page without these
    elements. *)
Theorem scanStyles_ignores_hidden (isDark : bool) (page : list StyleDebug.El) :
  StyleDebug.scanStyles isDark page
  = StyleDebug.scanStyles isDark (List.filter scanned page).
Proof.
  unfold StyleDebug.scanStyles. cbv zeta. now rewrite fold_scanned.
Qed.

(* ===================================================================== *)
(** ** Further properties of the conflict scan *)
(* ===================================================================== *)







Definition readable (sheet : StyleDebug.Sheet) : bool :=
  match sheet with StyleDebug.CrossOrigin => false | StyleDebug.Rules _ => true end.

Lemma usesVariable_readable (el : StyleDebug.El) (prop : string) (sheets : list StyleDebug.Sheet) :
  StyleDebug.usesVariable el prop (List.filter readable sheets)
  = StyleDebug.usesVariable el prop sheets.
Proof.
  induction sheets as [|[|rules] sheets IH]; cbn [List.filter readable StyleDebug.usesVariable];
    [reflexivity | exact IH | now rewrite IH].
Qed.

(** X14.  A style sheet whose rules cannot be read changes nothing: the scan
    finds the same conflicts with and without it. *)
Theorem scanConflicts_ignores_unreadable_sheets (isDark : bool)
  (sheets : list StyleDebug.Sheet) (page : list StyleDebug.El) :
  StyleDebug.scanConflicts isDark (List.filter readable sheets) page
  = StyleDebug.scanConflicts isDark sheets page.
Proof.
  unfold StyleDebug.scanConflicts. cbv zeta. do 2 f_equal.
  apply flat_map_ext. intros el. unfold StyleDebug.elementConflicts.
  destruct (StyleDebug.closestModal el); [reflexivity|].
  destruct (StyleDebug.hidden el); [reflexivity|]. cbv zeta. f_equal.
  apply flat_map_ext. intros prop. unfold StyleDebug.colorConflicts. cbv zeta.
  now rewrite usesVariable_readable.
Qed.

Lemma dedupe_complete (seen : gset string) (cs : list StyleDebug.Conflict)
  (c : StyleDebug.Conflict) :
  In c cs ->
  conflictText c ∈ seen
  \/ exists c', In c' (StyleDebug.dedupe seen cs) /\ conflictText c' = conflictText c.
Proof.
  revert seen. induction cs as [|d cs IH]; intros seen Hin; [contradiction|].
  cbn [StyleDebug.dedupe]. cbv zeta.
  fold (conflictText d). destruct (decide (conflictText d ∈ seen)) as [Hs | Hs].
  - destruct Hin as [<- | Hin]; [now left | now apply IH].
  - destruct Hin as [<- | Hin]; [right; exists d; split; [now left | reflexivity]|].
    destruct (IH ({[conflictText d]} ∪ seen) Hin) as [Hmem | (c' & Hc' & Heq)].
    + apply elem_of_union in Hmem. destruct Hmem as [Hmem | Hmem]; [|now left].
      apply elem_of_singleton in Hmem. right. exists d. split; [now left | now symmetry].
    + right. exists c'. split; [now right | exact Heq].
Qed.

(** X15.  When a scan returns fewer than 100 conflicts nothing was cut off:
    every conflict found on an element of the page is in the result, or
    one with the same element, type and detail text is. *)
Theorem scanConflicts_complete (isDark : bool) (sheets : list StyleDebug.Sheet)
  (page : list StyleDebug.El) (el : StyleDebug.El) (c : StyleDebug.Conflict)
  (Hsize : (length (StyleDebug.scanConflicts isDark sheets page) < 100)%nat)
  (Hel : In el (StyleDebug.selectAllBut ["script"; "style"; "svg"; "path"] page))
  (Hc : In c (StyleDebug.elementConflicts isDark sheets el)) :
  exists c', In c' (StyleDebug.scanConflicts isDark sheets page)
             /\ conflictText c' = conflictText c.
Proof.
  unfold StyleDebug.scanConflicts in *. cbv zeta in *.
  rewrite length_firstn in Hsize. rewrite firstn_all2 by lia.
  assert (Hin : In c (flat_map (StyleDebug.elementConflicts isDark sheets)
                        (StyleDebug.selectAllBut ["script"; "style"; "svg"; "path"] page))).
  { apply in_flat_map. now exists el. }
  destruct (dedupe_complete ∅ _ c Hin) as [Hmem | H];
    [now apply not_elem_of_empty in Hmem | exact H].
Qed.

Definition promoBox : StyleDebug.El :=
  {| StyleDebug.tagName := "DIV"; StyleDebug.elId := "";
     StyleDebug.className := Some "promo";
     StyleDebug.ancestorIds := []; StyleDebug.offsetParentNull := false;
     StyleDebug.computed := fun _ => "rgb(0, 0, 0)";
     StyleDebug.fontSizePx := None; StyleDebug.fontWeightInt := None;
     StyleDebug.spacingPx := fun _ => None;
     StyleDebug.styleAttr := Some "color: red";
     StyleDebug.inlineProp := fun p => if p =? "color" then "red" else "";
     StyleDebug.innerText := "Sale";
     StyleDebug.matches := fun _ => Some false |}.

Lemma scanConflicts_complete_witness :
  exists c', In c' (StyleDebug.scanConflicts false [] [promoBox; promoBox])
             /\ conflictText c' = "div.promoinline-overrideInline color override".
Proof.
  assert (Hsize : (length (StyleDebug.scanConflicts false [] [promoBox; promoBox]) < 100)%nat)
    by (vm_compute; lia).
  assert (Hel : In promoBox
            (StyleDebug.selectAllBut ["script"; "style"; "svg"; "path"] [promoBox; promoBox]))
    by (vm_compute; left; reflexivity).
  assert (Hc : In {| StyleDebug.element := "div.promo"; StyleDebug.type := "inline-override";
                     StyleDebug.detail := "Inline color override";
                     StyleDebug.style := None; StyleDebug.expected := Some "theme variable";
                     StyleDebug.actual := Some "red" |}
                  (StyleDebug.elementConflicts false [] promoBox))
    by (vm_compute; left; reflexivity).
  exact (scanConflicts_complete false [] [promoBox; promoBox] promoBox _ Hsize Hel Hc).
Defined.

(* ===================================================================== *)
(** ** Further properties of the spacing test *)
(* ===================================================================== *)

Lemma floor_ge (x : Q) (z : Z) : (z <= Qfloor x)%Z <-> (inject_Z z <= x)%Q.
Proof.
  split; intros H.
  - apply Qle_trans with (inject_Z (Qfloor x)); [|apply Qfloor_le].
    rewrite <- Zle_Qle. exact H.
  - rewrite <- (Qfloor_Z z). now apply Qfloor_resp_le.
Qed.

Lemma round_ge (v : Qc) (z : Z) :
  (z <= Js.round v)%Z <-> (inject_Z z - (1 # 2) <= this v)%Q.
Proof. unfold Js.round. rewrite floor_ge. split; intros H; lra. Qed.

Lemma round_le (v : Qc) (z : Z) :
  (Js.round v <= z)%Z <-> (this v < inject_Z z + (1 # 2))%Q.
Proof.
  assert (H : (Js.round v <= z)%Z <-> ~ (z + 1 <= Js.round v)%Z) by lia.
  rewrite H, round_ge. rewrite inject_Z_plus. change (inject_Z 1) with 1%Q.
  split; intros H'; lra.
Qed.

(** X16.  The measured values that pass the spacing test, as intervals of
    the value itself.  Rounding moves every window half a pixel down and
    makes it half open: everything from -2.5 up to, but not including,
    34.5 passes, and above that the windows from 2.5 below to just under
    2.5 above 40, 48, 56, 64, 80, 96, 112 and 128.  Nothing from 130.5 on
    passes. *)
Theorem isConsistentSpacing_intervals (v : Qc) :
  StyleDebug.isConsistentSpacing v = true <->
  (-(5 # 2) <= this v /\ this v < 69 # 2
   \/ 75 # 2 <= this v /\ this v < 85 # 2
   \/ 91 # 2 <= this v /\ this v < 101 # 2
   \/ 107 # 2 <= this v /\ this v < 117 # 2
   \/ 123 # 2 <= this v /\ this v < 133 # 2
   \/ 155 # 2 <= this v /\ this v < 165 # 2
   \/ 187 # 2 <= this v /\ this v < 197 # 2
   \/ 219 # 2 <= this v /\ this v < 229 # 2
   \/ 251 # 2 <= this v /\ this v < 261 # 2)%Q.
Proof.
  rewrite isConsistentSpacing_windows. cbv zeta.
  rewrite !round_ge, !round_le. unfold inject_Z.
  split; intros H; lra.
Qed.

(* ===================================================================== *)
(** ** Further properties of the variable lookup in an inline style *)
(* ===================================================================== *)

Definition noChar (c : ascii) (s : string) : bool :=
  forallb (fun x => negb (Ascii.eqb x c)) (list_ascii_of_string s).

Lemma append_assoc3 (a b c : string) : (a ++ b) ++ c = a ++ b ++ c.
Proof.
  induction a as [|x a IH]; [now rewrite !append_nil|].
  rewrite !append_cons. now rewrite IH.
Qed.

Lemma lit_app (pre r : string) : RgbRegex.lit pre (pre ++ r) = Some r.
Proof.
  induction pre as [|a pre IH]; [rewrite append_nil; now destruct r|].
  rewrite append_cons. cbn [RgbRegex.lit]. now rewrite Ascii.eqb_refl.
Qed.

Lemma lit_inv (pre s r : string) : RgbRegex.lit pre s = Some r -> s = pre ++ r.
Proof.
  revert s. induction pre as [|a pre IH]; intros s H.
  - rewrite append_nil. destruct s; cbn in H; congruence.
  - destruct s as [|b s]; [discriminate|]. cbn [RgbRegex.lit] in H.
    destruct (Ascii.eqb a b) eqn:Hab; [|discriminate].
    apply Ascii.eqb_eq in Hab. subst b. rewrite append_cons. f_equal. now apply IH.
Qed.

Lemma spaces_split (s : string) :
  exists ws, s = ws ++ RgbRegex.spaces s /\ allWhite ws = true.
Proof.
  induction s as [|c s (ws & Hs & Hw)].
  - exists EmptyString. split; reflexivity.
  - cbn [RgbRegex.spaces]. destruct (Js.isWhiteSpace c) eqn:Hc.
    + exists (String c ws). rewrite append_cons. split; [now rewrite <- Hs|].
      unfold allWhite in *. cbn [list_ascii_of_string forallb]. now rewrite Hc.
    + exists EmptyString. split; [now rewrite append_nil | reflexivity].
Qed.

Lemma runUntil_inv (stop : ascii) (s name rest : string) :
  StyleRegex.runUntil stop s = (name, rest) ->
  s = name ++ rest /\ noChar stop name = true.
Proof.
  revert name rest. induction s as [|c s IH]; intros name rest H.
  - cbn in H. injection H as <- <-. split; reflexivity.
  - cbn [StyleRegex.runUntil] in H. destruct (Ascii.eqb c stop) eqn:Hc.
    + injection H as <- <-. split; [now rewrite append_nil | reflexivity].
    + destruct (StyleRegex.runUntil stop s) as [r rest'] eqn:Hr.
      injection H as <- <-. destruct (IH r rest' eq_refl) as [Hs Hn].
      split; [rewrite append_cons; now rewrite <- Hs|].
      unfold noChar in *. cbn [list_ascii_of_string forallb]. now rewrite Hc.
Qed.

Lemma runUntil_app (stop : ascii) (name rest : string) :
  noChar stop name = true ->
  StyleRegex.runUntil stop (name ++ String stop rest) = (name, String stop rest).
Proof.
  intros Hn. induction name as [|c name IH].
  - rewrite append_nil. cbn [StyleRegex.runUntil]. now rewrite Ascii.eqb_refl.
  - unfold noChar in Hn. cbn [list_ascii_of_string forallb] in Hn.
    apply andb_true_iff in Hn. destruct Hn as [Hc Hn]. apply negb_true_iff in Hc.
    rewrite append_cons. cbn [StyleRegex.runUntil]. rewrite Hc. now rewrite IH.
Qed.

Lemma search_inv {A} (m : string -> option A) (s : string) (v : A) :
  StyleRegex.search m s = Some v -> exists pre t, s = pre ++ t /\ m t = Some v.
Proof.
  induction s as [|c s IH]; cbn [StyleRegex.search]; intros H.
  - destruct (m EmptyString) eqn:Hm; [|discriminate]. injection H as ->.
    exists EmptyString, EmptyString. split; [reflexivity | exact Hm].
  - destruct (m (String c s)) eqn:Hm.
    + injection H as ->. exists EmptyString, (String c s).
      split; [now rewrite append_nil | exact Hm].
    + destruct (IH H) as (pre & t & Hs & Ht). exists (String c pre), t.
      split; [rewrite append_cons; now rewrite <- Hs | exact Ht].
Qed.

Lemma search_here {A} (m : string -> option A) (s : string) (v : A) :
  m s = Some v -> StyleRegex.search m s = Some v.
Proof. intros H. destruct s; cbn [StyleRegex.search]; now rewrite H. Qed.

Lemma search_suffix {A} (m : string -> option A) (pre t : string) (v : A) :
  m t = Some v -> exists v', StyleRegex.search m (pre ++ t) = Some v'.
Proof.
  intros H. induction pre as [|c pre (v' & IH)].
  - rewrite append_nil. exists v. now apply search_here.
  - rewrite append_cons. cbn [StyleRegex.search].
    destruct (m (String c (pre ++ t))) as [w|]; [now exists w | now exists v'].
Qed.

Lemma varAt_inv (property t v : string) :
  StyleRegex.varAt property t = Some v ->
  v <> EmptyString /\ noChar ")" v = true
  /\ exists ws rest,
      allWhite ws = true
      /\ t = property ++ ":" ++ ws ++ "var(" ++ v ++ ")" ++ rest.
Proof.
  unfold StyleRegex.varAt. intros H.
  destruct (RgbRegex.lit (property ++ ":") t) as [s1|] eqn:H1; [|discriminate].
  cbn [mbind option_bind] in H.
  destruct (RgbRegex.lit "var(" (RgbRegex.spaces s1)) as [s2|] eqn:H2; [|discriminate].
  cbn [mbind option_bind] in H.
  destruct (StyleRegex.runUntil ")" s2) as [name rest] eqn:H3.
  destruct (Js.truthy name) eqn:Hn; [|discriminate].
  destruct (RgbRegex.lit ")" rest) as [rest'|] eqn:H4; [|discriminate].
  cbn [mbind option_bind] in H. injection H as <-.
  apply lit_inv in H1, H2, H4. apply runUntil_inv in H3. destruct H3 as [H3 Hno].
  destruct (spaces_split s1) as (ws & Hs1 & Hw).
  split; [intros Heq; rewrite Heq in Hn; discriminate|]. split; [exact Hno|].
  exists ws, rest'. split; [exact Hw|].
  rewrite H1, append_assoc3. do 2 f_equal.
  rewrite Hs1 at 1. f_equal. rewrite H2. f_equal. rewrite H3. f_equal. exact H4.
Qed.

Lemma varAt_declaration (property ws v rest : string) :
  allWhite ws = true -> v <> EmptyString -> noChar ")" v = true ->
  StyleRegex.varAt property (property ++ ":" ++ ws ++ "var(" ++ v ++ ")" ++ rest) = Some v.
Proof.
  intros Hw Hv Hno. unfold StyleRegex.varAt.
  rewrite <- (append_assoc3 property ":"), lit_app. cbn [mbind option_bind].
  assert (Hvar : "var(" ++ v ++ ")" ++ rest = String "v" ("ar(" ++ v ++ ")" ++ rest))
    by (now rewrite append_cons).
  rewrite Hvar, (spaces_skip ws "v" _ Hw eq_refl), <- Hvar, lit_app.
  cbn [mbind option_bind].
  assert (Hclose : ")" ++ rest = String ")" rest)
    by (now rewrite append_cons, append_nil).
  rewrite Hclose, (runUntil_app ")" v rest Hno).
  destruct v as [|c v]; [contradiction|]. cbn [Js.truthy].
  rewrite <- Hclose, lit_app. reflexivity.
Qed.

(** X17.  The variable lookup reads declarations through [var(...)] and
    nothing else.  A variable reported for a property was read from the
    inline style: the style contains the property name, a colon, white
    space if any, and [var(] ... [)] around the reported name, which is
    not empty and holds no closing parenthesis.  Conversely an inline
    style that starts with such a declaration gives its name, whatever
    follows. *)
Theorem getCSSVariable_reads_declarations (e : SectionInspect.Element) (property : string) :
  (forall v,
      SectionInspect.getCSSVariable e property = Some v ->
      v <> EmptyString
      /\ noChar ")" v = true
      /\ exists pre ws rest,
          allWhite ws = true
          /\ default "" (SectionInspect.styleAttr e)
             = pre ++ property ++ ":" ++ ws ++ "var(" ++ v ++ ")" ++ rest)
  /\ (forall ws v rest,
        SectionInspect.styleAttr e
        = Some (property ++ ":" ++ ws ++ "var(" ++ v ++ ")" ++ rest) ->
        allWhite ws = true -> v <> EmptyString -> noChar ")" v = true ->
        SectionInspect.getCSSVariable e property = Some v).
Proof.
  split.
  - intros v Hv. unfold SectionInspect.getCSSVariable in Hv. cbv zeta in Hv.
    apply search_inv in Hv. destruct Hv as (pre & t & Hs & Ht).
    apply varAt_inv in Ht. destruct Ht as (Hne & Hno & ws & rest & Hw & Ht).
    split; [exact Hne|]. split; [exact Hno|]. exists pre, ws, rest.
    split; [exact Hw|]. now rewrite Hs, Ht.
  - intros ws v rest Hstyle Hw Hv Hno.
    unfold SectionInspect.getCSSVariable. cbv zeta. rewrite Hstyle. cbn [from_option id].
    apply search_here. now apply varAt_declaration.
Qed.

Lemma varAt_longer_name (p1 p2 t v : string) :
  StyleRegex.varAt (p1 ++ p2) t = Some v ->
  exists t', t = p1 ++ t' /\ StyleRegex.varAt p2 t' = Some v.
Proof.
  intros H. unfold StyleRegex.varAt in H.
  destruct (RgbRegex.lit ((p1 ++ p2) ++ ":") t) as [s1|] eqn:H1; [|discriminate].
  cbn [mbind option_bind] in H. apply lit_inv in H1.
  exists ((p2 ++ ":") ++ s1). split; [now rewrite H1, !append_assoc3|].
  unfold StyleRegex.varAt. rewrite lit_app. exact H.
Qed.

(** X18.  The pattern for a property is not anchored at the start of a
    declaration, so the declaration of [background-color] is also read as
    one of [color]: an entry that reports a background variable always
    reports a text variable too. *)
Theorem elementFact_bgVar_textVar (ty : option string) (t : SectionInspect.Target)
  (c v : string)
  (Hbg : SectionInspect.f_bgVar (SectionInspect.elementFact ty t c) = Some v) :
  exists v', SectionInspect.f_textVar (SectionInspect.elementFact ty t c) = Some v'.
Proof.
  cbn [SectionInspect.elementFact SectionInspect.f_bgVar SectionInspect.f_textVar] in *.
  unfold SectionInspect.getCSSVariable in *. cbv zeta in *.
  apply search_inv in Hbg. destruct Hbg as (pre & s & Hs & Hm).
  change "background-color" with ("background-" ++ "color") in Hm.
  apply varAt_longer_name in Hm. destruct Hm as (s' & -> & Hm).
  rewrite Hs, <- append_assoc3. now apply (search_suffix _ _ _ v).
Qed.

(** An element with the inline style [style]. *)
Definition withStyle (style : string) (e : SectionInspect.Element) : SectionInspect.Element :=
  {| SectionInspect.tagName := SectionInspect.tagName e;
     SectionInspect.elId := SectionInspect.elId e;
     SectionInspect.classAttr := SectionInspect.classAttr e;
     SectionInspect.isSvg := SectionInspect.isSvg e;
     SectionInspect.styleAttr := Some style;
     SectionInspect.offsetParentNull := SectionInspect.offsetParentNull e;
     SectionInspect.computed := SectionInspect.computed e;
     SectionInspect.src := SectionInspect.src e;
     SectionInspect.naturalWidth := SectionInspect.naturalWidth e;
     SectionInspect.naturalHeight := SectionInspect.naturalHeight e;
     SectionInspect.complete := SectionInspect.complete e |}.

Definition brandBox : SectionInspect.Element :=
  withStyle "margin:0;color: var(--brand); padding: 4px"
            (sample "DIV" "hero" false black clear).

Definition surfaceBox : SectionInspect.Element :=
  withStyle "background-color: var(--surface)" (sample "DIV" "hero" false black clear).

Example getCSSVariable_later_declaration :
  SectionInspect.getCSSVariable brandBox "color" = Some "--brand"
  /\ SectionInspect.getCSSVariable brandBox "background-color" = None.
Proof. split; reflexivity. Qed.

Lemma elementFact_bgVar_textVar_witness :
  exists v',
    SectionInspect.f_textVar
      (SectionInspect.elementFact None
         {| SectionInspect.uid := 0; SectionInspect.el := surfaceBox;
            SectionInspect.ancestors := [] |} "hero") = Some v'.
Proof.
  exact (elementFact_bgVar_textVar None
           {| SectionInspect.uid := 0; SectionInspect.el := surfaceBox;
              SectionInspect.ancestors := [] |} "hero" "--surface" eq_refl).
Defined.

(* ===================================================================== *)
(** ** Properties of the section identity *)
(* ===================================================================== *)

Lemma replaceFirst_unfold (pat by_ s : string) :
  Js.replaceFirst pat by_ s
  = if String.prefix pat s
    then by_ ++ String.substring (String.length pat) (String.length s - String.length pat) s
    else match s with
         | EmptyString => EmptyString
         | String c t => String c (Js.replaceFirst pat by_ t)
         end.
Proof. destruct s; reflexivity. Qed.

Lemma prefix_app (pat x : string) : String.prefix pat (pat ++ x) = true.
Proof.
  induction pat as [|c pat IH]; [rewrite append_nil; now destruct x|].
  rewrite append_cons. cbn [String.prefix].
  destruct (ascii_dec c c) as [_|Hne]; [exact IH | contradiction].
Qed.

Lemma substring_app (pat x : string) :
  String.substring (String.length pat) (String.length (pat ++ x) - String.length pat) (pat ++ x)
  = x.
Proof.
  induction pat as [|c pat IH].
  - rewrite append_nil. cbn [String.length]. rewrite Nat.sub_0_r. apply substring_full.
  - rewrite append_cons. cbn [String.length Nat.sub String.substring]. exact IH.
Qed.

Lemma replaceFirst_prefix (pat by_ x : string) :
  Js.replaceFirst pat by_ (pat ++ x) = by_ ++ x.
Proof. now rewrite replaceFirst_unfold, prefix_app, substring_app. Qed.

Lemma replaceFirst_absent (pat by_ s : string) :
  Js.includes s pat = false -> Js.replaceFirst pat by_ s = s.
Proof.
  induction s as [|c s IH]; intros H; rewrite replaceFirst_unfold.
  - cbn [Js.includes] in H. apply orb_false_iff in H. destruct H as [-> _]. reflexivity.
  - cbn [Js.includes] in H. apply orb_false_iff in H. destruct H as [-> H].
    now rewrite IH.
Qed.

(** X19.  The identifier shown for a section is never empty: a section
    without an [id], or whose [id] is just the marker
    [shopify-section-], is shown as [unknown].  An [id] that starts with
    the marker is shown without it, and an [id] that does not contain the
    marker is shown as it is. *)
Theorem getSectionId_cleans (id x : string) :
  SectionInfo.getSectionId id <> EmptyString
  /\ SectionInfo.getSectionId EmptyString = "unknown"
  /\ SectionInfo.getSectionId "shopify-section-" = "unknown"
  /\ (x <> EmptyString -> SectionInfo.getSectionId ("shopify-section-" ++ x) = x)
  /\ (id <> EmptyString -> Js.includes id "shopify-section-" = false ->
      SectionInfo.getSectionId id = id).
Proof.
  split; [|split; [reflexivity|split; [reflexivity|split]]].
  - unfold SectionInfo.getSectionId. cbv zeta.
    destruct (Js.replaceFirst "shopify-section-" "" id) as [|c s]; discriminate.
  - intros Hx. unfold SectionInfo.getSectionId. cbv zeta.
    rewrite replaceFirst_prefix, append_nil. destruct x; [contradiction | reflexivity].
  - intros Hid Hno. unfold SectionInfo.getSectionId. cbv zeta.
    rewrite (replaceFirst_absent _ _ _ Hno). destruct id; [contradiction | reflexivity].
Qed.

(* ===================================================================== *)
(** ** Properties of the section-load listener *)
(* ===================================================================== *)

(** X20.  The listener for [shopify:section:load] does not look for an
    existing button: on a section container it always appends one more
    control, and a later [init] leaves the section as the listener left
    it. *)
Theorem onSectionLoad_adds_control
  (positionRelative : SectionInspect.Element -> SectionInspect.Element)
  (createDebugButton : SectionInspect.Node -> SectionInspect.Node)
  (section : SectionInspect.Node)
  (Hsection : SectionInspect.isSection (SectionInspect.element section) = true)
  (button_class : forall n,
      SectionInspect.isDebugButton (SectionInspect.element (createDebugButton n)) = true) :
  SectionInspect.controls (SectionEvents.onSectionLoad createDebugButton section)
  = S (SectionInspect.controls section)
  /\ SectionInspect.instrument positionRelative createDebugButton
       (SectionEvents.onSectionLoad createDebugButton section)
     = SectionEvents.onSectionLoad createDebugButton section.
Proof.
  unfold SectionEvents.onSectionLoad. rewrite Hsection. split.
  - unfold SectionInspect.controls. cbn [SectionInspect.children].
    rewrite List.filter_app, length_app. cbn [List.filter].
    rewrite button_class. cbn [length]. lia.
  - unfold SectionInspect.instrument.
    assert (H : SectionInspect.hasDescendant SectionInspect.isDebugButton
                  (SectionInspect.El (SectionInspect.element section)
                     (SectionInspect.children section ++ [createDebugButton section])%list)
                = true); [|now rewrite H].
    cbn [SectionInspect.hasDescendant]. rewrite existsb_app. cbn [existsb].
    rewrite button_class. cbn [orb]. apply orb_true_r.
Qed.

Lemma onSectionLoad_adds_control_witness :
  map SectionInspect.controls
    (map (SectionEvents.onSectionLoad inspectButton)
       (SectionInspect.children (SectionInspect.init setRelative inspectButton twoSectionPage)))
  = [2%nat; 2%nat].
Proof.
  assert (Hbtn : forall n, SectionInspect.isDebugButton
                   (SectionInspect.element (inspectButton n)) = true) by reflexivity.
  assert (H : forall s, In s (SectionInspect.children
                (SectionInspect.init setRelative inspectButton twoSectionPage)) ->
              SectionInspect.controls (SectionEvents.onSectionLoad inspectButton s)
              = S (SectionInspect.controls s)).
  { intros s Hs. apply (onSectionLoad_adds_control setRelative inspectButton s); [|exact Hbtn].
    revert s Hs. apply List.Forall_forall. vm_compute. repeat constructor. }
  rewrite map_map. erewrite map_ext_in; [|exact H].
  vm_compute. reflexivity.
Defined.

(* ===================================================================== *)
(** ** Properties of the copy of the style report *)
(* ===================================================================== *)

(** X21.  Unlike the copy operations of the section tools, the copy of the
    style report can throw: it does so exactly when the clipboard API is
    missing (before anything else has happened) or when the API rejects
    and [execCommand] throws, in which case the text area stays in the
    page.  In every other case the button shows [Copied!], also when
    [execCommand] reports that nothing was copied. *)
Theorem copyAllToClipboard_outcomes (pf : Browser.Platform) (text : string) :
  let tr := fst (Browser.run (StyleCopy.copyAllToClipboard text) pf) in
  let out := snd (Browser.run (StyleCopy.copyAllToClipboard text) pf) in
  (out = Browser.Thrown <->
   Browser.clipboard pf = Browser.ApiMissing
   \/ (Browser.clipboard pf = Browser.ApiRejects
       /\ Browser.execCommand pf = Browser.ExecThrows))
  /\ (out <> Browser.Thrown -> out = Browser.Returned StyleCopy.CopiedShown)
  /\ (Browser.clipboard pf = Browser.ApiMissing -> tr = [])
  /\ (Browser.clipboard pf = Browser.ApiResolves -> tr = [Browser.ClipboardWriteText text])
  /\ (Browser.clipboard pf = Browser.ApiRejects ->
      tr = ([Browser.ClipboardWriteText text; Browser.CreateTextarea text;
             Browser.AppendToBody; Browser.SelectTextarea; Browser.ExecCommandCopy]
            ++ (if Browser.execCommand pf is Browser.ExecThrows then []
                else [Browser.RemoveFromBody]))%list).
Proof.
  destruct pf as [[| |] [|ok]]; cbv zeta; cbn;
    repeat match goal with
           | |- _ /\ _ => split
           | |- _ <-> _ => split
           | |- _ -> _ => intro
           | H : _ \/ _ |- _ => destruct H
           | H : _ /\ _ |- _ => destruct H
           end;
    try congruence; try reflexivity; auto.
Qed.

(* ===================================================================== *)
(** ** Properties of the theme toggle *)
(* ===================================================================== *)







(* ===================================================================== *)
(** ** Properties of the template name and the section type *)
(* ===================================================================== *)

Definition allName (s : string) : bool :=
  forallb SectionInfo.isNameChar (list_ascii_of_string s).

(** Nothing or a character that is not a name character: where a
    greedy run of name characters stops. *)
Definition stopsName (s : string) : bool :=
  match s with
  | EmptyString => true
  | String c _ => negb (SectionInfo.isNameChar c)
  end.

Lemma litNoCase_app (pre r : string) : SectionInfo.litNoCase pre (pre ++ r) = Some r.
Proof.
  induction pre as [|a pre IH]; [rewrite append_nil; now destruct r|].
  rewrite append_cons. cbn [SectionInfo.litNoCase]. now rewrite Ascii.eqb_refl.
Qed.

Lemma nameRun_app (name rest : string) :
  allName name = true -> stopsName rest = true ->
  SectionInfo.nameRun (name ++ rest) = (name, rest).
Proof.
  intros Hn Hr. induction name as [|c name IH].
  - rewrite append_nil. destruct rest as [|c r]; [reflexivity|].
    cbn [stopsName] in Hr. apply negb_true_iff in Hr.
    cbn [SectionInfo.nameRun]. now rewrite Hr.
  - unfold allName in Hn. cbn [list_ascii_of_string forallb] in Hn.
    apply andb_true_iff in Hn. destruct Hn as [Hc Hn].
    rewrite append_cons. cbn [SectionInfo.nameRun]. rewrite Hc. now rewrite IH.
Qed.

Lemma nameRun_inv (s name rest : string) :
  SectionInfo.nameRun s = (name, rest) -> allName name = true.
Proof.
  revert name rest. induction s as [|c s IH]; intros name rest H.
  - cbn in H. injection H as <- <-. reflexivity.
  - cbn [SectionInfo.nameRun] in H. destruct (SectionInfo.isNameChar c) eqn:Hc.
    + destruct (SectionInfo.nameRun s) as [r rest'] eqn:Hr. injection H as <- <-.
      unfold allName. cbn [list_ascii_of_string forallb]. rewrite Hc.
      exact (IH r rest' eq_refl).
    + injection H as <- <-. reflexivity.
Qed.

Lemma name1_app (name rest : string) :
  name <> EmptyString -> allName name = true -> stopsName rest = true ->
  SectionInfo.name1 (name ++ rest) = Some name.
Proof.
  intros Hne Hn Hr. unfold SectionInfo.name1. rewrite (nameRun_app _ _ Hn Hr).
  destruct name; [contradiction | reflexivity].
Qed.

Lemma name1_inv (s name : string) :
  SectionInfo.name1 s = Some name -> name <> EmptyString /\ allName name = true.
Proof.
  unfold SectionInfo.name1. destruct (SectionInfo.nameRun s) as [r rest] eqn:Hr.
  destruct (Js.truthy r) eqn:Ht; [|discriminate]. intros H. injection H as <-.
  split; [intros Heq; rewrite Heq in Ht; discriminate|]. exact (nameRun_inv _ _ _ Hr).
Qed.

(** Two characters that the [i] flag identifies have the same lower
    case. *)
Definition foldCheck (m n : N) : bool :=
  implb (Ascii.eqb (Js.upperChar (ascii_of_N m)) (Js.upperChar (ascii_of_N n)))
        (Ascii.eqb (Js.lowerChar (ascii_of_N m)) (Js.lowerChar (ascii_of_N n))).

Lemma foldCheck_all :
  forallb (fun m => forallb (foldCheck m) (map N.of_nat (seq 0 256)))
          (map N.of_nat (seq 0 256)) = true.
Proof. vm_compute. reflexivity. Qed.

Lemma code_listed (c : ascii) : In (N_of_ascii c) (map N.of_nat (seq 0 256)).
Proof.
  apply in_map_iff. exists (N.to_nat (N_of_ascii c)). split; [apply N2Nat.id|].
  apply in_seq. pose proof (N_ascii_bounded c). lia.
Qed.

Lemma upperChar_lowerChar (a b : ascii) :
  Js.upperChar a = Js.upperChar b -> Js.lowerChar a = Js.lowerChar b.
Proof.
  intros H.
  pose proof (proj1 (forallb_forall _ _) foldCheck_all _ (code_listed a)) as Ha.
  pose proof (proj1 (forallb_forall _ _) Ha _ (code_listed b)) as Hab.
  unfold foldCheck in Hab. rewrite !ascii_N_embedding in Hab.
  rewrite H, Ascii.eqb_refl in Hab. cbn [implb] in Hab. now apply Ascii.eqb_eq.
Qed.

Lemma litNoCase_prefix (pre s r : string) :
  SectionInfo.litNoCase pre s = Some r ->
  String.prefix (Js.toLowerCase pre) (Js.toLowerCase s) = true.
Proof.
  revert s. induction pre as [|a pre IH]; intros s H.
  - cbn. now destruct (Js.toLowerCase s).
  - destruct s as [|b s]; [discriminate|]. cbn [SectionInfo.litNoCase] in H.
    destruct (Ascii.eqb (Js.upperChar a) (Js.upperChar b)) eqn:Hab; [|discriminate].
    apply Ascii.eqb_eq, upperChar_lowerChar in Hab.
    cbn [Js.toLowerCase String.prefix]. rewrite Hab.
    destruct (ascii_dec (Js.lowerChar b) (Js.lowerChar b)); [|contradiction].
    now apply IH.
Qed.

Lemma search_templateAt_none (s : string) :
  Js.includes (Js.toLowerCase s) "template-" = false ->
  StyleRegex.search SectionInfo.templateAt s = None.
Proof.
  induction s as [|c s IH]; intros H.
  - reflexivity.
  - cbn [Js.toLowerCase Js.includes] in H. apply orb_false_iff in H. destruct H as [Hp Hs].
    cbn [StyleRegex.search]. unfold SectionInfo.templateAt at 1.
    destruct (SectionInfo.litNoCase "template-" (String c s)) as [r|] eqn:Hl.
    + apply litNoCase_prefix in Hl.
      change (Js.toLowerCase "template-") with "template-" in Hl.
      change (Js.toLowerCase (String c s))
        with (String (Js.lowerChar c) (Js.toLowerCase s)) in Hl.
      rewrite Hl in Hp. discriminate.
    + cbn [mbind option_bind]. now apply IH.
Qed.

(** X26.  The template name is never empty.  A body class [template-NAME]
    at the start of the class list gives NAME, whatever the path; and
    when the class list holds no [template-] in any letter case the name
    is read from the path alone and is one of seven fixed names. *)
Theorem getTemplateName_result (bodyClasses path name others : string) :
  SectionInfo.getTemplateName bodyClasses path <> EmptyString
  /\ (name <> EmptyString -> allName name = true -> stopsName others = true ->
      SectionInfo.getTemplateName ("template-" ++ name ++ others) path = name)
  /\ (Js.includes (Js.toLowerCase bodyClasses) "template-" = false ->
      SectionInfo.getTemplateName bodyClasses path = SectionInfo.getTemplateName "" path
      /\ In (SectionInfo.getTemplateName bodyClasses path)
            ["index"; "product"; "collection"; "page"; "article"; "cart"; "unknown"]).
Proof.
  assert (Hpath : forall b, StyleRegex.search SectionInfo.templateAt b = None ->
            In (SectionInfo.getTemplateName b path)
               ["index"; "product"; "collection"; "page"; "article"; "cart"; "unknown"]).
  { intros b Hb. unfold SectionInfo.getTemplateName. rewrite Hb.
    repeat match goal with |- context [if ?c then _ else _] => destruct c end;
      cbn; tauto. }
  split; [|split].
  - destruct (StyleRegex.search SectionInfo.templateAt bodyClasses) as [n|] eqn:Hs.
    + unfold SectionInfo.getTemplateName. rewrite Hs.
      apply search_inv in Hs. destruct Hs as (pre & t & _ & Ht).
      unfold SectionInfo.templateAt in Ht.
      destruct (SectionInfo.litNoCase "template-" t) as [r|]; [|discriminate].
      cbn [mbind option_bind] in Ht. now apply name1_inv in Ht.
    + specialize (Hpath _ Hs). intros Heq. rewrite Heq in Hpath.
      cbn in Hpath. repeat (destruct Hpath as [Hpath | Hpath]; [discriminate|]).
      contradiction.
  - intros Hne Hn Hstop. unfold SectionInfo.getTemplateName.
    rewrite (search_here SectionInfo.templateAt _ name); [reflexivity|].
    unfold SectionInfo.templateAt. rewrite litNoCase_app. cbn [mbind option_bind].
    now apply name1_app.
  - intros Hno. pose proof (search_templateAt_none _ Hno) as Hs.
    split; [|now apply Hpath].
    unfold SectionInfo.getTemplateName. now rewrite Hs.
Qed.

Lemma isDigit_isNameChar (c : ascii) :
  Js.isDigit c = true -> SectionInfo.isNameChar c = true.
Proof.
  unfold Js.isDigit, SectionInfo.isNameChar. cbv zeta. intros H. rewrite H.
  rewrite orb_true_r. reflexivity.
Qed.

Lemma digits_allName (d : string) :
  forallb Js.isDigit (list_ascii_of_string d) = true -> allName d = true.
Proof.
  unfold allName. induction d as [|c d IH]; [reflexivity|].
  cbn [list_ascii_of_string forallb]. intros H. apply andb_true_iff in H.
  destruct H as [Hc Hd]. now rewrite (isDigit_isNameChar c Hc), IH.
Qed.

Lemma allName_app (a b : string) :
  allName a = true -> allName b = true -> allName (a ++ b) = true.
Proof.
  unfold allName. intros Ha Hb. induction a as [|c a IH]; [now rewrite append_nil|].
  rewrite append_cons. cbn [list_ascii_of_string forallb] in *.
  apply andb_true_iff in Ha. destruct Ha as [Hc Ha]. now rewrite Hc, IH.
Qed.

Lemma dropUniqueId_name (s : string) : allName s = true -> SectionInfo.dropUniqueId s = s.
Proof.
  unfold allName. induction s as [|c s IH]; [reflexivity|].
  cbn [list_ascii_of_string forallb SectionInfo.dropUniqueId]. intros H.
  apply andb_true_iff in H. destruct H as [Hc Hs].
  assert (Hu : Ascii.eqb c "_" = false).
  { destruct (Ascii.eqb c "_") eqn:He; [|reflexivity].
    apply Ascii.eqb_eq in He. subst c. discriminate. }
  rewrite Hu. cbn [andb]. now rewrite IH.
Qed.

Lemma dropNumericSuffix_name (s : string) :
  allName s = true -> allName (SectionInfo.dropNumericSuffix s) = true.
Proof.
  unfold allName. induction s as [|c s IH]; [reflexivity|].
  cbn [list_ascii_of_string forallb SectionInfo.dropNumericSuffix]. intros H.
  apply andb_true_iff in H. destruct H as [Hc Hs].
  destruct (_ && _); [reflexivity|].
  cbn [list_ascii_of_string forallb]. now rewrite Hc, IH.
Qed.

Lemma typeAt_inv (s name : string) :
  SectionInfo.typeAt s = Some name -> name <> EmptyString /\ allName name = true.
Proof.
  unfold SectionInfo.typeAt.
  destruct (SectionInfo.litNoCase "shopify-section-" s) as [rest|]; [|discriminate].
  cbn [mbind option_bind].
  destruct (SectionInfo.groupAt rest) as [after|]; [|apply name1_inv].
  destruct (SectionInfo.name1 after) as [n|] eqn:Hn; [|apply name1_inv].
  intros H. injection H as <-. now apply name1_inv in Hn.
Qed.

(** X27.  When neither the section nor a descendant carries a section type
    and the pattern finds a name in the [id], the type is that name
    without a numeric suffix.  The name holds letters, digits and dashes
    only, so the step that is to cut off an underscore and a unique id
    never changes it, and the type holds no other characters either. *)
Theorem getSectionType_from_id (ownType innerType : option string)
  (id classAttr name : string)
  (Hown : Js.truthy (default "" ownType) = false)
  (Hinner : Js.truthy (default "" innerType) = false)
  (Hmatch : StyleRegex.search SectionInfo.typeAt id = Some name) :
  SectionInfo.dropUniqueId name = name
  /\ SectionInfo.getSectionType ownType innerType id classAttr
     = Some (SectionInfo.dropNumericSuffix name)
  /\ allName (SectionInfo.dropNumericSuffix name) = true.
Proof.
  pose proof Hmatch as Hm. apply search_inv in Hm. destruct Hm as (pre & t & _ & Ht).
  apply typeAt_inv in Ht. destruct Ht as [_ Hn].
  pose proof (dropUniqueId_name name Hn) as Hu.
  split; [exact Hu|]. split; [|now apply dropNumericSuffix_name].
  unfold SectionInfo.getSectionType. now rewrite Hown, Hinner, Hmatch, Hu.
Qed.

Lemma getSectionType_from_id_witness :
  SectionInfo.getSectionType None (Some "") "shopify-section-hero-banner-2" "shopify-section"
  = Some "hero-banner".
Proof.
  exact (proj1 (proj2 (getSectionType_from_id None (Some "") "shopify-section-hero-banner-2"
                         "shopify-section" "hero-banner-2" eq_refl eq_refl eq_refl))).
Defined.

Lemma dropNumericSuffix_template (d : string) :
  d <> EmptyString -> forallb Js.isDigit (list_ascii_of_string d) = true ->
  SectionInfo.dropNumericSuffix ("template--" ++ d) = "template-".
Proof.
  intros Hne Hd. rewrite !append_cons, append_nil.
  destruct d as [|c d]; [contradiction|].
  cbn [SectionInfo.dropNumericSuffix Ascii.eqb Bool.eqb andb Js.truthy
       list_ascii_of_string forallb].
  assert (Hdash : Js.isDigit "-" = false) by reflexivity.
  rewrite Hdash. cbn [andb].
  cbn [list_ascii_of_string forallb] in Hd. rewrite Hd. reflexivity.
Qed.

(** X28.  The type read from the [id] of a section of a template, when
    neither the section nor a descendant carries a section type.  An [id]
    of the form [shopify-section-template--DIGITS--NAME] gives NAME
    without a numeric suffix.  In an [id] of the form
    [shopify-section-template--DIGITS__NAME] the optional group of the
    pattern does not match, the name is read from [template--DIGITS], and
    the type is [template-] whatever NAME is. *)
Theorem getSectionType_template_ids (digits name others classAttr : string)
  (Hdigits : digits <> EmptyString)
  (Hd : forallb Js.isDigit (list_ascii_of_string digits) = true) :
  (name <> EmptyString -> allName name = true -> stopsName others = true ->
   SectionInfo.getSectionType None None
     ("shopify-section-template--" ++ digits ++ "--" ++ name ++ others) classAttr
   = Some (SectionInfo.dropNumericSuffix name))
  /\ SectionInfo.getSectionType None None
       ("shopify-section-template--" ++ digits ++ "__" ++ name) classAttr
     = Some "template-".
Proof.
  assert (Ht : Js.truthy digits = true) by (destruct digits; [contradiction | reflexivity]).
  split.
  - intros Hne Hn Hstop. unfold SectionInfo.getSectionType. cbn [from_option id Js.truthy].
    rewrite (search_here SectionInfo.typeAt _ name).
    + now rewrite (dropUniqueId_name name Hn).
    + unfold SectionInfo.typeAt.
      change "shopify-section-template--" with ("shopify-section-" ++ "template--").
      rewrite append_assoc3, litNoCase_app. cbn [mbind option_bind].
      unfold SectionInfo.groupAt. rewrite litNoCase_app. cbn [mbind option_bind].
      rewrite (digits1_app digits _ Ht Hd) by (now rewrite !append_cons).
      cbn [mbind option_bind]. rewrite lit_app. now rewrite (name1_app name others).
  - unfold SectionInfo.getSectionType. cbn [from_option id Js.truthy].
    rewrite (search_here SectionInfo.typeAt _ ("template--" ++ digits)).
    + rewrite dropUniqueId_name
        by (apply allName_app; [reflexivity | now apply digits_allName]).
      now rewrite dropNumericSuffix_template.
    + unfold SectionInfo.typeAt.
      change "shopify-section-template--" with ("shopify-section-" ++ "template--").
      rewrite append_assoc3, litNoCase_app. cbn [mbind option_bind].
      assert (Hgroup : SectionInfo.groupAt ("template--" ++ digits ++ "__" ++ name) = None).
      { unfold SectionInfo.groupAt. rewrite litNoCase_app. cbn [mbind option_bind].
        rewrite (digits1_app digits _ Ht Hd) by (now rewrite !append_cons).
        cbn [mbind option_bind]. now rewrite !append_cons. }
      rewrite Hgroup, <- append_assoc3. apply name1_app.
      * intros Heq. apply (f_equal String.length) in Heq.
        rewrite append_length in Heq. cbn in Heq. lia.
      * apply allName_app; [reflexivity | now apply digits_allName].
      * now rewrite !append_cons.
Qed.

Lemma getSectionType_template_ids_witness :
  SectionInfo.getSectionType None None
    "shopify-section-template--15989560410283--hero-banner" "shopify-section"
  = Some "hero-banner"
  /\ SectionInfo.getSectionType None None
       "shopify-section-template--15989560410283__main" "shopify-section"
     = Some "template-".
Proof.
  assert (Hne : "15989560410283" <> EmptyString) by discriminate.
  assert (Hname : "hero-banner" <> EmptyString) by discriminate.
  split.
  - exact (proj1 (getSectionType_template_ids "15989560410283" "hero-banner" ""
                    "shopify-section" Hne eq_refl) Hname eq_refl eq_refl).
  - exact (proj2 (getSectionType_template_ids "15989560410283" "main" ""
                    "shopify-section" Hne eq_refl)).
Defined.

(* ===================================================================== *)
(** ** The file hint of the entries of a section scan *)
(* ===================================================================== *)

Lemma reportClass_nonempty (e : SectionInspect.Element) (c : string) :
  SectionInspect.reportClass e = Some c -> c <> EmptyString.
Proof.
  unfold SectionInspect.reportClass, SectionInspect.getPrimaryClass.
  destruct (negb (Js.truthy (SectionInspect.classAttr e)) || SectionInspect.isSvg e).
  - destruct (SectionInspect.isImage e); [|discriminate].
    intros H. injection H as <-. discriminate.
  - destruct (List.filter _ _) as [|h r] eqn:Hf.
    + cbn [head]. destruct (SectionInspect.isImage e); [|discriminate].
      intros H. injection H as <-. discriminate.
    + cbn [head]. intros H. injection H as <-.
      assert (Hin : In h (h :: r)) by now left.
      rewrite <- Hf in Hin. apply filter_In in Hin. destruct Hin as [_ Hok].
      rewrite !andb_true_iff in Hok. destruct Hok as [[Ht _] _].
      intros Heq. rewrite Heq in Ht. discriminate.
Qed.

Lemma guessFileLocation_some (c : string) (sectionType : option string) :
  c <> EmptyString -> SectionInspect.guessFileLocation (Some c) sectionType <> None.
Proof.
  intros Hc. unfold SectionInspect.guessFileLocation.
  destruct c; [contradiction|]. cbn [Js.truthy negb].
  destruct (SectionInspect.firstMatch _ _); [discriminate|].
  destruct sectionType as [t|]; [destruct (Js.truthy t)|]; discriminate.
Qed.

(** X29.  Every element entry of a section scan has a class name that is
    not empty, and therefore a file hint: the hint is null only for the
    entry of a section container without a primary class. *)
Theorem scan_entries_have_file_hint (ty : option string)
  (outer : list SectionInspect.Element) (section : SectionInspect.Node) :
  Forall (fun p => SectionInspect.f_className (snd p) <> EmptyString
                   /\ SectionInspect.f_fileHint (snd p) <> None)
         (SectionInspect.scanTrace ty outer section)
  /\ (SectionInspect.s_fileHint (SectionInspect.sectionFact ty section) = None
      <-> SectionInspect.getPrimaryClass (SectionInspect.element section) = None).
Proof.
  split.
  - apply List.Forall_forall. intros [t f] Hin. cbn [snd].
    destruct (scan_entriesOk ty outer section) as (Hent & _).
    destruct (Hent t f Hin) as (_ & _ & _ & Hf & Hrc & _).
    pose proof (reportClass_nonempty _ _ Hrc) as Hne. split; [exact Hne|].
    rewrite Hf. cbn [SectionInspect.elementFact SectionInspect.f_fileHint].
    now apply guessFileLocation_some.
  - cbn [SectionInspect.sectionFact SectionInspect.s_fileHint].
    destruct (SectionInspect.getPrimaryClass (SectionInspect.element section)) as [c|] eqn:Hc.
    + split; [|discriminate]. intros H. exfalso.
      apply (guessFileLocation_some c ty); [|exact H].
      apply (reportClass_nonempty (SectionInspect.element section)).
      unfold SectionInspect.reportClass. now rewrite Hc.
    + split; reflexivity.
Qed.

(* ===================================================================== *)
(** ** Properties of the debug report *)
(* ===================================================================== *)

Lemma rgbToHex_nonempty (rgb : string) : SectionInspect.rgbToHex rgb <> EmptyString.
Proof.
  unfold SectionInspect.rgbToHex.
  destruct (negb (Js.truthy rgb) || (rgb =? "transparent") || (rgb =? "rgba(0, 0, 0, 0)"))
    eqn:Hg; [discriminate|].
  rewrite !orb_false_iff in Hg. destruct Hg as [[Ht _] _]. apply negb_false_iff in Ht.
  destruct (RgbRegex.exec rgb) as [[[m1 m2] m3]|].
  - cbv zeta. rewrite append_cons. cbn [Js.toUpperCase].
    destruct (Js.code "#" =? 223)%N; discriminate.
  - intros Heq. rewrite Heq in Ht. discriminate.
Qed.

Lemma orElse_nonempty (v : option string) (fallback : string) :
  fallback <> EmptyString -> SectionReport.orElse v fallback <> EmptyString.
Proof.
  intros Hf. unfold SectionReport.orElse.
  destruct (Js.truthy (default "" v)) eqn:Ht; [|exact Hf].
  intros Heq. rewrite Heq in Ht. discriminate.
Qed.

Lemma includes_unfold (s sub : string) :
  Js.includes s sub
  = String.prefix sub s
    || match s with
       | EmptyString => false
       | String _ t => Js.includes t sub
       end.
Proof. destruct s; reflexivity. Qed.

Lemma includes_app (pre x post : string) : Js.includes (pre ++ x ++ post) x = true.
Proof.
  induction pre as [|c pre IH].
  - rewrite append_nil, includes_unfold, prefix_app. reflexivity.
  - rewrite append_cons. cbn [Js.includes]. rewrite IH. apply orb_true_r.
Qed.

Definition noSpace (s : string) : bool :=
  forallb (fun c => negb (Js.isWhiteSpace c)) (list_ascii_of_string s).

Lemma nonSpaceRun_split (s : string) :
  noSpace (SectionReport.nonSpaceRun s) = true
  /\ exists rest, s = SectionReport.nonSpaceRun s ++ rest.
Proof.
  induction s as [|c s (Hn & rest & Hs)].
  - split; [reflexivity|]. exists EmptyString. reflexivity.
  - cbn [SectionReport.nonSpaceRun]. destruct (Js.isWhiteSpace c) eqn:Hc.
    + split; [reflexivity|]. exists (String c s). now rewrite append_nil.
    + split.
      * unfold noSpace in *. cbn [list_ascii_of_string forallb]. now rewrite Hc.
      * exists rest. rewrite append_cons. now rewrite <- Hs.
Qed.

(** X30.  The report of the copy tool never holds an empty name.  The
    section identifier, the section type, the theme, the template and
    the three colours are not empty.  The path of the section file is
    built from the section type, or from the section identifier when the
    type is missing or empty and is shown as [unknown]; the path of the
    template is built from a template name that is not empty.  A colour
    scheme, when reported, is a run of characters without white space
    that follows [color-] in the class of the section. *)
Theorem buildDebugInfo_names (page : SectionReport.PageView) (v : SectionReport.SectionView) :
  let info := SectionReport.buildDebugInfo page v in
  SectionReport.section_id info <> EmptyString
  /\ SectionReport.section_type info <> EmptyString
  /\ SectionReport.theme info <> EmptyString
  /\ SectionReport.template info <> EmptyString
  /\ SectionReport.background (SectionReport.colors info) <> EmptyString
  /\ SectionReport.text (SectionReport.colors info) <> EmptyString
  /\ SectionReport.border (SectionReport.colors info) <> EmptyString
  /\ (exists name,
        name <> EmptyString
        /\ SectionReport.section_file info = "sections/" ++ name ++ ".liquid"
        /\ (name = SectionReport.section_type info
            \/ (SectionReport.section_type info = "unknown"
                /\ name = SectionReport.section_id info)))
  /\ (exists name,
        name <> EmptyString
        /\ SectionReport.template_json info = "templates/" ++ name ++ ".json")
  /\ (forall s,
        SectionReport.color_scheme info = Some s ->
        s <> EmptyString
        /\ noSpace s = true
        /\ Js.includes (SectionInspect.classAttr
                          (SectionInspect.element (SectionReport.section v)))
                       ("color-" ++ s) = true).
Proof.
  cbv zeta.
  cbn [SectionReport.buildDebugInfo SectionReport.section_id SectionReport.section_type
       SectionReport.theme SectionReport.template SectionReport.colors
       SectionReport.section_file SectionReport.template_json SectionReport.color_scheme].
  set (e := SectionInspect.element (SectionReport.section v)).
  set (ty := SectionInfo.getSectionType _ _ _ _).
  assert (Hid : SectionInfo.getSectionId (SectionInspect.elId e) <> EmptyString).
  { unfold SectionInfo.getSectionId. cbv zeta.
    destruct (Js.replaceFirst _ _ _) as [|c s]; discriminate. }
  split; [exact Hid|].
  split; [apply orElse_nonempty; discriminate|].
  split; [apply orElse_nonempty; discriminate|].
  split; [apply orElse_nonempty; discriminate|].
  split; [apply rgbToHex_nonempty|]. split; [apply rgbToHex_nonempty|].
  split; [apply rgbToHex_nonempty|].
  split; [|split].
  - exists (SectionReport.orElse ty (SectionInfo.getSectionId (SectionInspect.elId e))).
    split; [now apply orElse_nonempty|]. split; [reflexivity|].
    unfold SectionReport.orElse. destruct (Js.truthy (default "" ty)); auto.
  - exists (SectionInfo.getTemplateName (SectionReport.bodyClasses page)
              (SectionReport.pathname page)).
    split; [|reflexivity].
    intros Heq.
    destruct (StyleRegex.search SectionInfo.templateAt (SectionReport.bodyClasses page))
      as [n|] eqn:Hs; unfold SectionInfo.getTemplateName in Heq; rewrite Hs in Heq.
    + apply search_inv in Hs. destruct Hs as (pre & t & _ & Ht).
      unfold SectionInfo.templateAt in Ht.
      destruct (SectionInfo.litNoCase "template-" t) as [r|]; [|discriminate].
      cbn [mbind option_bind] in Ht. apply name1_inv in Ht. tauto.
    + repeat match type of Heq with
             | (if ?c then _ else _) = _ => destruct c
             end; discriminate.
  - intros s Hs. apply search_inv in Hs. destruct Hs as (pre & t & Hcls & Ht).
    unfold SectionReport.colorSchemeAt in Ht.
    destruct (RgbRegex.lit "color-" t) as [rest|] eqn:Hl; [|discriminate].
    cbn [mbind option_bind] in Ht. cbv zeta in Ht.
    destruct (Js.truthy (SectionReport.nonSpaceRun rest)) eqn:Hn; [|discriminate].
    injection Ht as <-. apply lit_inv in Hl.
    destruct (nonSpaceRun_split rest) as (Hno & rest' & Hrest).
    split; [intros Heq; rewrite Heq in Hn; discriminate|]. split; [exact Hno|].
    rewrite Hcls, Hl. rewrite Hrest at 1.
    rewrite <- (append_assoc3 "color-"). apply includes_app.
Qed.
